(** * Linux monitoring and alerting tool: a shallow embedding of [monitor.py]

    The development follows the layout of the program.  Part I embeds the
    pieces of the Python runtime the program leans on (text, numbers,
    dictionaries, the JSON codec of the state file, files, logging) and then
    the functions of [monitor.py] themselves, in source order.  Part II
    states and proves the properties of the monitoring engine.

    Conventions of the embedding.
    - Text and file contents are [string]s over 8-bit characters.  The
      runtime functions on text ([lower], [splitlines], [decode], [repr])
      are those of Python on 7-bit ASCII text and on nothing else: Python
      lowers, splits and decodes by Unicode rules that are not embedded
      here.  A statement that depends on one of them carries the hypothesis
      that the text is ASCII ([is_ascii]).
    - A Python [float] is identified with the decimal literal that
      [float.__repr__] prints for it in positional notation; comparisons are
      made on the rational value of that literal.
    - A Python [dict] is an association list kept in insertion order with
      unique keys ([dict_set] overwrites in place or appends).
    - The JSON codec covers the documents without exponents, NaN,
      Infinity and escapes from U+0100 on; [json_plain] decides whether a
      file is one on which [json_loads] is [json.loads].
    - A path is a string, and two strings are two files.  The files beside
      the script are named by their base names.
    - Effects are explicit: a function that touches files, the operational
      log or the mail transport takes a [world] and returns the new [world]
      together with either its value or the exception it raised.  The
      operational log [monitor.log] is kept apart from the other files, as
      the list of the records written to it; a statement about the content
      of a file assumes that the file is not the operational log. *)

From Stdlib Require Import List String Ascii ZArith NArith QArith Bool Lia.
From Stdlib Require Import Decimal DecimalString DecimalN.
Import ListNotations.
Close Scope Q_scope.
Open Scope string_scope.

(* ================================================================= *)
(** * Part I: the embedding *)
(* ================================================================= *)

(** ** Exceptions and results *)

Inductive exn : Type :=
| KeyError (key : string)
| TypeError (msg : string)
| ValueError (msg : string)
| AttributeError (msg : string)
| OSError (msg : string)            (* also ConnectionError, PermissionError *)
| TimeoutError (msg : string)
| SMTPException (msg : string)      (* also SMTPAuthenticationError *)
| PsutilError (msg : string)
| LibraryError (cls msg : string)   (* any other class under [Exception] *)
| KeyboardInterrupt.

(** [except Exception] catches every class above but [KeyboardInterrupt],
    which derives from [BaseException] only. *)
Definition is_Exception (e : exn) : bool :=
  match e with KeyboardInterrupt => false | _ => true end.

Inductive result (A : Type) : Type :=
| Ok (a : A)
| Raise (e : exn).
Arguments Ok {A} a.
Arguments Raise {A} e.

(** [l.append(x)] *)
Definition py_append {A} (l : list A) (x : A) : list A := (l ++ [x])%list.

(** ** Text *)

Fixpoint take (n : nat) (s : string) : string :=
  match n, s with
  | S n', String c s' => String c (take n' s')
  | _, _ => ""
  end.

Fixpoint drop (n : nat) (s : string) : string :=
  match n, s with
  | S n', String _ s' => drop n' s'
  | _, _ => s
  end.

Fixpoint map_str (f : ascii -> ascii) (s : string) : string :=
  match s with
  | "" => ""
  | String c s' => String (f c) (map_str f s')
  end.

Definition code (c : ascii) : nat := nat_of_ascii c.

Definition is_upper (c : ascii) : bool :=
  (65 <=? code c)%nat && (code c <=? 90)%nat.

Definition lower_char (c : ascii) : ascii :=
  if is_upper c then ascii_of_nat (code c + 32) else c.

(** [str.lower()], on ASCII text: only the letters A to Z change. *)
Definition lower (s : string) : string := map_str lower_char s.

(** [p in s] on strings: [p] occurs in [s] as a contiguous substring. *)
Fixpoint str_in (p s : string) : bool :=
  prefix p s ||
  match s with
  | "" => false
  | String _ s' => str_in p s'
  end.

(** [sep.join(items)] *)
Definition join (sep : string) (items : list string) : string :=
  String.concat sep items.

(** The characters at which [str.splitlines] ends a line (below U+0100):
    LF, VT, FF, CR, FS, GS, RS and NEL. *)
Definition is_linebreak (c : ascii) : bool :=
  let n := code c in
  (n =? 10)%nat || (n =? 11)%nat || (n =? 12)%nat || (n =? 13)%nat ||
  (n =? 28)%nat || (n =? 29)%nat || (n =? 30)%nat || (n =? 133)%nat.

Definition CR : ascii := ascii_of_nat 13.
Definition LF : ascii := ascii_of_nat 10.

(** [str.splitlines()] with the line under construction in [cur]: terminators
    are dropped, CR LF counts as one terminator and no empty last line is
    produced. *)
Fixpoint split_from (cur s : string) : list string :=
  match s with
  | "" => if (cur =? "")%string then [] else [cur]
  | String c s' =>
      if is_linebreak c then
        cur :: match s' with
               | String c' s'' =>
                   if Ascii.eqb c CR && Ascii.eqb c' LF
                   then split_from "" s''
                   else split_from "" s'
               | "" => []
               end
      else split_from (cur ++ String c "") s'
  end.

Definition splitlines (s : string) : list string := split_from "" s.

(** [bytes.decode(errors="replace")]: never fails.  On ASCII bytes it is
    the identity.  A byte from 128 on is part of a UTF-8 sequence that has
    no character in the 8-bit alphabet of the embedding; it is rendered by
    the substitute ["?"], which is not what Python produces. *)
Definition decode_char (c : ascii) : ascii :=
  if (code c <? 128)%nat then c else "?"%char.

Definition decode (data : string) : string := map_str decode_char data.

(** Hexadecimal digits, for the escapes of [repr] and of the JSON encoder. *)
Definition hex_digit (n : nat) : ascii :=
  if (n <? 10)%nat then ascii_of_nat (48 + n) else ascii_of_nat (87 + n).

Definition hex2 (c : ascii) : string :=
  String (hex_digit (code c / 16)) (String (hex_digit (code c mod 16)) "").

Definition is_printable (c : ascii) : bool :=
  (32 <=? code c)%nat && (code c <=? 126)%nat.

Definition QUOTE : ascii := ascii_of_nat 34.
Definition APOS : ascii := ascii_of_nat 39.
Definition BACKSLASH : ascii := ascii_of_nat 92.
Definition TAB : ascii := ascii_of_nat 9.
Definition BS : ascii := ascii_of_nat 8.
Definition FF : ascii := ascii_of_nat 12.

Definition str1 (c : ascii) : string := String c "".

(** [repr] of a [str]: single quotes unless the text has an apostrophe and
    no double quote. *)
Definition repr_char (q c : ascii) : string :=
  if Ascii.eqb c BACKSLASH then String BACKSLASH (str1 BACKSLASH)
  else if Ascii.eqb c q then String BACKSLASH (str1 q)
  else if Ascii.eqb c LF then String BACKSLASH "n"
  else if Ascii.eqb c CR then String BACKSLASH "r"
  else if Ascii.eqb c TAB then String BACKSLASH "t"
  else if is_printable c then str1 c
  else String BACKSLASH ("x" ++ hex2 c).

Fixpoint repr_body (q : ascii) (s : string) : string :=
  match s with
  | "" => ""
  | String c s' => repr_char q c ++ repr_body q s'
  end.

Definition repr_str (s : string) : string :=
  let q := if str_in (str1 APOS) s && negb (str_in (str1 QUOTE) s)
           then QUOTE else APOS in
  str1 q ++ repr_body q s ++ str1 q.

(** [repr] of a list of [str], as an f-string or ["%s"] prints it. *)
Definition repr_list (l : list string) : string :=
  "[" ++ join ", " (map repr_str l) ++ "]".

(** ** Numbers *)

Definition digits_of_N (n : N) : string :=
  NilEmpty.string_of_uint (N.to_uint n).

(** [str] of an [int] *)
Definition int_str (z : Z) : string :=
  (if (z <? 0)%Z then "-" else "") ++ digits_of_N (Z.abs_N z).

(** A float, as the literal [-]int.frac that [repr] prints for it: a sign, the
    integer part, and the digits of the fraction, of which there is at least
    one. *)
Inductive digit : Type := dig0 | dig1 | dig2 | dig3 | dig4 | dig5 | dig6 | dig7 | dig8 | dig9.

Definition cons_digit (d : digit) (u : uint) : uint :=
  match d with
  | dig0 => D0 u | dig1 => D1 u | dig2 => D2 u | dig3 => D3 u | dig4 => D4 u
  | dig5 => D5 u | dig6 => D6 u | dig7 => D7 u | dig8 => D8 u | dig9 => D9 u
  end.

Definition uncons_digit (u : uint) : option (digit * uint) :=
  match u with
  | Nil => None
  | D0 u => Some (dig0, u) | D1 u => Some (dig1, u) | D2 u => Some (dig2, u)
  | D3 u => Some (dig3, u) | D4 u => Some (dig4, u) | D5 u => Some (dig5, u)
  | D6 u => Some (dig6, u) | D7 u => Some (dig7, u) | D8 u => Some (dig8, u)
  | D9 u => Some (dig9, u)
  end.

Record pyfloat : Type := mkfloat {
  f_neg : bool;
  f_int : N;
  f_frac1 : digit;
  f_frac : uint
}.

Definition frac_digits (f : pyfloat) : uint := cons_digit (f_frac1 f) (f_frac f).

Definition float_repr (f : pyfloat) : string :=
  (if f_neg f then "-" else "") ++
  digits_of_N (f_int f) ++ "." ++ NilEmpty.string_of_uint (frac_digits f).

Definition float_value (f : pyfloat) : Q :=
  let k := Z.of_nat (nb_digits (frac_digits f)) in
  let m := (Z.of_N (f_int f) * 10 ^ k + Z.of_N (N.of_uint (frac_digits f)))%Z in
  Qdiv (inject_Z (if f_neg f then - m else m)) (inject_Z (10 ^ k)).

Inductive pynum : Type :=
| PInt (z : Z)
| PFloat (f : pyfloat).

Definition num_value (x : pynum) : Q :=
  match x with
  | PInt z => inject_Z z
  | PFloat f => float_value f
  end.

Definition num_str (x : pynum) : string :=
  match x with
  | PInt z => int_str z
  | PFloat f => float_repr f
  end.

(** [x >= y] on numbers *)
Definition num_ge (x y : pynum) : bool := Qle_bool (num_value y) (num_value x).

(** ** Dictionaries *)

Definition dict (V : Type) : Type := list (string * V).

(** [d[k]], [None] standing for the [KeyError] *)
Fixpoint dict_lookup {V} (d : dict V) (k : string) : option V :=
  match d with
  | [] => None
  | (k', v) :: d' => if (k' =? k)%string then Some v else dict_lookup d' k
  end.

(** [d.get(k, default)] *)
Definition dict_get {V} (d : dict V) (k : string) (default : V) : V :=
  match dict_lookup d k with
  | Some v => v
  | None => default
  end.

(** [d[k] = v]: an existing key keeps its place, a new key goes last. *)
Fixpoint dict_set {V} (d : dict V) (k : string) (v : V) : dict V :=
  match d with
  | [] => [(k, v)]
  | (k', v') :: d' =>
      if (k' =? k)%string then (k, v) :: d' else (k', v') :: dict_set d' k v
  end.

(** [dict(pairs)] *)
Definition dict_of_pairs {V} (pairs : list (string * V)) : dict V :=
  fold_left (fun d kv => dict_set d (fst kv) (snd kv)) pairs [].

(** ** JSON values and the codec of the [json] module *)

Unset Elimination Schemes.
Inductive json : Type :=
| JNull
| JBool (b : bool)
| JInt (z : Z)
| JFloat (f : pyfloat)
| JStr (s : string)
| JList (l : list json)
| JDict (d : list (string * json)).
Set Elimination Schemes.

(** *** [json.dumps] (default options: [ensure_ascii], separators [", "]
    and [": "]) *)

Definition json_escape_char (c : ascii) : string :=
  if Ascii.eqb c QUOTE then String BACKSLASH (str1 QUOTE)
  else if Ascii.eqb c BACKSLASH then String BACKSLASH (str1 BACKSLASH)
  else if Ascii.eqb c LF then String BACKSLASH "n"
  else if Ascii.eqb c CR then String BACKSLASH "r"
  else if Ascii.eqb c TAB then String BACKSLASH "t"
  else if Ascii.eqb c BS then String BACKSLASH "b"
  else if Ascii.eqb c FF then String BACKSLASH "f"
  else if is_printable c then str1 c
  else String BACKSLASH ("u00" ++ hex2 c).

Fixpoint json_escape (s : string) : string :=
  match s with
  | "" => ""
  | String c s' => json_escape_char c ++ json_escape s'
  end.

Definition json_string (s : string) : string :=
  str1 QUOTE ++ json_escape s ++ str1 QUOTE.

Fixpoint json_dumps (v : json) : string :=
  match v with
  | JNull => "null"
  | JBool true => "true"
  | JBool false => "false"
  | JInt z => int_str z
  | JFloat f => float_repr f
  | JStr s => json_string s
  | JList l =>
      "[" ++
      match l with
      | [] => ""
      | x :: r =>
          json_dumps x ++
          (fix more (r : list json) : string :=
             match r with
             | [] => ""
             | y :: r' => ", " ++ json_dumps y ++ more r'
             end) r
      end ++ "]"
  | JDict d =>
      "{" ++
      match d with
      | [] => ""
      | (k, x) :: r =>
          json_string k ++ ": " ++ json_dumps x ++
          (fix more (r : list (string * json)) : string :=
             match r with
             | [] => ""
             | (k', y) :: r' =>
                 ", " ++ json_string k' ++ ": " ++ json_dumps y ++ more r'
             end) r
      end ++ "}"
  end.

(** *** [json.loads] *)

Definition is_ws (c : ascii) : bool :=
  Ascii.eqb c " " || Ascii.eqb c TAB || Ascii.eqb c LF || Ascii.eqb c CR.

Fixpoint skip_ws (s : string) : string :=
  match s with
  | String c s' => if is_ws c then skip_ws s' else s
  | "" => ""
  end.

Definition is_digit (c : ascii) : bool :=
  (48 <=? code c)%nat && (code c <=? 57)%nat.

Fixpoint span_digits (s : string) : string * string :=
  match s with
  | String c s' =>
      if is_digit c
      then let (ds, r) := span_digits s' in (String c ds, r)
      else ("", s)
  | "" => ("", "")
  end.

Definition digits_to_N (ds : string) : N :=
  match NilEmpty.uint_of_string ds with
  | Some u => N.of_uint u
  | None => 0%N
  end.

Definition digits_to_uint (ds : string) : uint :=
  match NilEmpty.uint_of_string ds with
  | Some u => u
  | None => Nil
  end.

(** The number scanner: an optional minus sign, then a single 0 or a run of
    digits not starting with 0, then an optional fraction (a dot and at least
    one digit).  A literal with a fraction is a float, one without is an
    int. *)
Definition parse_unsigned (neg : bool) (s : string) : option (json * string) :=
  match s with
  | String c r =>
      if is_digit c then
        let (ip, r1) := if Ascii.eqb c "0" then ("0", r) else span_digits s in
        let n := digits_to_N ip in
        let as_int := Some (JInt (if neg then - Z.of_N n else Z.of_N n)%Z, r1) in
        match r1 with
        | String "." r2 =>
            let (fp, r3) := span_digits r2 in
            match uncons_digit (digits_to_uint fp) with
            | Some (d, u) => Some (JFloat (mkfloat neg n d u), r3)
            | None => as_int      (* no digit after the dot *)
            end
        | _ => as_int
        end
      else None
  | "" => None
  end.

Definition parse_number (s : string) : option (json * string) :=
  match s with
  | String "-" r => parse_unsigned true r
  | _ => parse_unsigned false s
  end.

Definition hex_val (c : ascii) : option nat :=
  let n := code c in
  if is_digit c then Some (n - 48)
  else if (97 <=? n)%nat && (n <=? 102)%nat then Some (n - 87)
  else if (65 <=? n)%nat && (n <=? 70)%nat then Some (n - 55)
  else None.

(** [\uXXXX]: the model has characters for code points below 256 only. *)
Definition unicode_escape (h1 h2 h3 h4 : ascii) : option ascii :=
  match hex_val h1, hex_val h2, hex_val h3, hex_val h4 with
  | Some a, Some b, Some c, Some d =>
      let n := ((a * 16 + b) * 16 + c) * 16 + d in
      if (n <? 256)%nat then Some (ascii_of_nat n) else None
  | _, _, _, _ => None
  end.

Definition cons_char (c : ascii) (r : option (string * string))
  : option (string * string) :=
  match r with
  | Some (t, rest) => Some (String c t, rest)
  | None => None
  end.

(** The string scanner, entered after the opening quote (strict mode: raw
    control characters are refused). *)
Fixpoint scan_string (s : string) : option (string * string) :=
  match s with
  | "" => None
  | String c r =>
      if Ascii.eqb c QUOTE then Some ("", r)
      else if Ascii.eqb c BACKSLASH then
        match r with
        | String e r2 =>
            if Ascii.eqb e QUOTE then cons_char QUOTE (scan_string r2)
            else if Ascii.eqb e BACKSLASH then cons_char BACKSLASH (scan_string r2)
            else if Ascii.eqb e "/" then cons_char "/" (scan_string r2)
            else if Ascii.eqb e "b" then cons_char BS (scan_string r2)
            else if Ascii.eqb e "f" then cons_char FF (scan_string r2)
            else if Ascii.eqb e "n" then cons_char LF (scan_string r2)
            else if Ascii.eqb e "r" then cons_char CR (scan_string r2)
            else if Ascii.eqb e "t" then cons_char TAB (scan_string r2)
            else if Ascii.eqb e "u" then
              match r2 with
              | String h1 (String h2 (String h3 (String h4 r3))) =>
                  match unicode_escape h1 h2 h3 h4 with
                  | Some ch => cons_char ch (scan_string r3)
                  | None => None
                  end
              | _ => None
              end
            else None
        | "" => None
        end
      else if (code c <? 32)%nat then None
      else cons_char c (scan_string r)
  end.

(** The value scanner.  [fuel] bounds the nesting and the number of members
    visited; [json_loads] supplies more than the input can use. *)
Fixpoint parse_value (fuel : nat) (s : string) {struct fuel}
  : option (json * string) :=
  match fuel with
  | O => None
  | S fuel' =>
      match s with
      | "" => None
      | String c r =>
          if Ascii.eqb c QUOTE then
            match scan_string r with
            | Some (t, r') => Some (JStr t, r')
            | None => None
            end
          else if Ascii.eqb c "{" then
            match skip_ws r with
            | String c2 r2 =>
                if Ascii.eqb c2 "}" then Some (JDict [], r2)
                else if Ascii.eqb c2 QUOTE then
                  match parse_members fuel' r2 with
                  | Some (ps, r3) => Some (JDict (dict_of_pairs ps), r3)
                  | None => None
                  end
                else None
            | "" => None
            end
          else if Ascii.eqb c "[" then
            match skip_ws r with
            | String c2 r2 =>
                if Ascii.eqb c2 "]" then Some (JList [], r2)
                else
                  match parse_elems fuel' (String c2 r2) with
                  | Some (xs, r3) => Some (JList xs, r3)
                  | None => None
                  end
            | "" => None
            end
          else if prefix "null" s then Some (JNull, drop 4 s)
          else if prefix "true" s then Some (JBool true, drop 4 s)
          else if prefix "false" s then Some (JBool false, drop 5 s)
          else parse_number s
      end
  end

with parse_members (fuel : nat) (s : string) {struct fuel}
  : option (list (string * json) * string) :=
  match fuel with
  | O => None
  | S fuel' =>
      match scan_string s with
      | None => None
      | Some (k, r) =>
          match skip_ws r with
          | String c r1 =>
              if Ascii.eqb c ":" then
                match parse_value fuel' (skip_ws r1) with
                | None => None
                | Some (v, r2) =>
                    match skip_ws r2 with
                    | String c3 r3 =>
                        if Ascii.eqb c3 "}" then Some ([(k, v)], r3)
                        else if Ascii.eqb c3 "," then
                          match skip_ws r3 with
                          | String c4 r4 =>
                              if Ascii.eqb c4 QUOTE then
                                match parse_members fuel' r4 with
                                | Some (ps, r5) => Some ((k, v) :: ps, r5)
                                | None => None
                                end
                              else None
                          | "" => None
                          end
                        else None
                    | "" => None
                    end
                end
              else None
          | "" => None
          end
      end
  end

with parse_elems (fuel : nat) (s : string) {struct fuel}
  : option (list json * string) :=
  match fuel with
  | O => None
  | S fuel' =>
      match parse_value fuel' s with
      | None => None
      | Some (v, r) =>
          match skip_ws r with
          | String c r1 =>
              if Ascii.eqb c "]" then Some ([v], r1)
              else if Ascii.eqb c "," then
                match parse_elems fuel' (skip_ws r1) with
                | Some (xs, r2) => Some (v :: xs, r2)
                | None => None
                end
              else None
          | "" => None
          end
      end
  end.

(** [json.loads]: one value, surrounded by optional white space, and nothing
    else.  [None] stands for the [JSONDecodeError].  Not covered, and
    refused here although Python accepts them: the literals NaN and
    Infinity, numbers with an exponent, and escapes of code points from
    256 on; [json.dumps] writes none of them for the values this program
    builds.  [json_plain] below tells the documents on which this function
    and Python agree. *)
Definition json_loads (s : string) : option json :=
  match parse_value (S (String.length s)) (skip_ws s) with
  | Some (v, r) => if (skip_ws r =? "")%string then Some v else None
  | None => None
  end.

(** [operator.index]: what [f.seek] accepts as an offset ([bool] is an
    [int] in Python). *)
Definition as_index (v : json) : result Z :=
  match v with
  | JInt z => Ok z
  | JBool b => Ok (if b then 1 else 0)%Z
  | _ => Raise (TypeError "object cannot be interpreted as an integer")
  end.

(** [v.get]: only a dict has the method. *)
Definition as_dict (v : json) : result (dict json) :=
  match v with
  | JDict d => Ok d
  | _ => Raise (AttributeError "object has no attribute 'get'")
  end.

(** [str(e)] *)
Definition exn_str (e : exn) : string :=
  match e with
  | KeyError k => repr_str k
  | TypeError m | ValueError m | AttributeError m | OSError m
  | TimeoutError m | SMTPException m | PsutilError m => m
  | LibraryError _ m => m
  | KeyboardInterrupt => ""
  end.

(** ** The world: files, operational log, mail transport *)

Inductive log_level : Type := INFO | WARNING | ERROR.

Record log_record : Type := mklog {
  level : log_level;
  message : string
}.

Record email : Type := mkemail {
  msg_from : string;
  msg_to : string;
  msg_subject : string;
  msg_body : string
}.

(** A message accepted by the SMTP server, with the connection it went
    through. *)
Record delivery : Type := mkdelivery {
  via_server : string;
  via_port : Z;
  via_tls : bool;
  via_login : option (string * string);
  mail : email
}.

Record world : Type := mkworld {
  files : dict string;          (* path -> content *)
  oplog : list log_record;      (* monitor.log, oldest first *)
  outbox : list delivery        (* what the transport accepted *)
}.

(** What the environment answers during one cycle: the readings of
    [psutil], the clock, the behaviour of the SMTP server at each step of a
    session ([None]: the step succeeds), the file system and the [email]
    package. *)
Record snapshot : Type := mksnapshot {
  cpu_percent : pyfloat;
  mem_percent : pyfloat;
  disk_percent : pyfloat;
  net_bytes_sent : Z;
  net_bytes_recv : Z
}.

Record smtp_net : Type := mknet {
  net_connect : option exn;
  net_starttls : option exn;
  net_login : option exn;
  net_send : option exn;
  net_quit : option exn
}.

(** [env_max_offset] is the largest file position that the file system of
    the log file accepts in [lseek] (about 2^44 on ext4, 2^63 - 1 on XFS or
    tmpfs).  [env_header name value] is what the [email] package does on
    [msg[name] = value] with a value of one line: the exception that its
    header parser raises, or the text that [msg[name]] gives back
    afterwards. *)
Record cycle_env : Type := mkenv {
  env_psutil : result snapshot;
  env_ctime : string;
  env_net : smtp_net;
  env_max_offset : N;
  env_header : string -> string -> result string
}.

(** Computations with effects on the world that may raise. *)
Definition M (A : Type) : Type := world -> world * result A.

Definition ret {A} (a : A) : M A := fun w => (w, Ok a).

Definition raise {A} (e : exn) : M A := fun w => (w, Raise e).

Definition bind {A B} (c : M A) (k : A -> M B) : M B :=
  fun w =>
    match c w with
    | (w', Ok a) => k a w'
    | (w', Raise e) => (w', Raise e)
    end.

Notation "x <- c ;; k" := (bind c (fun x => k))
  (at level 61, c at next level, right associativity).
Notation "' p <- c ;; k" := (bind c (fun x => let 'p := x in k))
  (at level 61, p pattern, c at next level, right associativity).
Notation "c ;;; k" := (bind c (fun _ => k))
  (at level 61, right associativity).

Definition lift {A} (r : result A) : M A := fun w => (w, r).

(** [d[key]] on a configuration record: a missing entry is a [KeyError]. *)
Definition require {A} (field : option A) (key : string) : result A :=
  match field with
  | Some a => Ok a
  | None => Raise (KeyError key)
  end.

(** [d.get(key, default)] on a configuration record *)
Definition get_or {A} (field : option A) (default : A) : A :=
  match field with
  | Some a => a
  | None => default
  end.

(** [try: body except Exception as e: handler(e)] *)
Definition try_except {A} (body : M A) (handler : exn -> M A) : M A :=
  fun w =>
    match body w with
    | (w', Raise e) => if is_Exception e then handler e w' else (w', Raise e)
    | r => r
    end.

(** [LOGFILE], the operational log beside the script. *)
Definition LOGFILE : string := "monitor.log".

(** [logging.info], [logging.warning], [logging.exception], with the
    handler that [setup_logging] installs: the record goes to [LOGFILE].
    The embedding keeps the records of that file in [oplog] and not in
    [files]: it is exact as long as [LOGFILE] is neither the state file nor
    the log file that the monitor tails. *)
Definition logging (lvl : log_level) (msg : string) : M unit :=
  fun w => (mkworld (files w) (py_append (oplog w) (mklog lvl msg)) (outbox w), Ok tt).

Definition get_files : M (dict string) := fun w => (w, Ok (files w)).

Definition put_files (fs : dict string) : M unit :=
  fun w => (mkworld fs (oplog w) (outbox w), Ok tt).

(** One step of an SMTP session, answered by the server. *)
Definition smtp_step (answer : option exn) : M unit :=
  match answer with
  | None => ret tt
  | Some e => raise e
  end.

Definition smtp_deliver (d : delivery) : M unit :=
  fun w => (mkworld (files w) (oplog w) (py_append (outbox w) d), Ok tt).

(** ** Configuration *)

Inductive recipients : Type :=
| ToList (l : list string)
| ToStr (s : string).

Record smtp_config : Type := mksmtp {
  smtp_from : option string;
  smtp_to : option recipients;
  smtp_use_tls : option bool;
  smtp_server : option string;
  smtp_port : option Z;
  smtp_username : option string;
  smtp_password : option string
}.

Record config : Type := mkconfig {
  cfg_state_file : option string;
  cfg_thresholds : option (dict pynum);
  cfg_log_file : option string;
  cfg_log_patterns : option (list string);
  cfg_alert_subject : option string;
  cfg_smtp : option smtp_config
}.

(** ** The functions of [monitor.py] *)

Definition metrics_snapshot (env : cycle_env) : M snapshot :=
  lift (env_psutil env).

Definition check_thresholds (snap : snapshot) (thresholds : dict pynum)
  : list string :=
  let alerts := [] in
  let alerts :=
    if num_ge (PFloat (cpu_percent snap)) (dict_get thresholds "cpu_percent" (PInt 90))
    then py_append alerts ("CPU usage high: " ++ float_repr (cpu_percent snap) ++ "%")
    else alerts in
  let alerts :=
    if num_ge (PFloat (mem_percent snap)) (dict_get thresholds "mem_percent" (PInt 90))
    then py_append alerts ("Memory usage high: " ++ float_repr (mem_percent snap) ++ "%")
    else alerts in
  let alerts :=
    if num_ge (PFloat (disk_percent snap)) (dict_get thresholds "disk_percent" (PInt 90))
    then py_append alerts ("Disk usage high: " ++ float_repr (disk_percent snap) ++ "%")
    else alerts in
  alerts.

(** The largest value of the C type [off_t], 2^63 - 1. *)
Definition off_t_max : Z := 9223372036854775807%Z.

(** The largest offset that [f.seek] accepts on a file system whose limit
    is [lim]. *)
Definition max_offset (lim : N) : Z := Z.min (Z.of_N lim) off_t_max.

(** The [with open(file_path, "rb")] block of [tail_log]: [f.seek(last_pos)],
    [f.read(max_bytes)], [f.tell()].  An offset that does not fit [off_t]
    is refused by Python with a [ValueError]; a negative offset and an
    offset beyond the limit [lim] of the file system are refused by the
    operating system.  Seeking past the end of the file is allowed and
    reads nothing; [read(-1)] reads to the end of the file.  (A read size
    for which no memory can be had is not modelled.) *)
Definition read_from (lim : N) (content : string) (last_pos : json)
           (max_bytes : Z) : result (string * Z) :=
  match as_index last_pos with
  | Raise e => Raise e
  | Ok pos =>
      if (pos <? - off_t_max - 1)%Z || (off_t_max <? pos)%Z
      then Raise (ValueError "cannot fit 'int' into an offset-sized integer")
      else if (pos <? 0)%Z || (max_offset lim <? pos)%Z
      then Raise (OSError "[Errno 22] Invalid argument")
      else if (max_bytes <? -1)%Z
      then Raise (ValueError "read length must be non-negative or -1")
      else
        let rest := drop (Z.to_nat pos) content in
        let data := if (max_bytes =? -1)%Z then rest
                    else take (Z.to_nat max_bytes) rest in
        Ok (data, (pos + Z.of_nat (String.length data))%Z)
  end.

(** [decode] cannot fail, so the [except] branch of the source (text = "")
    is never taken. *)
Definition tail_log (lim : N) (fs : dict string) (file_path : string)
           (last_pos : json) (max_bytes : Z) : result (list string * Z) :=
  match dict_lookup fs file_path with
  | None => Ok ([], 0%Z)
  | Some content =>
      match read_from lim content last_pos max_bytes with
      | Raise e => Raise e
      | Ok (data, new_pos) =>
          let text := decode data in
          let lines := splitlines text in
          Ok (lines, new_pos)
      end
  end.

(** The inner loop of [scan_for_patterns]: the first pattern found in the
    line appends the line to [hits] and leaves the loop. *)
Fixpoint scan_line (ln : string) (patterns : list string) (hits : list string)
  : list string :=
  match patterns with
  | [] => hits
  | p :: ps =>
      if str_in (lower p) (lower ln) then py_append hits ln
      else scan_line ln ps hits
  end.

Definition scan_for_patterns (lines patterns : list string) : list string :=
  fold_left (fun hits ln => scan_line ln patterns hits) lines [].

Definition truthy (s : option string) : bool :=
  match s with
  | Some s => negb (s =? "")%string
  | None => false
  end.

(** [msg[name] = value] on an [EmailMessage], followed by [msg[name]]: the
    policy of the [email] package refuses a value of more than one line
    with a [ValueError] and hands the others to its header parser, which is
    not embedded: [header] stands for it. *)
Definition set_header (header : string -> string -> result string)
           (name value : string) : result string :=
  if (1 <? List.length (splitlines value))%nat
  then Raise (ValueError
         "Header values may not contain linefeed or carriage return characters")
  else header name value.

(** The message is recorded with the values that the function assigns to
    it; the three headers are set before the [try], in the order of the
    source, so that what the [email] package raises on them leaves
    [send_email]. *)
Definition send_email (header : string -> string -> result string)
           (net : smtp_net) (smtp_cfg : smtp_config)
           (subject body : string) : M unit :=
  from <- lift (require (smtp_from smtp_cfg) "from") ;;
  lift (set_header header "From" from) ;;;
  to <- lift (require (smtp_to smtp_cfg) "to") ;;
  let to := match to with ToList l => join "," l | ToStr s => s end in
  shown_to <- lift (set_header header "To" to) ;;
  lift (set_header header "Subject" subject) ;;;
  let msg := mkemail from to subject body in
  try_except
    (let tls := get_or (smtp_use_tls smtp_cfg) true in
     server <- lift (require (smtp_server smtp_cfg) "server") ;;
     let port := get_or (smtp_port smtp_cfg) (if tls then 587 else 25)%Z in
     smtp_step (net_connect net) ;;;
     (if tls then smtp_step (net_starttls net) else ret tt) ;;;
     (if truthy (smtp_username smtp_cfg)
      then smtp_step (net_login net) else ret tt) ;;;
     smtp_step (net_send net) ;;;
     smtp_deliver
       (mkdelivery server port tls
          (if truthy (smtp_username smtp_cfg)
           then Some (get_or (smtp_username smtp_cfg) "",
                      get_or (smtp_password smtp_cfg) "")
           else None)
          msg) ;;;
     smtp_step (net_quit net) ;;;
     logging INFO ("Alert email sent to " ++ shown_to))
    (fun e => logging ERROR ("Failed to send alert email: " ++ exn_str e)).

Definition humanize_snapshot (snap : snapshot) : string :=
  "CPU: " ++ float_repr (cpu_percent snap) ++
  "% | MEM: " ++ float_repr (mem_percent snap) ++
  "% | DISK: " ++ float_repr (disk_percent snap) ++
  "% | NET_SENT: " ++ int_str (net_bytes_sent snap) ++
  " | NET_RECV: " ++ int_str (net_bytes_recv snap).

Definition load_last_state (fs : dict string) (state_file : string) : json :=
  match dict_lookup fs state_file with
  | Some content =>
      match json_loads content with
      | Some v => v
      | None => JDict []
      end
  | None => JDict []
  end.

Definition save_last_state (fs : dict string) (state_file : string)
           (state : json) : dict string :=
  dict_set fs state_file (json_dumps state).

(** The file system left behind when the process dies inside
    [save_last_state] after [n] bytes of the dump have reached the file:
    [open(state_file, "w")] has truncated the file and the bytes written so
    far are in it. *)
Definition save_last_state_interrupted (fs : dict string) (state_file : string)
           (state : json) (n : nat) : dict string :=
  dict_set fs state_file (take n (json_dumps state)).

(** The snapshot as the dict that [metrics_snapshot] builds. *)
Definition snapshot_json (snap : snapshot) : json :=
  JDict [("cpu_percent", JFloat (cpu_percent snap));
         ("mem_percent", JFloat (mem_percent snap));
         ("disk_percent", JFloat (disk_percent snap));
         ("net_bytes_sent", JInt (net_bytes_sent snap));
         ("net_bytes_recv", JInt (net_bytes_recv snap))].

(** The default state file lies beside the script. *)
Definition default_state_file : string := "monitor_state.json".

Definition default_patterns : list string :=
  ["error"; "fail"; "critical"; "unauthorized"].

Definition nonempty {A} (l : list A) : bool :=
  match l with [] => false | _ => true end.

Definition run_once (cfg : config) (env : cycle_env) : M unit :=
  let state_file := get_or (cfg_state_file cfg) default_state_file in
  fs <- get_files ;;
  let last_state := load_last_state fs state_file in
  snap <- metrics_snapshot env ;;
  logging INFO ("Snapshot: " ++ humanize_snapshot snap) ;;;
  let alerts := check_thresholds snap (get_or (cfg_thresholds cfg) []) in
  (* log parsing *)
  let log_path := get_or (cfg_log_file cfg) "/var/log/syslog" in
  last_state <- lift (as_dict last_state) ;;
  let last_pos := dict_get last_state "log_pos" (JInt 0) in
  fs <- get_files ;;
  '(lines, new_pos) <- lift (tail_log (env_max_offset env) fs log_path
                               last_pos 200000) ;;
  logging INFO ("Read " ++ int_str (Z.of_nat (List.length lines)) ++
                " new log lines from " ++ log_path) ;;;
  let patterns := get_or (cfg_log_patterns cfg) default_patterns in
  let hits := scan_for_patterns lines patterns in
  let alerts :=
    if nonempty hits
    then py_append alerts
           ("Found " ++ int_str (Z.of_nat (List.length hits)) ++
            " matching log lines (examples: " ++
            repr_list (firstn 3 hits) ++ ")")
    else alerts in
  (* If any alerts, send email + write detailed log *)
  (if nonempty alerts then
     let subject := get_or (cfg_alert_subject cfg) "ALERT: Linux Monitor" in
     let body_lines :=
       ["Timestamp: " ++ env_ctime env;
        humanize_snapshot snap;
        "Alerts:";
        join (str1 LF) alerts;
        "";
        "Recent matching log lines:";
        join (str1 LF) (firstn 50 hits)] in
     let body := join (str1 LF) body_lines in
     smtp <- lift (require (cfg_smtp cfg) "smtp") ;;
     send_email (env_header env) (env_net env) smtp subject body ;;;
     logging WARNING ("Alerts triggered: " ++ repr_list alerts)
   else
     logging INFO "No thresholds breached and no log hits.") ;;;
  (* save state *)
  let last_state := dict_set last_state "log_pos" (JInt new_pos) in
  let last_state := dict_set last_state "last_snapshot" (snapshot_json snap) in
  fs <- get_files ;;
  put_files (save_last_state fs state_file (JDict last_state)).

(** *** The scheduler *)

Record args : Type := mkargs {
  arg_config : string;
  arg_once : bool;
  arg_interval : Z
}.

(** One turn of the interval loop as the environment sees it: what it
    answers during the cycle, and whether Ctrl-C arrives during the
    [time.sleep] that follows. *)
Record tick : Type := mktick {
  tick_env : cycle_env;
  tick_interrupt : bool
}.

Inductive loop_state : Type :=
| Looping                      (* still inside [while True] *)
| Stopped (e : exn).           (* an exception left the loop *)

(** [while True: run_once(cfg); time.sleep(interval)], observed for [fuel]
    turns starting at turn [n] of the schedule. *)
Fixpoint run_loop (cfg : config) (sched : nat -> tick) (n fuel : nat)
         (w : world) : world * loop_state :=
  match fuel with
  | O => (w, Looping)
  | S fuel' =>
      match run_once cfg (tick_env (sched n)) w with
      | (w', Raise e) => (w', Stopped e)
      | (w', Ok _) =>
          if tick_interrupt (sched n) then (w', Stopped KeyboardInterrupt)
          else run_loop cfg sched (S n) fuel' w'
      end
  end.

Inductive outcome : Type :=
| Exited                       (* [main] returned *)
| Crashed (e : exn)            (* an uncaught exception ended the process *)
| Running.                     (* the loop outlives the observation *)

(** [main], after the command line has been parsed into [a].  [cfg_read]
    is what [read_config] gives. *)
Definition main (a : args) (cfg_read : result config) (sched : nat -> tick)
           (fuel : nat) (w : world) : world * outcome :=
  match cfg_read with
  | Raise e => (w, Crashed e)
  | Ok cfg =>
      let (w, _) := logging INFO ("Starting monitor with config " ++ arg_config a) w in
      if arg_once a || (arg_interval a <=? 0)%Z then
        match run_once cfg (tick_env (sched 0)) w with
        | (w', Raise e) => (w', Crashed e)
        | (w', Ok _) => (w', Exited)
        end
      else
        match run_loop cfg sched 0 fuel w with
        | (w', Stopped KeyboardInterrupt) =>
            let (w'', _) := logging INFO "Interrupted by user. Exiting." w' in
            (w'', Exited)
        | (w', Stopped e) => (w', Crashed e)
        | (w', Looping) => (w', Running)
        end
  end.

(** ** Notions used in the statements and in the proofs *)

(** *** The inputs on which the embedding is exact *)
(** Every character of [s] has some property. *)
Fixpoint all_chars (p : ascii -> bool) (s : string) : bool :=
  match s with
  | "" => true
  | String c s' => p c && all_chars p s'
  end.

(** The text is 7-bit ASCII: on such text [lower], [splitlines], [decode]
    and [repr_str] are the functions of Python. *)
Definition is_ascii (s : string) : bool :=
  all_chars (fun c => (code c <? 128)%nat) s.

Fixpoint last_is_zero (s : string) : bool :=
  match s with
  | "" => false
  | String c "" => Ascii.eqb c "0"
  | String _ s' => last_is_zero s'
  end.

(** The literal is the one that [float.__repr__] prints for the float that
    [float] makes of it, so that reading and printing give it back: at most
    15 digits, no zero at the end of the fraction unless the fraction is
    the single digit 0, and not below 0.0001, where Python prints an
    exponent. *)
Definition float_plain (f : pyfloat) : bool :=
  let ip := digits_of_N (f_int f) in
  let fr := NilEmpty.string_of_uint (frac_digits f) in
  (String.length ip + String.length fr <=? 15)%nat &&
  ((fr =? "0")%string || negb (last_is_zero fr)) &&
  negb ((f_int f =? 0)%N && prefix "0000" fr).

(** The numbers of [v] are read and printed by Python as by the codec: the
    floats are plain and the integers have at most 4300 digits, the most
    that [int] converts. *)
Fixpoint plain_numbers (v : json) : bool :=
  match v with
  | JInt z => (Z.abs z <? 10 ^ 4300)%Z
  | JFloat f => float_plain f
  | JList l =>
      (fix all (l : list json) : bool :=
         match l with
         | [] => true
         | x :: r => plain_numbers x && all r
         end) l
  | JDict d =>
      (fix all (d : list (string * json)) : bool :=
         match d with
         | [] => true
         | (_, x) :: r => plain_numbers x && all r
         end) d
  | _ => true
  end.

(** The nesting of lists and dicts in [v]. *)
Fixpoint json_depth (v : json) : nat :=
  match v with
  | JList l =>
      S ((fix deepest (l : list json) : nat :=
            match l with
            | [] => O
            | x :: r => Nat.max (json_depth x) (deepest r)
            end) l)
  | JDict d =>
      S ((fix deepest (d : list (string * json)) : nat :=
            match d with
            | [] => O
            | (_, x) :: r => Nat.max (json_depth x) (deepest r)
            end) d)
  | _ => O
  end.

(** A value that Python reads and writes as the codec does: plain numbers,
    and a nesting far below the recursion limit of the interpreter. *)
Definition json_modest (v : json) : bool :=
  plain_numbers v && (json_depth v <=? 100)%nat.

(** A digit followed by [e] or [E]: the text may hold a number with an
    exponent. *)
Fixpoint has_exponent (s : string) : bool :=
  match s with
  | String c (String e _ as r) =>
      (is_digit c && (Ascii.eqb e "e" || Ascii.eqb e "E")) || has_exponent r
  | _ => false
  end.

(** A [\u] that is not followed by [00]: the text may hold the escape of a
    code point from 256 on. *)
Fixpoint has_wide_escape (s : string) : bool :=
  match s with
  | String c r =>
      (Ascii.eqb c BACKSLASH &&
       match r with
       | String "u" (String h1 (String h2 _)) =>
           negb (Ascii.eqb h1 "0" && Ascii.eqb h2 "0")
       | _ => false
       end) || has_wide_escape r
  | "" => false
  end.

(** The text may hold one of the constructs that [json.loads] accepts and
    [json_loads] refuses. *)
Definition beyond_codec (s : string) : bool :=
  str_in "NaN" s || str_in "Infinity" s || has_exponent s || has_wide_escape s.

(** The content of a file on which [json_loads] is [json.loads]: ASCII
    text, which either the codec reads as a modest value, or which the
    codec refuses and which holds none of the constructs that only Python
    accepts. *)
Definition json_plain (content : string) : bool :=
  is_ascii content &&
  match json_loads content with
  | Some v => json_modest v
  | None => negb (beyond_codec content)
  end.

(** *** Matching without regard to case *)
(** A line is a match when some pattern occurs in it, both lowered. *)
Definition matches (patterns : list string) (ln : string) : bool :=
  existsb (fun p => str_in (lower p) (lower ln)) patterns.





(** The limit of a metric: the configured one, or 90. *)
Definition limit (thresholds : dict pynum) (metric : string) : pynum :=
  dict_get thresholds metric (PInt 90).

(** The value of the metric is at or above its limit. *)
Definition breach (thresholds : dict pynum) (metric : string) (v : pyfloat) : Prop :=
  (num_value (limit thresholds metric) <= float_value v)%Q.

(** The message for a metric called [name] in the alerts. *)
Definition breach_message (name : string) (v : pyfloat) : string :=
  name ++ " usage high: " ++ float_repr v ++ "%".

(** The largest file position of an ext4 file system with blocks of 4 KiB. *)
Definition ext4_limit : N := 17592186040320%N.

(** The chunk [d1] ends on a line terminator (and no CR LF pair is cut in
    two between [d1] and [d2]), or is empty. *)
Definition line_aligned (d1 d2 : string) : Prop :=
  d1 = "" \/
  exists d c, d1 = d ++ str1 c /\ is_linebreak c = true /\
              ~ (c = CR /\ exists r, d2 = String LF r).

(** What [split_from] does with the text after the terminator [c]. *)
Definition after_break (c : ascii) (s : string) : list string :=
  match s with
  | String c' s'' =>
      if Ascii.eqb c CR && Ascii.eqb c' LF
      then split_from "" s'' else split_from "" s
  | "" => []
  end.

(** No key occurs twice. *)
Fixpoint unique_keys (ks : list string) : bool :=
  match ks with
  | [] => true
  | k :: ks' => negb (existsb (String.eqb k) ks') && unique_keys ks'
  end.

(** A JSON value is well formed when its dicts, at every depth, have unique
    keys, as Python dicts do. *)
Fixpoint json_wf (v : json) : bool :=
  match v with
  | JList l => forallb json_wf l
  | JDict d => unique_keys (map fst d) && forallb (fun kv => json_wf (snd kv)) d
  | _ => true
  end.

(** The fuel that scanning the dump of [v] needs at most. *)
Fixpoint json_size (v : json) : nat :=
  match v with
  | JList l => S (fold_right (fun x n => S (json_size x + n)) 0%nat l)
  | JDict d => S (fold_right (fun kv n => S (json_size (snd kv) + n)) 0%nat d)
  | _ => 1
  end.

(** What may follow a value in a document. *)
Definition ends_value (rest : string) : bool :=
  match rest with
  | "" => true
  | String c _ => Ascii.eqb c "," || Ascii.eqb c "]" || Ascii.eqb c "}"
  end.

Definition starts_with_digit (s : string) : bool :=
  match s with
  | String c _ => is_digit c
  | "" => false
  end.

Definition ends_number (rest : string) : bool :=
  match rest with
  | "" => true
  | String c _ => negb (is_digit c) && negb (Ascii.eqb c ".")
  end.

Fixpoint dumps_items (l : list json) : string :=
  match l with
  | [] => ""
  | y :: r => ", " ++ json_dumps y ++ dumps_items r
  end.

Fixpoint dumps_members (d : list (string * json)) : string :=
  match d with
  | [] => ""
  | (k, y) :: r => ", " ++ json_string k ++ ": " ++ json_dumps y ++ dumps_members r
  end.

(** The characters a dumped value can start with. *)
Definition value_start (c : ascii) : bool :=
  Ascii.eqb c QUOTE || Ascii.eqb c "{" || Ascii.eqb c "[" || Ascii.eqb c "n" ||
  Ascii.eqb c "t" || Ascii.eqb c "f" || Ascii.eqb c "-" || is_digit c.

(** The scanner reads a dumped value back, whatever follows it. *)
Definition parses_back (v : json) : Prop :=
  forall fuel rest,
    (json_size v <= fuel)%nat -> ends_value rest = true ->
    parse_value fuel (json_dumps v ++ rest) = Some (v, rest).

Definition items_size (l : list json) : nat :=
  fold_right (fun x n => S (json_size x + n)) 0%nat l.

Definition members_size (d : list (string * json)) : nat :=
  fold_right (fun kv n => S (json_size (snd kv) + n)) 0%nat d.

(** A RunState as the spec has it: the offset and the last sample, which
    is null before the first cycle. *)
Definition run_state (off : Z) (sample : option snapshot) : json :=
  JDict [("log_pos", JInt off);
         ("last_snapshot", match sample with
                           | Some snap => snapshot_json snap
                           | None => JNull
                           end)].

Definition valid_RunState (st : json) : Prop :=
  exists off sample, (0 <= off)%Z /\ st = run_state off sample.

(** The three phases of [run_once]. *)
Definition state_file_of (cfg : config) : string :=
  get_or (cfg_state_file cfg) default_state_file.

Definition log_file_of (cfg : config) : string :=
  get_or (cfg_log_file cfg) "/var/log/syslog".

(** The inputs of a cycle on which the embedding is exact: the state file,
    if there is one, is plain JSON; the log file, if there is one, and the
    patterns are ASCII text; and the operational log is neither of the two
    files. *)
Definition plain_inputs (cfg : config) (w : world) : bool :=
  match dict_lookup (files w) (state_file_of cfg) with
  | Some content => json_plain content
  | None => true
  end &&
  match dict_lookup (files w) (log_file_of cfg) with
  | Some content => is_ascii content
  | None => true
  end &&
  forallb is_ascii (get_or (cfg_log_patterns cfg) default_patterns) &&
  negb (state_file_of cfg =? LOGFILE)%string &&
  negb (log_file_of cfg =? LOGFILE)%string.

Definition cycle_alerts (cfg : config) (snap : snapshot) (hits : list string)
  : list string :=
  let alerts := check_thresholds snap (get_or (cfg_thresholds cfg) []) in
  if nonempty hits
  then py_append alerts
         ("Found " ++ int_str (Z.of_nat (List.length hits)) ++
          " matching log lines (examples: " ++
          repr_list (firstn 3 hits) ++ ")")
  else alerts.

Definition observe (cfg : config) (env : cycle_env)
  : M (snapshot * dict json * Z * list string) :=
  fs <- get_files ;;
  snap <- metrics_snapshot env ;;
  logging INFO ("Snapshot: " ++ humanize_snapshot snap) ;;;
  last_state <- lift (as_dict (load_last_state fs (state_file_of cfg))) ;;
  '(lines, new_pos) <- lift (tail_log (env_max_offset env) fs (log_file_of cfg)
                               (dict_get last_state "log_pos" (JInt 0)) 200000) ;;
  logging INFO ("Read " ++ int_str (Z.of_nat (List.length lines)) ++
                " new log lines from " ++ log_file_of cfg) ;;;
  ret (snap, last_state, new_pos,
       scan_for_patterns lines (get_or (cfg_log_patterns cfg) default_patterns)).

Definition dispatch (cfg : config) (env : cycle_env) (snap : snapshot)
           (hits : list string) : M unit :=
  let alerts := cycle_alerts cfg snap hits in
  if nonempty alerts then
    let subject := get_or (cfg_alert_subject cfg) "ALERT: Linux Monitor" in
    let body :=
      join (str1 LF)
        ["Timestamp: " ++ env_ctime env;
         humanize_snapshot snap;
         "Alerts:";
         join (str1 LF) alerts;
         "";
         "Recent matching log lines:";
         join (str1 LF) (firstn 50 hits)] in
    smtp <- lift (require (cfg_smtp cfg) "smtp") ;;
    send_email (env_header env) (env_net env) smtp subject body ;;;
    logging WARNING ("Alerts triggered: " ++ repr_list alerts)
  else
    logging INFO "No thresholds breached and no log hits.".

Definition new_state (d : dict json) (new_pos : Z) (snap : snapshot) : dict json :=
  dict_set (dict_set d "log_pos" (JInt new_pos)) "last_snapshot" (snapshot_json snap).

Definition persist (cfg : config) (d : dict json) (new_pos : Z) (snap : snapshot)
  : M unit :=
  fs <- get_files ;;
  put_files (save_last_state fs (state_file_of cfg) (JDict (new_state d new_pos snap))).

(** A computation that leaves the files alone. *)
Definition keeps_files {A} (c : M A) : Prop :=
  forall w, files (fst (c w)) = files w.

(** The offset a cycle starts from when it finds [fs] at its start: what
    [f.seek] receives, if it is an integer. *)
Definition loaded_offset (fs : dict string) (state_file : string) : option Z :=
  match load_last_state fs state_file with
  | JDict d =>
      match as_index (dict_get d "log_pos" (JInt 0)) with
      | Ok z => Some z
      | Raise _ => None
      end
  | _ => None
  end.

(** The first failure the server answers during the session that
    [send_email] runs with configuration [smtp]. *)
Definition session_failure (smtp : smtp_config) (net : smtp_net) : option exn :=
  match net_connect net with
  | Some e => Some e
  | None =>
      match (if get_or (smtp_use_tls smtp) true then net_starttls net else None) with
      | Some e => Some e
      | None =>
          match (if truthy (smtp_username smtp) then net_login net else None) with
          | Some e => Some e
          | None =>
              match net_send net with
              | Some e => Some e
              | None => net_quit net
              end
          end
      end
  end.

(** The [To] header that [send_email] derives from the configuration. *)
Definition to_header (to : recipients) : string :=
  match to with ToList l => join "," l | ToStr s => s end.

(** The [try] statement of [send_email], for the message [msg] whose [To]
    header reads back as [shown_to]. *)
Definition mail_session (net : smtp_net) (smtp_cfg : smtp_config)
           (msg : email) (shown_to : string) : M unit :=
  try_except
    (let tls := get_or (smtp_use_tls smtp_cfg) true in
     server <- lift (require (smtp_server smtp_cfg) "server") ;;
     let port := get_or (smtp_port smtp_cfg) (if tls then 587 else 25)%Z in
     smtp_step (net_connect net) ;;;
     (if tls then smtp_step (net_starttls net) else ret tt) ;;;
     (if truthy (smtp_username smtp_cfg)
      then smtp_step (net_login net) else ret tt) ;;;
     smtp_step (net_send net) ;;;
     smtp_deliver
       (mkdelivery server port tls
          (if truthy (smtp_username smtp_cfg)
           then Some (get_or (smtp_username smtp_cfg) "",
                      get_or (smtp_password smtp_cfg) "")
           else None)
          msg) ;;;
     smtp_step (net_quit net) ;;;
     logging INFO ("Alert email sent to " ++ shown_to))
    (fun e => logging ERROR ("Failed to send alert email: " ++ exn_str e)).

(** What [send_email] raises before its [try] statement, if anything: the
    [KeyError] of a missing entry, or what the [email] package raises on
    one of the three headers, in the order of the source. *)
Definition header_error (header : string -> string -> result string)
           (smtp_cfg : smtp_config) (subject : string) : option exn :=
  match smtp_from smtp_cfg with
  | None => Some (KeyError "from")
  | Some from =>
      match set_header header "From" from with
      | Raise e => Some e
      | Ok _ =>
          match smtp_to smtp_cfg with
          | None => Some (KeyError "to")
          | Some to =>
              match set_header header "To" (to_header to) with
              | Raise e => Some e
              | Ok _ =>
                  match set_header header "Subject" subject with
                  | Raise e => Some e
                  | Ok _ => None
                  end
              end
          end
      end
  end.

(** The text that [msg["To"]] gives back once the header is set. *)
Definition shown_to (header : string -> string -> result string)
           (smtp_cfg : smtp_config) : string :=
  match smtp_to smtp_cfg with
  | Some to =>
      match set_header header "To" (to_header to) with
      | Ok t => t
      | Raise _ => ""
      end
  | None => ""
  end.

(** The same cycle environment with another behaviour of the SMTP server. *)
Definition with_net (env : cycle_env) (net : smtp_net) : cycle_env :=
  mkenv (env_psutil env) (env_ctime env) net (env_max_offset env) (env_header env).

(** *** A small installation, for the examples *)
Definition ex_snapshot : snapshot :=
  mksnapshot (mkfloat false 95 dig0 Nil) (mkfloat false 10 dig5 Nil)
             (mkfloat false 42 dig0 Nil) 1234 99.

Definition net_up : smtp_net := mknet None None None None None.

Definition net_down : smtp_net :=
  mknet (Some (OSError "[Errno 111] Connection refused")) None None None None.

(** An [email] package that accepts every header of one line and gives it
    back as it is. *)
Definition header_plain (name value : string) : result string := Ok value.

Definition ex_env : cycle_env :=
  mkenv (Ok ex_snapshot) "Tue Nov  3 19:42:00 2026" net_up ext4_limit header_plain.

Definition ex_smtp : smtp_config :=
  mksmtp (Some "monitor@example.org") (Some (ToList ["ops@example.org"]))
         None (Some "mail.example.org") None None None.

Definition ex_cfg : config :=
  mkconfig (Some "state.json") (Some [("cpu_percent", PInt 90)])
           (Some "sys.log") (Some ["error"]) None (Some ex_smtp).

Definition ex_log : string :=
  "ok" ++ str1 LF ++ "ERROR disk failure" ++ str1 LF ++ "ok" ++ str1 LF.

Definition ex_world : world := mkworld [("sys.log", ex_log)] [] [].

(** The state file of an earlier cycle is there, the log file is not. *)
Definition ex_world_rotated : world :=
  mkworld [("state.json", json_dumps (run_state 5 None))] [] [].

(** The state file carries an entry that the monitor does not know. *)
Definition ex_world_extra : world :=
  mkworld [("state.json",
            json_dumps (JDict [("log_pos", JInt 3); ("host", JStr "web-1")]));
           ("sys.log", ex_log)] [] [].

Definition ex_args : args := mkargs "config.json" false 60.

Definition ex_env_unreadable : cycle_env :=
  mkenv (Raise (PsutilError "cannot read /proc/stat")) "Tue Nov  3 19:43:00 2026"
        net_up ext4_limit header_plain.

(** The metrics source is unreadable at turn [bad] only. *)
Definition ex_schedule (bad : nat) (i : nat) : tick :=
  if (i =? bad)%nat then mktick ex_env_unreadable false else mktick ex_env false.

(** The world in which the loop of [main] starts. *)
Definition started (a : args) (w : world) : world :=
  fst (logging INFO ("Starting monitor with config " ++ arg_config a) w).

Fixpoint all_digits (s : string) : bool :=
  match s with
  | "" => true
  | String c s' => is_digit c && all_digits s'
  end.

(** What the number scanner may leave unread when its input stops in the
    middle of a literal: nothing, or text that starts with the dot. *)
Definition cut_rest (rest : string) : bool :=
  match rest with
  | "" => true
  | String c _ => Ascii.eqb c "."
  end.

(** The scanner on a document that stops short: it fails, or it has read a
    number and stands at the end of the input or before a dot. *)
Definition stuck (r : option (json * string)) : Prop :=
  r = None \/ exists v rest, r = Some (v, rest) /\ cut_rest rest = true.

Definition is_number (v : json) : bool :=
  match v with
  | JInt _ | JFloat _ => true
  | _ => false
  end.

(** The scanner on a proper prefix of a dumped value. *)
Definition cut_ok (v : json) : Prop :=
  forall p q fuel,
    json_dumps v = p ++ q -> q <> "" ->
    if is_number v then stuck (parse_value fuel p)
    else parse_value fuel p = None.

(** A state file left by an earlier cycle. *)
Definition ex_files_old : dict string :=
  [("state.json", json_dumps (run_state 4 None))].

(** The world after [entries] have been written to the operational log. *)
Definition logged (w : world) (entries : list log_record) : world :=
  mkworld (files w) (oplog w ++ entries)%list (outbox w).

(** The two entries that every cycle writes once the metrics and the log
    file have been read. *)
Definition snapshot_entry (snap : snapshot) : log_record :=
  mklog INFO ("Snapshot: " ++ humanize_snapshot snap).

Definition read_entry (cfg : config) (lines : list string) : log_record :=
  mklog INFO ("Read " ++ int_str (Z.of_nat (List.length lines)) ++
              " new log lines from " ++ log_file_of cfg).

(** The lines of the log that the patterns of [cfg] select. *)
Definition hits_of (cfg : config) (lines : list string) : list string :=
  scan_for_patterns lines (get_or (cfg_log_patterns cfg) default_patterns).

(** The subject of the alert mail. *)
Definition subject_of (cfg : config) : string :=
  get_or (cfg_alert_subject cfg) "ALERT: Linux Monitor".

(** What the dispatch of an alert raises before the [try] statement of
    [send_email], if anything: the [KeyError] of a missing [smtp] section,
    or what [send_email] raises on the entries [from] and [to] and on the
    headers. *)
Definition dispatch_error (cfg : config) (env : cycle_env) : option exn :=
  match cfg_smtp cfg with
  | None => Some (KeyError "smtp")
  | Some smtp => header_error (env_header env) smtp (subject_of cfg)
  end.

(** A computation writes at most [k] messages to the transport, and only
    appends to the operational log and to the outbox. *)
Definition delivers_at_most {A} (k : nat) (c : M A) : Prop :=
  forall w, exists entries ds,
    oplog (fst (c w)) = (oplog w ++ entries)%list /\
    outbox (fst (c w)) = (outbox w ++ ds)%list /\
    (List.length ds <= k)%nat.

(** The text holds no line terminator. *)
Definition one_line (s : string) : bool :=
  all_chars (fun c => negb (is_linebreak c)) s.

(** ** The dashboard ([web_ui/app.py]) *)
(** The paths of the dashboard, relative to the directory of the project,
    where [monitor.py] puts its default state file too. *)
Definition LOG_FILE : string := "monitor.log".

Definition STATE_FILE : string := "monitor_state.json".

(** Reading a file opened in text mode translates CR LF and CR to LF
    (universal newlines). *)
Fixpoint translate_newlines (s : string) : string :=
  match s with
  | "" => ""
  | String c s' =>
      if Ascii.eqb c CR then
        String LF match s' with
                  | String c' s'' =>
                      if Ascii.eqb c' LF then translate_newlines s''
                      else translate_newlines s'
                  | "" => ""
                  end
      else String c (translate_newlines s')
  end.

(** [f.read()] on a file opened with [errors="replace"] *)
Definition read_text (content : string) : string :=
  translate_newlines (decode content).

(** [l[start:]] *)
Definition py_slice_from {A} (start : Z) (l : list A) : list A :=
  let len := Z.of_nat (List.length l) in
  let i := if (start <? 0)%Z then Z.max 0 (len + start) else Z.min start len in
  skipn (Z.to_nat i) l.

Definition read_log_lines (fs : dict string) (n : Z) : list string :=
  match dict_lookup fs LOG_FILE with
  | None => []
  | Some content =>
      let lines := splitlines (read_text content) in
      py_slice_from (- n) lines
  end.

(** The list that [api_logs] hands to [jsonify]. *)
Definition api_logs (fs : dict string) : list string :=
  py_slice_from (-1000) (read_log_lines fs 1000).

(** [read_state]: absent file or any error while reading and parsing give
    the empty dict. *)
Definition read_state (fs : dict string) : json :=
  match dict_lookup fs STATE_FILE with
  | None => JDict []
  | Some content =>
      match json_loads content with
      | Some v => v
      | None => JDict []
      end
  end.

(** *** More of the small installation *)
Definition ex_snapshot_calm : snapshot :=
  mksnapshot (mkfloat false 12 dig5 Nil) (mkfloat false 10 dig5 Nil)
             (mkfloat false 42 dig0 Nil) 1234 99.

Definition ex_env_calm : cycle_env :=
  mkenv (Ok ex_snapshot_calm) "Tue Nov  3 19:44:00 2026" net_up ext4_limit
        header_plain.



(** The state file holds the first bytes of a dump: a save was cut short. *)
Definition ex_world_cut : world :=
  mkworld [("sys.log", ex_log);
           ("state.json", take 12 (json_dumps (run_state 25 None)))] [] [].

(** The state file holds an offset that no ext4 file can have. *)
Definition ex_world_far : world :=
  mkworld [("sys.log", ex_log);
           ("state.json", json_dumps (run_state 17592186044416 None))] [] [].


Definition ex_cfg_no_mail : config :=
  mkconfig (Some "state.json") (Some [("cpu_percent", PInt 90)])
           (Some "sys.log") (Some ["error"]) None None.

Definition ex_smtp_no_server : smtp_config :=
  mksmtp (Some "monitor@example.org") (Some (ToList ["ops@example.org"]))
         None None None None None.

Definition ex_cfg_no_server : config :=
  mkconfig (Some "state.json") (Some [("cpu_percent", PInt 90)])
           (Some "sys.log") (Some ["error"]) None (Some ex_smtp_no_server).

(** The state file is left at its default place. *)
Definition ex_cfg_default : config :=
  mkconfig None (Some [("cpu_percent", PInt 90)])
           (Some "sys.log") (Some ["error"]) None (Some ex_smtp).

(** Ctrl-C arrives during the sleep after the second cycle. *)
Definition ex_schedule_ctrl_c (i : nat) : tick :=
  mktick ex_env_calm (i =? 1)%nat.

Definition ex_state_extra : json :=
  JDict [("log_pos", JInt 3); ("host", JStr "web-1");
         ("seen", JList [JBool true; JNull; JFloat (mkfloat true 0 dig5 Nil)])].

(* ================================================================= *)
(** * Part II: properties *)
(* ================================================================= *)

(** ** Strings *)

Lemma str_app_nil_r (s : string) : s ++ "" = s.
Proof. induction s as [|c s IH]; simpl; [reflexivity | now rewrite IH]. Qed.

Lemma str_app_assoc (a b c : string) : (a ++ b) ++ c = a ++ b ++ c.
Proof. induction a as [|x a IH]; simpl; [reflexivity | now rewrite IH]. Qed.

Lemma str_length_app (a b : string) :
  String.length (a ++ b) = (String.length a + String.length b)%nat.
Proof. induction a as [|x a IH]; simpl; [reflexivity | now rewrite IH]. Qed.




(** ** PatternScanner *)

Lemma scan_line_matches ln patterns hits :
  scan_line ln patterns hits =
  if matches patterns ln then py_append hits ln else hits.
Proof.
  induction patterns as [|p ps IH]; simpl; [reflexivity|].
  destruct (str_in (lower p) (lower ln)); simpl; [reflexivity | exact IH].
Qed.

Lemma scan_fold_filter patterns lines hits :
  fold_left (fun hits ln => scan_line ln patterns hits) lines hits =
  (hits ++ filter (matches patterns) lines)%list.
Proof.
  revert hits; induction lines as [|ln lines IH]; intros hits; simpl.
  - now rewrite List.app_nil_r.
  - rewrite IH, scan_line_matches. destruct (matches patterns ln).
    + unfold py_append. now rewrite <- List.app_assoc.
    + reflexivity.
Qed.

(** *** Lowering and the case of letters *)

Lemma code_lt_256 c : (code c < 256)%nat.
Proof. apply nat_ascii_bounded. Qed.














(** ** ThresholdEvaluator *)

Lemma num_ge_breach thresholds metric v :
  num_ge (PFloat v) (dict_get thresholds metric (PInt 90)) = true <->
  breach thresholds metric v.
Proof. unfold num_ge, breach, limit. simpl. apply Qle_bool_iff. Qed.

Lemma in_if_singleton (b : bool) (x y : string) :
  In x (if b then [y] else []) <-> b = true /\ y = x.
Proof. destruct b; simpl; intuition congruence. Qed.

(** C6.  For every sample and every thresholds mapping, [check_thresholds]
    emits the message of a metric if and only if its value is greater than
    or equal to its limit (equality is a breach), the limit being 90 for a
    metric the mapping does not configure; the messages come in the fixed
    order cpu, mem, disk, each made of the name of the metric and the
    observed value, and the result is empty exactly when no metric
    breaches. *)
Theorem check_thresholds_spec :
  forall (snap : snapshot) (thresholds : dict pynum),
    let cpu := cpu_percent snap in
    let mem := mem_percent snap in
    let disk := disk_percent snap in
    let ge metric v := num_ge (PFloat v) (limit thresholds metric) in
    check_thresholds snap thresholds =
      ((if ge "cpu_percent" cpu then [breach_message "CPU" cpu] else []) ++
       (if ge "mem_percent" mem then [breach_message "Memory" mem] else []) ++
       (if ge "disk_percent" disk then [breach_message "Disk" disk] else []))%list /\
    (forall metric v, ge metric v = true <->
       (num_value (dict_get thresholds metric (PInt 90)) <= float_value v)%Q) /\
    (In (breach_message "CPU" cpu) (check_thresholds snap thresholds) <->
       breach thresholds "cpu_percent" cpu) /\
    (In (breach_message "Memory" mem) (check_thresholds snap thresholds) <->
       breach thresholds "mem_percent" mem) /\
    (In (breach_message "Disk" disk) (check_thresholds snap thresholds) <->
       breach thresholds "disk_percent" disk) /\
    (check_thresholds snap thresholds = [] <->
       ~ breach thresholds "cpu_percent" cpu /\
       ~ breach thresholds "mem_percent" mem /\
       ~ breach thresholds "disk_percent" disk).
Proof.
  intros snap thresholds cpu mem disk ge.
  assert (E : check_thresholds snap thresholds =
      ((if ge "cpu_percent" cpu then [breach_message "CPU" cpu] else []) ++
       (if ge "mem_percent" mem then [breach_message "Memory" mem] else []) ++
       (if ge "disk_percent" disk then [breach_message "Disk" disk] else []))%list).
  { unfold check_thresholds, ge, limit, py_append, breach_message.
    fold cpu mem disk.
    destruct (num_ge (PFloat cpu) _), (num_ge (PFloat mem) _),
      (num_ge (PFloat disk) _); reflexivity. }
  assert (G : forall metric v, ge metric v = true <-> breach thresholds metric v).
  { intros; apply num_ge_breach. }
  split; [exact E|]. split; [exact G|].
  rewrite E. rewrite !in_app_iff, !in_if_singleton.
  unfold breach_message at 1 2 3 4 5 6 7 8 9. simpl String.append.
  split; [|split; [|split]].
  - split.
    + intros [[H _]|[[_ H]|[_ H]]]; [now apply G | discriminate | discriminate].
    + intros H. left. split; [now apply G | reflexivity].
  - split.
    + intros [[_ H]|[[H _]|[_ H]]]; [discriminate | now apply G | discriminate].
    + intros H. right; left. split; [now apply G | reflexivity].
  - split.
    + intros [[_ H]|[[_ H]|[H _]]]; [discriminate | discriminate | now apply G].
    + intros H. right; right. split; [now apply G | reflexivity].
  - rewrite <- !G.
    destruct (ge "cpu_percent" cpu), (ge "mem_percent" mem),
      (ge "disk_percent" disk); simpl; intuition congruence.
Qed.

(** ** Files as strings: [take] and [drop] *)

Lemma length_take n s : String.length (take n s) = Nat.min n (String.length s).
Proof.
  revert s; induction n as [|n IH]; intros [|c s]; simpl; auto.
Qed.

Lemma length_drop n s : String.length (drop n s) = (String.length s - n)%nat.
Proof.
  revert s; induction n as [|n IH]; intros [|c s]; simpl; auto.
Qed.

Lemma take_drop n s : take n s ++ drop n s = s.
Proof.
  revert s; induction n as [|n IH]; intros [|c s]; simpl; auto.
  now rewrite IH.
Qed.

Lemma drop_all n s : (String.length s <= n)%nat -> drop n s = "".
Proof.
  revert s; induction n as [|n IH]; intros [|c s]; simpl; intros H; auto;
    try lia. apply IH; lia.
Qed.

Lemma take_all n s : (String.length s <= n)%nat -> take n s = s.
Proof.
  revert s; induction n as [|n IH]; intros [|c s]; simpl; intros H; auto;
    try lia. now rewrite IH by lia.
Qed.

Lemma take_nil n : take n "" = "".
Proof. now destruct n. Qed.

Lemma drop_app_le n a b :
  (n <= String.length a)%nat -> drop n (a ++ b) = drop n a ++ b.
Proof.
  revert a; induction n as [|n IH]; intros [|c a]; simpl; intros H; auto;
    try lia. apply IH; lia.
Qed.

Lemma take_app_le n a b :
  (n <= String.length a)%nat -> take n (a ++ b) = take n a.
Proof.
  revert a; induction n as [|n IH]; intros [|c a]; simpl; intros H; auto;
    try lia. now rewrite IH by lia.
Qed.

Lemma drop_drop n m s : drop n (drop m s) = drop (m + n) s.
Proof.
  revert s; induction m as [|m IH]; intros s; simpl; auto.
  destruct s as [|c s]; simpl; [now destruct n | apply IH].
Qed.

Lemma take_take_drop n m s :
  take n s ++ take m (drop n s) = take (n + m) s.
Proof.
  revert s; induction n as [|n IH]; intros s; simpl; auto.
  destruct s as [|c s]; simpl; [now rewrite take_nil | now rewrite IH].
Qed.

Lemma take_length_min n s : take (Nat.min n (String.length s)) s = take n s.
Proof.
  revert s; induction n as [|n IH]; intros [|c s]; simpl; auto.
  now rewrite IH.
Qed.

(** ** LogTailer *)

Lemma decode_app a b : decode (a ++ b) = decode a ++ decode b.
Proof.
  unfold decode. induction a as [|c a IH]; simpl; [reflexivity | now rewrite IH].
Qed.

Lemma max_offset_range lim : (0 <= max_offset lim <= off_t_max)%Z.
Proof. unfold max_offset, off_t_max. lia. Qed.

Lemma read_from_ok lim content pos max_bytes :
  (0 <= pos <= max_offset lim)%Z -> (0 <= max_bytes)%Z ->
  read_from lim content (JInt pos) max_bytes =
  Ok (take (Z.to_nat max_bytes) (drop (Z.to_nat pos) content),
      (pos + Z.of_nat (String.length
                         (take (Z.to_nat max_bytes) (drop (Z.to_nat pos) content))))%Z).
Proof.
  intros Hp Hm. pose proof (max_offset_range lim) as Hr.
  unfold read_from; cbn [as_index].
  destruct (Z.ltb_spec pos (- off_t_max - 1)); [unfold off_t_max in *; lia|].
  destruct (Z.ltb_spec off_t_max pos); [lia|].
  destruct (Z.ltb_spec pos 0); [lia|].
  destruct (Z.ltb_spec (max_offset lim) pos); [lia|].
  destruct (Z.ltb_spec max_bytes (-1)); [lia|].
  destruct (Z.eqb_spec max_bytes (-1)); [lia|]. reflexivity.
Qed.


Lemma read_from_refused lim content last_pos pos max_bytes :
  as_index last_pos = Ok pos ->
  (max_offset lim < pos)%Z ->
  read_from lim content last_pos max_bytes =
  Raise (if (off_t_max <? pos)%Z
         then ValueError "cannot fit 'int' into an offset-sized integer"
         else OSError "[Errno 22] Invalid argument").
Proof.
  intros Hi Hp. pose proof (max_offset_range lim) as Hr.
  unfold read_from; rewrite Hi.
  destruct (Z.ltb_spec pos (- off_t_max - 1)); [unfold off_t_max in *; lia|].
  destruct (Z.ltb_spec off_t_max pos); [reflexivity|].
  destruct (Z.ltb_spec pos 0); [lia|].
  destruct (Z.ltb_spec (max_offset lim) pos); [reflexivity | lia].
Qed.




Lemma split_from_cons cur c s :
  split_from cur (String c s) =
  if is_linebreak c then cur :: after_break c s
  else split_from (cur ++ String c "") s.
Proof. reflexivity. Qed.

Lemma split_from_app_aux c b :
  is_linebreak c = true ->
  ~ (c = CR /\ exists r, b = String LF r) ->
  forall a,
    (forall cur, split_from cur (a ++ String c b) =
                 (split_from cur (a ++ str1 c) ++ splitlines b)%list) /\
    (forall x, after_break x (a ++ String c b) =
               (after_break x (a ++ str1 c) ++ splitlines b)%list).
Proof.
  intros Hc Hn.
  assert (P0 : forall cur, split_from cur (String c b) =
                           (split_from cur (str1 c) ++ splitlines b)%list).
  { intros cur. unfold str1. rewrite !split_from_cons, Hc.
    destruct b as [|y b]; [reflexivity|].
    unfold after_break at 1.
    destruct (Ascii.eqb c CR && Ascii.eqb y LF) eqn:E; [|reflexivity].
    apply andb_true_iff in E as [E1 E2].
    apply Ascii.eqb_eq in E1, E2. subst. exfalso. apply Hn. eauto. }
  induction a as [|y a [IHP IHQ]].
  - split; [exact P0|]. intros x. cbn [String.append]. unfold str1.
    unfold after_break at 1 2.
    destruct (Ascii.eqb x CR && Ascii.eqb c LF); [reflexivity | apply P0].
  - assert (P : forall cur, split_from cur (String y a ++ String c b) =
                     (split_from cur (String y a ++ str1 c) ++ splitlines b)%list).
    { intros cur. cbn [String.append]. rewrite !split_from_cons.
      destruct (is_linebreak y); [|apply IHP].
      rewrite IHQ. reflexivity. }
    split; [exact P|]. intros x. cbn [String.append].
    unfold after_break at 1 2.
    destruct (Ascii.eqb x CR && Ascii.eqb y LF); [apply IHP | apply P].
Qed.

Lemma split_from_app cur a c b :
  is_linebreak c = true ->
  ~ (c = CR /\ exists r, b = String LF r) ->
  split_from cur (a ++ String c b) =
  (split_from cur (a ++ str1 c) ++ splitlines b)%list.
Proof. intros Hc Hn. now apply split_from_app_aux. Qed.

Lemma splitlines_app d1 d2 :
  line_aligned d1 d2 ->
  splitlines (d1 ++ d2) = (splitlines d1 ++ splitlines d2)%list.
Proof.
  intros [->|(d & c & -> & Hc & Hn)]; [reflexivity|].
  unfold splitlines at 1 2. unfold str1. rewrite str_app_assoc. cbn [String.append].
  now apply split_from_app.
Qed.

Lemma all_chars_app p a b :
  all_chars p (a ++ b) = all_chars p a && all_chars p b.
Proof.
  induction a as [|c a IH]; simpl; [reflexivity|].
  now rewrite IH, andb_assoc.
Qed.

Lemma is_ascii_app a b : is_ascii (a ++ b) = is_ascii a && is_ascii b.
Proof. apply all_chars_app. Qed.

Lemma decode_ascii s : is_ascii s = true -> decode s = s.
Proof.
  induction s as [|c s IH]; [reflexivity|].
  unfold is_ascii, decode in *. cbn [all_chars map_str].
  intros H. apply andb_true_iff in H as [Hc Hs].
  rewrite IH by exact Hs. unfold decode_char. now rewrite Hc.
Qed.

(** C7 (amended).  When the log file only grows between two calls of
    [tail_log], the first call starts at an offset inside the file and the
    second at the offset the first returned, the two calls read adjacent
    ranges of bytes: their concatenation is the content of the file between
    the first start offset and the second end offset, each byte once.  On
    ASCII content the lines of each call are the lines of the bytes it
    read, and the lines of the two calls together are the lines of the
    whole range when the first read is empty or ends on a line terminator
    that the second read does not continue (a CR at the end of the first
    read and an LF at the start of the second are one terminator cut in
    two).  When neither read is cut short by [max_bytes] the two reads give
    all the content from the start offset on, and a second call with
    nothing written in between returns no line and the same offset. *)
Theorem tail_log_successive_reads :
  forall (lim : N) (fs1 fs2 : dict string) (path content appended : string)
         (p0 cap : Z),
    dict_lookup fs1 path = Some content ->
    dict_lookup fs2 path = Some (content ++ appended) ->
    (0 <= p0 <= Z.of_nat (String.length content))%Z ->
    (0 <= cap <= 200000)%Z ->
    (Z.of_nat (String.length (content ++ appended)) <= max_offset lim)%Z ->
    exists (d1 d2 : string) (lines1 lines2 : list string) (p1 p2 : Z),
      tail_log lim fs1 path (JInt p0) cap = Ok (lines1, p1) /\
      tail_log lim fs2 path (JInt p1) cap = Ok (lines2, p2) /\
      p1 = (p0 + Z.of_nat (String.length d1))%Z /\
      p2 = (p1 + Z.of_nat (String.length d2))%Z /\
      d1 ++ d2 = take (Z.to_nat (p2 - p0))
                      (drop (Z.to_nat p0) (content ++ appended)) /\
      (is_ascii (d1 ++ d2) = true ->
       lines1 = splitlines d1 /\ lines2 = splitlines d2 /\
       (line_aligned d1 d2 ->
        (lines1 ++ lines2)%list = splitlines (d1 ++ d2))) /\
      ((Z.of_nat (String.length content) - p0 <= cap)%Z ->
       (Z.of_nat (String.length appended) <= cap)%Z ->
       d1 ++ d2 = drop (Z.to_nat p0) (content ++ appended)) /\
      ((Z.of_nat (String.length content) - p0 <= cap)%Z ->
       appended = "" ->
       lines2 = [] /\ p2 = p1).
Proof.
  intros lim fs1 fs2 path content appended p0 cap Hf1 Hf2 Hp Hc Hlim.
  rewrite str_length_app in Hlim.
  set (n0 := Z.to_nat p0). set (k := Z.to_nat cap).
  set (d1 := take k (drop n0 content)).
  set (p1 := (p0 + Z.of_nat (String.length d1))%Z).
  set (d2 := take k (drop (Z.to_nat p1) (content ++ appended))).
  set (p2 := (p1 + Z.of_nat (String.length d2))%Z).
  assert (L1 : String.length d1 = Nat.min k (String.length content - n0)).
  { unfold d1. now rewrite length_take, length_drop. }
  assert (Hp1 : (0 <= p1 <= max_offset lim)%Z) by (unfold p1, n0 in *; lia).
  assert (N1 : Z.to_nat p1 = (n0 + String.length d1)%nat) by (unfold p1, n0; lia).
  assert (T1 : tail_log lim fs1 path (JInt p0) cap = Ok (splitlines (decode d1), p1)).
  { unfold tail_log. rewrite Hf1, read_from_ok by lia. reflexivity. }
  assert (T2 : tail_log lim fs2 path (JInt p1) cap = Ok (splitlines (decode d2), p2)).
  { unfold tail_log. rewrite Hf2, read_from_ok by lia. reflexivity. }
  assert (D1 : d1 = take (String.length d1) (drop n0 (content ++ appended))).
  { rewrite drop_app_le by (unfold n0; lia).
    rewrite take_app_le by (rewrite length_drop; lia).
    unfold d1 at 1. rewrite L1.
    rewrite <- (length_drop n0 content). now rewrite take_length_min. }
  assert (D2 : d2 = take (String.length d2)
                         (drop (String.length d1) (drop n0 (content ++ appended)))).
  { rewrite drop_drop, <- N1. fold d2.
    unfold d2 at 1. rewrite <- (take_length_min k). now rewrite <- length_take. }
  assert (C : d1 ++ d2 = take (Z.to_nat (p2 - p0))
                              (drop n0 (content ++ appended))).
  { replace (Z.to_nat (p2 - p0)) with (String.length d1 + String.length d2)%nat
      by (unfold p2, p1; lia).
    rewrite <- take_take_drop, <- D1, <- D2. reflexivity. }
  exists d1, d2, (splitlines (decode d1)), (splitlines (decode d2)), p1, p2.
  split; [exact T1|]. split; [exact T2|]. split; [reflexivity|].
  split; [reflexivity|]. split; [exact C|]. split; [|split].
  - intros Ha. rewrite is_ascii_app in Ha. apply andb_true_iff in Ha as [A1 A2].
    rewrite !decode_ascii by assumption.
    split; [reflexivity|]. split; [reflexivity|].
    intros Hal. symmetry. now apply splitlines_app.
  - intros Hc1 Hc2. rewrite C. apply take_all.
    rewrite length_drop, str_length_app.
    assert (String.length d1 = (String.length content - n0)%nat)
      by (rewrite L1; unfold k, n0; lia).
    assert (String.length d2 = String.length appended).
    { unfold d2. rewrite length_take, length_drop, str_length_app, N1.
      unfold k, n0 in *. lia. }
    unfold p2, p1, n0 in *. lia.
  - intros Hc1 ->.
    assert (E : d2 = "").
    { unfold d2. rewrite drop_all; [apply take_nil|].
      rewrite str_length_app, N1, L1. simpl. unfold k, n0. lia. }
    unfold p2. rewrite E. split; [reflexivity | simpl; lia].
Qed.

Lemma tail_log_successive_reads_witness :
  exists (lines1 lines2 : list string) (p1 p2 : Z),
    tail_log ext4_limit [("sys.log", "ok" ++ str1 LF)] "sys.log" (JInt 0) 200000 =
      Ok (lines1, p1) /\
    tail_log ext4_limit
             [("sys.log", ("ok" ++ str1 LF) ++ "ERROR x" ++ str1 LF)] "sys.log"
             (JInt p1) 200000 = Ok (lines2, p2) /\
    (lines1 ++ lines2)%list = ["ok"; "ERROR x"].
Proof.
  destruct (tail_log_successive_reads ext4_limit
              [("sys.log", "ok" ++ str1 LF)]
              [("sys.log", ("ok" ++ str1 LF) ++ "ERROR x" ++ str1 LF)]
              "sys.log" ("ok" ++ str1 LF) ("ERROR x" ++ str1 LF) 0 200000
              eq_refl eq_refl ltac:(simpl; lia) ltac:(lia)
              ltac:(vm_compute; discriminate))
    as (d1 & d2 & l1 & l2 & p1 & p2 & T1 & T2 & P1 & _ & _ & L & A & _).
  exists l1, l2, p1, p2. split; [exact T1|]. split; [exact T2|].
  specialize (A ltac:(simpl; lia) ltac:(simpl; lia)).
  assert (E1 : p1 = 3%Z) by (vm_compute in T1; now injection T1).
  assert (D : d1 = "ok" ++ str1 LF /\ d2 = "ERROR x" ++ str1 LF).
  { rewrite E1 in P1.
    destruct d1 as [|a [|b [|c [|x d1]]]]; simpl in P1; try lia.
    injection A as -> -> -> ->. split; reflexivity. }
  destruct D as [-> ->].
  destruct (L eq_refl) as (-> & -> & Hal). rewrite Hal; [reflexivity|].
  right. exists "ok", LF. repeat split. intros [H _]. discriminate H.
Defined.

(** C7 as stated fails: a read cut short by [max_bytes] leaves bytes for the
    next call, which then returns lines although nothing was written. *)
Lemma tail_log_second_read_not_empty :
  ~ (forall (lim : N) (fs : dict string) (path : string) (p0 cap : Z)
            (lines1 : list string) (p1 : Z),
        tail_log lim fs path (JInt p0) cap = Ok (lines1, p1) ->
        exists p2, tail_log lim fs path (JInt p1) cap = Ok ([], p2)).
Proof.
  intros H.
  destruct (H ext4_limit [("sys.log", "a" ++ str1 LF ++ "b")] "sys.log"
              0%Z 2%Z ["a"] 2%Z eq_refl) as [p2 Hp2].
  vm_compute in Hp2. discriminate Hp2.
Qed.

(** ** Decimal digits *)

Lemma span_digits_uint (u : uint) (rest : string) :
  starts_with_digit rest = false ->
  span_digits (NilEmpty.string_of_uint u ++ rest) =
  (NilEmpty.string_of_uint u, rest).
Proof.
  intros Hr. induction u; cbn [NilEmpty.string_of_uint String.append];
    try (cbn [span_digits]; rewrite IHu; reflexivity).
  destruct rest as [|c r]; [reflexivity|]. simpl in Hr. simpl. now rewrite Hr.
Qed.

Lemma uint_of_digits_uint (u : uint) :
  digits_to_uint (NilEmpty.string_of_uint u) = u.
Proof. unfold digits_to_uint. now rewrite NilEmpty.usu. Qed.

Lemma N_of_digits_N (n : N) : digits_to_N (digits_of_N n) = n.
Proof.
  unfold digits_to_N, digits_of_N. rewrite NilEmpty.usu.
  apply DecimalN.Unsigned.of_to.
Qed.

Lemma unorm_shape (u : uint) :
  unorm u = D0 Nil \/
  exists c r, NilEmpty.string_of_uint (unorm u) = String c r /\
              is_digit c = true /\ c <> "0"%char.
Proof.
  induction u; simpl; auto; right; eexists _, _; split;
    try reflexivity; split; try reflexivity; discriminate.
Qed.

Lemma digits_of_N_shape (n : N) :
  digits_of_N n = "0" \/
  exists c r, digits_of_N n = String c r /\ is_digit c = true /\ c <> "0"%char.
Proof.
  unfold digits_of_N.
  assert (E : N.to_uint n = unorm (N.to_uint n)).
  { rewrite <- (DecimalN.Unsigned.to_of (N.to_uint n)).
    now rewrite DecimalN.Unsigned.of_to. }
  rewrite E. destruct (unorm_shape (N.to_uint n)) as [->|H]; auto.
Qed.

Lemma digits_of_N_nonempty (n : N) : digits_of_N n <> "".
Proof.
  destruct (digits_of_N_shape n) as [->|(c & r & -> & _)]; discriminate.
Qed.

Lemma string_of_cons_digit d u :
  exists c, NilEmpty.string_of_uint (cons_digit d u) =
            String c (NilEmpty.string_of_uint u) /\ is_digit c = true.
Proof. destruct d; eexists; split; reflexivity. Qed.

(** ** Numbers *)

Lemma ends_value_number rest : ends_value rest = true -> ends_number rest = true.
Proof.
  destruct rest as [|c r]; simpl; auto. intros H.
  repeat (apply orb_true_iff in H as [H|H]);
    apply Ascii.eqb_eq in H; subst; reflexivity.
Qed.

Lemma ends_number_no_digit rest :
  ends_number rest = true -> starts_with_digit rest = false.
Proof.
  destruct rest as [|c r]; simpl; auto. intros H.
  apply andb_true_iff in H as [H _]. now apply negb_true_iff in H.
Qed.

(** The unsigned part of a literal. *)
Lemma scan_digits_of_N (n : N) (rest : string) :
  starts_with_digit rest = false ->
  exists c r, digits_of_N n ++ rest = String c r /\ is_digit c = true /\
    (if Ascii.eqb c "0" then ("0", r) else span_digits (String c r)) =
    (digits_of_N n, rest).
Proof.
  intros Hr. destruct (digits_of_N_shape n) as [E|(c & r & E & Hc & Hn)].
  - rewrite E. exists "0"%char, rest. repeat split.
  - exists c, (r ++ rest). rewrite E. repeat split; auto.
    apply Ascii.eqb_neq in Hn. rewrite Hn.
    change (String c (r ++ rest)) with (String c r ++ rest).
    rewrite <- E. unfold digits_of_N. now apply span_digits_uint.
Qed.

Lemma parse_unsigned_int (neg : bool) (n : N) (rest : string) :
  ends_number rest = true ->
  parse_unsigned neg (digits_of_N n ++ rest) =
  Some (JInt (if neg then - Z.of_N n else Z.of_N n)%Z, rest).
Proof.
  intros Hr. unfold parse_unsigned.
  destruct (scan_digits_of_N n rest (ends_number_no_digit _ Hr))
    as (c & r & -> & Hc & ->).
  rewrite Hc. cbv zeta. rewrite N_of_digits_N.
  destruct rest as [|x rest]; [reflexivity|].
  simpl in Hr. apply andb_true_iff in Hr as [_ Hx].
  apply negb_true_iff, Ascii.eqb_neq in Hx.
  destruct x as [[] [] [] [] [] [] [] []]; try reflexivity. now destruct Hx.
Qed.

Lemma parse_number_int (z : Z) (rest : string) :
  ends_number rest = true ->
  parse_number (int_str z ++ rest) = Some (JInt z, rest).
Proof.
  intros Hr. unfold parse_number, int_str.
  destruct (Z.ltb_spec z 0) as [Hz|Hz].
  - cbn [String.append]. rewrite (parse_unsigned_int true _ _ Hr).
    do 2 f_equal. f_equal. lia.
  - cbn [String.append].
    assert (G := parse_unsigned_int false (Z.abs_N z) rest Hr).
    replace (Z.of_N (Z.abs_N z)) with z in G by lia.
    destruct (scan_digits_of_N (Z.abs_N z) rest (ends_number_no_digit _ Hr))
      as (c & r & E & Hc & _).
    rewrite E in *.
    destruct c as [[] [] [] [] [] [] [] []]; try exact G; discriminate.
Qed.

Lemma uncons_cons_digit d u : uncons_digit (cons_digit d u) = Some (d, u).
Proof. now destruct d. Qed.

Lemma parse_unsigned_float (neg : bool) (n : N) (d : digit) (u : uint)
      (rest : string) :
  ends_number rest = true ->
  parse_unsigned neg
    (digits_of_N n ++ "." ++ NilEmpty.string_of_uint (cons_digit d u) ++ rest) =
  Some (JFloat (mkfloat neg n d u), rest).
Proof.
  intros Hr. unfold parse_unsigned.
  destruct (scan_digits_of_N n
              ("." ++ NilEmpty.string_of_uint (cons_digit d u) ++ rest) eq_refl)
    as (c & r & -> & Hc & ->).
  rewrite Hc. cbv zeta. rewrite N_of_digits_N.
  cbn [String.append].
  rewrite (span_digits_uint _ _ (ends_number_no_digit _ Hr)).
  now rewrite uint_of_digits_uint, uncons_cons_digit.
Qed.

Lemma parse_number_float (f : pyfloat) (rest : string) :
  ends_number rest = true ->
  parse_number (float_repr f ++ rest) = Some (JFloat f, rest).
Proof.
  intros Hr. destruct f as [neg n d u].
  unfold parse_number, float_repr, frac_digits.
  cbn [f_neg f_int f_frac1 f_frac].
  rewrite !str_app_assoc.
  assert (G := parse_unsigned_float neg n d u rest Hr).
  destruct neg; cbn [String.append] in *; [exact G|].
  destruct (scan_digits_of_N n
              ("." ++ NilEmpty.string_of_uint (cons_digit d u) ++ rest) eq_refl)
    as (c & r & E & Hc & _).
  cbn [String.append] in E. rewrite E in *.
  destruct c as [[] [] [] [] [] [] [] []]; try exact G;
    vm_compute in Hc; discriminate.
Qed.

(** ** Strings *)

Lemma scan_escape_char (c : ascii) (t : string) :
  scan_string (json_escape_char c ++ t) = cons_char c (scan_string t).
Proof.
  destruct c as [[] [] [] [] [] [] [] []]; reflexivity.
Qed.

Lemma scan_json_escape (s rest : string) :
  scan_string (json_escape s ++ String QUOTE rest) = Some (s, rest).
Proof.
  induction s as [|c s IH]; [reflexivity|].
  cbn [json_escape]. rewrite str_app_assoc, scan_escape_char, IH. reflexivity.
Qed.

(** ** Dictionaries *)

Lemma unique_keys_NoDup (ks : list string) : unique_keys ks = true <-> NoDup ks.
Proof.
  induction ks as [|k ks IH]; simpl.
  - split; [constructor | reflexivity].
  - rewrite andb_true_iff, negb_true_iff, IH. split.
    + intros [H1 H2]. constructor; [|exact H2]. intros Hin.
      assert (existsb (String.eqb k) ks = true)
        by (apply existsb_exists; exists k; split; [exact Hin | apply String.eqb_refl]).
      congruence.
    + intros H. inversion H as [|? ? Hn Hd]; subst. split; [|exact Hd].
      destruct (existsb (String.eqb k) ks) eqn:E; [|reflexivity].
      apply existsb_exists in E as (k' & Hin & Hk). apply String.eqb_eq in Hk.
      subst. contradiction.
Qed.

Lemma dict_set_fresh {V} (d : dict V) k v :
  ~ In k (map fst d) -> dict_set d k v = (d ++ [(k, v)])%list.
Proof.
  induction d as [|[k' v'] d IH]; simpl; intros H; [reflexivity|].
  destruct (String.eqb_spec k' k) as [->|ne]; [tauto|].
  rewrite IH; tauto.
Qed.

Lemma fold_dict_set {V} (ps acc : dict V) :
  NoDup (map fst (acc ++ ps)%list) ->
  fold_left (fun d kv => dict_set d (fst kv) (snd kv)) ps acc = (acc ++ ps)%list.
Proof.
  revert acc; induction ps as [|[k v] ps IH]; intros acc H; simpl.
  - now rewrite List.app_nil_r.
  - rewrite dict_set_fresh.
    + rewrite IH; rewrite <- List.app_assoc; [reflexivity | exact H].
    + rewrite map_app in H. simpl in H. apply NoDup_remove_2 in H.
      intros Hin. apply H. apply in_or_app. now left.
Qed.

Lemma dict_of_pairs_unique {V} (d : dict V) :
  unique_keys (map fst d) = true -> dict_of_pairs d = d.
Proof.
  intros H. unfold dict_of_pairs. rewrite fold_dict_set; [reflexivity|].
  now apply unique_keys_NoDup.
Qed.

(** ** The shape of dumped values *)

Lemma json_ind (P : json -> Prop) :
  P JNull ->
  (forall b, P (JBool b)) ->
  (forall z, P (JInt z)) ->
  (forall f, P (JFloat f)) ->
  (forall s, P (JStr s)) ->
  (forall l, Forall P l -> P (JList l)) ->
  (forall d, Forall (fun kv => P (snd kv)) d -> P (JDict d)) ->
  forall v, P v.
Proof.
  intros Hnull Hbool Hint Hfloat Hstr Hlist Hdict.
  fix IH 1. intros [ | b | z | f | s | l | d].
  - exact Hnull.
  - apply Hbool.
  - apply Hint.
  - apply Hfloat.
  - apply Hstr.
  - apply Hlist. induction l as [|x l IHl]; constructor; [apply IH | exact IHl].
  - apply Hdict. induction d as [|[k x] d IHd]; constructor;
      [apply IH | exact IHd].
Qed.

Lemma json_dumps_list x r :
  json_dumps (JList (x :: r)) = "[" ++ json_dumps x ++ dumps_items r ++ "]".
Proof.
  cbn [json_dumps]. rewrite str_app_assoc. reflexivity.
Qed.

Lemma json_dumps_dict k x r :
  json_dumps (JDict ((k, x) :: r)) =
  "{" ++ json_string k ++ ": " ++ json_dumps x ++ dumps_members r ++ "}".
Proof.
  cbn [json_dumps]. rewrite !str_app_assoc. reflexivity.
Qed.

Lemma int_str_start z :
  exists c r, int_str z = String c r /\ (c = "-"%char \/ is_digit c = true).
Proof.
  unfold int_str. destruct (z <? 0)%Z.
  - eexists _, _. split; [reflexivity | now left].
  - destruct (digits_of_N_shape (Z.abs_N z)) as [->|(c & r & -> & Hc & _)].
    + eexists _, _. split; [reflexivity | now right].
    + exists c, r. split; [reflexivity | now right].
Qed.

Lemma float_repr_start f :
  exists c r, float_repr f = String c r /\ (c = "-"%char \/ is_digit c = true).
Proof.
  unfold float_repr. destruct (f_neg f).
  - eexists _, _. split; [reflexivity | now left].
  - destruct (digits_of_N_shape (f_int f)) as [->|(c & r & -> & Hc & _)].
    + eexists _, _. split; [reflexivity | now right].
    + eexists c, _. split; [reflexivity | now right].
Qed.

Lemma json_dumps_start v :
  exists c r, json_dumps v = String c r /\ value_start c = true.
Proof.
  destruct v as [ | [] | z | f | s | [|x l] | [|[k x] d]];
    try (eexists _, _; split; reflexivity).
  - destruct (int_str_start z) as (c & r & E & H); exists c, r.
    split; [exact E|]. destruct H as [->|H]; [reflexivity|].
    unfold value_start. rewrite H. now rewrite !orb_true_r.
  - destruct (float_repr_start f) as (c & r & E & H); exists c, r.
    split; [exact E|]. destruct H as [->|H]; [reflexivity|].
    unfold value_start. rewrite H. now rewrite !orb_true_r.
Qed.

Lemma value_start_facts c :
  value_start c = true ->
  is_ws c = false /\ Ascii.eqb c "]" = false /\ Ascii.eqb c "}" = false /\
  Ascii.eqb c "," = false /\ Ascii.eqb c ":" = false.
Proof.
  destruct c as [[] [] [] [] [] [] [] []]; vm_compute; intros H;
    try discriminate H; repeat split.
Qed.

Lemma skip_ws_dumps v rest :
  skip_ws (json_dumps v ++ rest) = json_dumps v ++ rest.
Proof.
  destruct (json_dumps_start v) as (c & r & -> & H).
  apply value_start_facts in H as (H & _). simpl. now rewrite H.
Qed.

(** ** Dispatch on the first character *)

Lemma parse_value_number fuel c r :
  c = "-"%char \/ is_digit c = true ->
  parse_value (S fuel) (String c r) = parse_number (String c r).
Proof.
  intros H.
  destruct c as [[] [] [] [] [] [] [] []];
    try reflexivity; destruct H as [H|H]; vm_compute in H; discriminate H.
Qed.

(** ** [json.loads] after [json.dumps] *)

Lemma ends_value_items l rest :
  ends_value (dumps_items l ++ String "]" rest) = true.
Proof. destruct l; reflexivity. Qed.

Lemma ends_value_members d rest :
  ends_value (dumps_members d ++ String "}" rest) = true.
Proof. destruct d as [|[k x] d]; reflexivity. Qed.

Lemma parse_elems_dumps (l : list json) :
  Forall parses_back l ->
  forall x fuel rest,
    parses_back x ->
    (S (json_size x + items_size l) <= fuel)%nat ->
    parse_elems fuel (json_dumps x ++ dumps_items l ++ String "]" rest) =
    Some (x :: l, rest).
Proof.
  induction 1 as [|y l Hy Hl IH]; intros x fuel rest Hx Hfuel;
    (destruct fuel as [|fuel]; [lia|]); cbn [parse_elems].
  - rewrite (Hx fuel _ ltac:(simpl in Hfuel; lia) (ends_value_items [] rest)).
    reflexivity.
  - rewrite (Hx fuel _ ltac:(simpl in Hfuel; lia) (ends_value_items (y :: l) rest)).
    simpl. rewrite !str_app_assoc. rewrite skip_ws_dumps.
    rewrite (IH y fuel rest Hy); [reflexivity|].
    unfold items_size in *. cbn [fold_right] in Hfuel. lia.
Qed.

Lemma parse_members_dumps (d : list (string * json)) :
  Forall (fun kv => parses_back (snd kv)) d ->
  forall k x fuel rest,
    parses_back x ->
    (S (json_size x + members_size d) <= fuel)%nat ->
    parse_members fuel
      (json_escape k ++ String QUOTE (String ":" (String " " (json_dumps x ++
       dumps_members d ++ String "}" rest)))) =
    Some ((k, x) :: d, rest).
Proof.
  induction 1 as [|[k' y] d Hy Hd IH]; intros k x fuel rest Hx Hfuel;
    (destruct fuel as [|fuel]; [lia|]); cbn [parse_members];
    rewrite scan_json_escape; simpl; rewrite skip_ws_dumps.
  - rewrite (Hx fuel (String "}" rest) ltac:(simpl in Hfuel; lia) eq_refl).
    reflexivity.
  - assert (E : ends_value
                  (String "," (String " " (String QUOTE (json_escape k' ++
                   String QUOTE (String ":" (String " " (json_dumps y ++
                   dumps_members d ++ String "}" rest))))))) = true)
      by reflexivity.
    rewrite !str_app_assoc. simpl. rewrite !str_app_assoc. simpl.
    rewrite (Hx fuel _ ltac:(unfold members_size in Hfuel; simpl in Hfuel; lia) E).
    simpl.
    rewrite (IH k' y fuel rest Hy); [reflexivity|].
    unfold members_size in *. cbn [fold_right snd] in Hfuel. lia.
Qed.

Lemma json_wf_list x l :
  json_wf (JList (x :: l)) = true -> json_wf x = true /\ json_wf (JList l) = true.
Proof. cbn [json_wf forallb]. now rewrite andb_true_iff. Qed.

Lemma Forall_parses_back_list l :
  Forall (fun v => json_wf v = true -> parses_back v) l ->
  json_wf (JList l) = true -> Forall parses_back l.
Proof.
  induction 1 as [|x l Hx Hl IH]; intros Hwf; constructor.
  - apply Hx. now apply json_wf_list in Hwf.
  - apply IH. now apply json_wf_list in Hwf.
Qed.

Lemma Forall_parses_back_dict (d : list (string * json)) :
  Forall (fun kv => json_wf (snd kv) = true -> parses_back (snd kv)) d ->
  forallb (fun kv => json_wf (snd kv)) d = true ->
  Forall (fun kv => parses_back (snd kv)) d.
Proof.
  induction 1 as [|x l Hx Hl IH]; simpl; intros Hwf; constructor;
    apply andb_true_iff in Hwf as [H1 H2]; auto.
Qed.

Lemma parse_dumps (v : json) : json_wf v = true -> parses_back v.
Proof.
  induction v as [ | b | z | f | s | l IH | d IH] using json_ind;
    intros Hwf fuel rest Hfuel Hrest;
    (destruct fuel as [|fuel]; [simpl in Hfuel; lia|]).
  - destruct rest; reflexivity.
  - destruct b, rest; reflexivity.
  - cbn [json_dumps]. destruct (int_str_start z) as (c & r & E & Hc).
    assert (G := parse_number_int z rest (ends_value_number _ Hrest)).
    rewrite E in *. cbn [String.append] in *.
    now rewrite parse_value_number.
  - cbn [json_dumps]. destruct (float_repr_start f) as (c & r & E & Hc).
    assert (G := parse_number_float f rest (ends_value_number _ Hrest)).
    rewrite E in *. cbn [String.append] in *.
    now rewrite parse_value_number.
  - cbn [json_dumps]. unfold json_string, str1. cbn [String.append parse_value].
    simpl Ascii.eqb. cbv iota. rewrite str_app_assoc. cbn [String.append].
    now rewrite scan_json_escape.
  - destruct l as [|x l]; [reflexivity|].
    rewrite json_dumps_list. rewrite !str_app_assoc.
    inversion IH as [|? ? Hx Hl]; subst.
    destruct (json_wf_list _ _ Hwf) as [Wx Wl].
    assert (G := parse_elems_dumps l (Forall_parses_back_list l Hl Wl)
                   x fuel rest (Hx Wx)
                   ltac:(simpl in Hfuel; unfold items_size; lia)).
    cbn [String.append parse_value]. simpl Ascii.eqb. cbv iota.
    rewrite skip_ws_dumps.
    destruct (json_dumps_start x) as (c & r & E & Hc).
    rewrite E in *. cbn [String.append] in *.
    apply value_start_facts in Hc as (_ & Hc & _). rewrite Hc.
    now rewrite G.
  - destruct d as [|[k x] d]; [reflexivity|].
    rewrite json_dumps_dict. rewrite !str_app_assoc.
    inversion IH as [|? ? Hx Hd]; subst. cbn [snd] in Hx.
    cbn [json_wf map fst forallb snd] in Hwf.
    apply andb_true_iff in Hwf as [Wk Wv].
    apply andb_true_iff in Wv as [Wx Wd].
    assert (G := parse_members_dumps d (Forall_parses_back_dict d Hd Wd)
                   k x fuel rest (Hx Wx)
                   ltac:(simpl in Hfuel; unfold members_size; lia)).
    unfold json_string, str1 in *.
    cbn [String.append parse_value skip_ws is_ws]. simpl Ascii.eqb. cbv iota.
    cbn [orb]. cbv iota. rewrite !str_app_assoc. cbn [String.append] in *.
    change (is_ws QUOTE) with false. cbv iota.
    change (Ascii.eqb QUOTE "}") with false.
    change (Ascii.eqb QUOTE QUOTE) with true. cbv iota.
    rewrite G. rewrite dict_of_pairs_unique; [reflexivity | exact Wk].
Qed.

Lemma int_str_nonempty z : (1 <= String.length (int_str z))%nat.
Proof. destruct (int_str_start z) as (c & r & -> & _). simpl. lia. Qed.

Lemma float_repr_nonempty f : (1 <= String.length (float_repr f))%nat.
Proof. destruct (float_repr_start f) as (c & r & -> & _). simpl. lia. Qed.

Lemma items_size_length l :
  Forall (fun v => (json_size v <= String.length (json_dumps v))%nat) l ->
  (items_size l <= String.length (dumps_items l))%nat.
Proof.
  induction 1 as [|x l Hx Hl IH]; [simpl; lia|].
  change (items_size (x :: l)) with (S (json_size x + items_size l)).
  cbn [dumps_items String.append String.length]. rewrite str_length_app. lia.
Qed.

Lemma members_size_length (d : list (string * json)) :
  Forall (fun kv => (json_size (snd kv) <= String.length (json_dumps (snd kv)))%nat) d ->
  (members_size d <= String.length (dumps_members d))%nat.
Proof.
  induction 1 as [|[k x] d Hx Hd IH]; [simpl; lia|].
  change (members_size ((k, x) :: d)) with (S (json_size x + members_size d)).
  cbn [snd] in Hx.
  cbn [dumps_members String.append String.length]. rewrite !str_length_app.
  cbn [String.length]. rewrite !str_length_app. lia.
Qed.

Lemma json_size_length (v : json) :
  (json_size v <= String.length (json_dumps v))%nat.
Proof.
  induction v as [ | b | z | f | s | l IH | d IH] using json_ind.
  - simpl; lia.
  - destruct b; simpl; lia.
  - apply int_str_nonempty.
  - apply float_repr_nonempty.
  - simpl; lia.
  - destruct l as [|x l]; [simpl; lia|].
    rewrite json_dumps_list. inversion IH as [|? ? Hx Hl]; subst.
    apply items_size_length in Hl.
    change (json_size (JList (x :: l))) with (S (S (json_size x + items_size l))).
    cbn [String.append String.length]. rewrite !str_length_app.
    cbn [String.length]. lia.
  - destruct d as [|[k x] d]; [simpl; lia|].
    rewrite json_dumps_dict. inversion IH as [|? ? Hx Hd]; subst.
    apply members_size_length in Hd. simpl in Hx.
    change (json_size (JDict ((k, x) :: d)))
      with (S (S (json_size x + members_size d))).
    cbn [String.append String.length]. rewrite !str_length_app.
    cbn [String.length]. rewrite !str_length_app. cbn [String.length]. lia.
Qed.

(** [json.loads(json.dumps(v)) == v] *)
Lemma json_loads_dumps (v : json) :
  json_wf v = true -> json_loads (json_dumps v) = Some v.
Proof.
  intros Hwf. unfold json_loads.
  rewrite <- (str_app_nil_r (json_dumps v)) at 2. rewrite skip_ws_dumps.
  rewrite (parse_dumps v Hwf); [reflexivity | | reflexivity].
  pose proof (json_size_length v). lia.
Qed.

(** ** What the scanner returns is well formed *)

Lemma dict_set_keys {V} (d : dict V) k v :
  map fst (dict_set d k v) =
  if existsb (String.eqb k) (map fst d) then map fst d
  else (map fst d ++ [k])%list.
Proof.
  induction d as [|[k' v'] d IH]; simpl; [reflexivity|].
  rewrite (String.eqb_sym k k').
  destruct (String.eqb_spec k' k) as [->|ne]; simpl; [reflexivity|].
  rewrite IH. now destruct (existsb (String.eqb k) (map fst d)).
Qed.

Lemma dict_set_unique {V} (d : dict V) k v :
  unique_keys (map fst d) = true -> unique_keys (map fst (dict_set d k v)) = true.
Proof.
  intros H. rewrite dict_set_keys.
  destruct (existsb (String.eqb k) (map fst d)) eqn:E; [exact H|].
  apply unique_keys_NoDup. apply unique_keys_NoDup in H.
  apply NoDup_app; [exact H | repeat constructor; simpl; tauto |].
  intros x Hx [Ek|[]]. subst x.
  assert (existsb (String.eqb k) (map fst d) = true)
    by (apply existsb_exists; exists k; split; [exact Hx | apply String.eqb_refl]).
  congruence.
Qed.

Lemma dict_set_forallb {V} (P : V -> bool) (d : dict V) k v :
  forallb (fun kv => P (snd kv)) d = true -> P v = true ->
  forallb (fun kv => P (snd kv)) (dict_set d k v) = true.
Proof.
  intros Hd Hv. induction d as [|[k' v'] d IH]; simpl in *.
  - now rewrite Hv.
  - apply andb_true_iff in Hd as [H1 H2].
    destruct (k' =? k)%string; simpl; [now rewrite Hv | now rewrite H1, IH].
Qed.

Lemma dict_set_wf (d : dict json) k v :
  json_wf (JDict d) = true -> json_wf v = true ->
  json_wf (JDict (dict_set d k v)) = true.
Proof.
  cbn [json_wf]. rewrite !andb_true_iff. intros [H1 H2] Hv. split.
  - now apply dict_set_unique.
  - now apply dict_set_forallb.
Qed.

Lemma dict_of_pairs_wf (ps : list (string * json)) :
  forallb (fun kv => json_wf (snd kv)) ps = true ->
  json_wf (JDict (dict_of_pairs ps)) = true.
Proof.
  unfold dict_of_pairs.
  assert (G : forall acc, json_wf (JDict acc) = true ->
              forallb (fun kv => json_wf (snd kv)) ps = true ->
              json_wf (JDict (fold_left (fun d kv => dict_set d (fst kv) (snd kv))
                                        ps acc)) = true).
  { induction ps as [|[k v] ps IH]; intros acc Ha Hp; simpl in *; [exact Ha|].
    apply andb_true_iff in Hp as [Hv Hp]. apply IH; [|exact Hp].
    now apply dict_set_wf. }
  now apply G.
Qed.

Lemma parse_unsigned_wf neg s v r :
  parse_unsigned neg s = Some (v, r) -> json_wf v = true.
Proof.
  unfold parse_unsigned. destruct s as [|c s]; [discriminate|].
  destruct (is_digit c); [|discriminate].
  destruct (if Ascii.eqb c "0" then _ else _) as [ip r1]. cbv zeta.
  destruct r1 as [|c1 r1]; [intros [= <- _]; reflexivity|].
  destruct (Ascii.eqb_spec c1 "."%char) as [->|ne].
  - destruct (span_digits r1) as [fp r3].
    destruct (uncons_digit _) as [[d u]|]; intros [= <- _]; reflexivity.
  - destruct c1 as [[] [] [] [] [] [] [] []];
      try (intros [= <- _]; reflexivity). now destruct ne.
Qed.

Lemma parse_number_wf s v r :
  parse_number s = Some (v, r) -> json_wf v = true.
Proof.
  unfold parse_number. destruct s as [|c s]; [discriminate|].
  destruct c as [[] [] [] [] [] [] [] []]; apply parse_unsigned_wf.
Qed.

Lemma parse_wf (fuel : nat) :
  (forall s v r, parse_value fuel s = Some (v, r) -> json_wf v = true) /\
  (forall s ps r, parse_members fuel s = Some (ps, r) ->
                  forallb (fun kv => json_wf (snd kv)) ps = true) /\
  (forall s xs r, parse_elems fuel s = Some (xs, r) ->
                  forallb json_wf xs = true).
Proof.
  induction fuel as [|fuel (IHv & IHm & IHe)];
    [repeat split; intros; discriminate|].
  split; [|split].
  - intros s v r. cbn [parse_value]. destruct s as [|c s]; [discriminate|].
    destruct (Ascii.eqb c QUOTE).
    { destruct (scan_string s) as [[t r']|]; intros [= <- _]; reflexivity. }
    destruct (Ascii.eqb c "{").
    { destruct (skip_ws s) as [|c2 r2]; [discriminate|].
      destruct (Ascii.eqb c2 "}"); [intros [= <- _]; reflexivity|].
      destruct (Ascii.eqb c2 QUOTE); [|discriminate].
      destruct (parse_members fuel r2) as [[ps r3]|] eqn:E; [|discriminate].
      intros [= <- _]. apply dict_of_pairs_wf. eapply IHm; eauto. }
    destruct (Ascii.eqb c "[").
    { destruct (skip_ws s) as [|c2 r2]; [discriminate|].
      destruct (Ascii.eqb c2 "]"); [intros [= <- _]; reflexivity|].
      destruct (parse_elems fuel (String c2 r2)) as [[xs r3]|] eqn:E;
        [|discriminate].
      intros [= <- _]. cbn [json_wf]. eapply IHe; eauto. }
    destruct (prefix "null" (String c s)); [intros [= <- _]; reflexivity|].
    destruct (prefix "true" (String c s)); [intros [= <- _]; reflexivity|].
    destruct (prefix "false" (String c s)); [intros [= <- _]; reflexivity|].
    apply parse_number_wf.
  - intros s ps r. cbn [parse_members].
    destruct (scan_string s) as [[k r0]|]; [|discriminate].
    destruct (skip_ws r0) as [|c r1]; [discriminate|].
    destruct (Ascii.eqb c ":"); [|discriminate].
    destruct (parse_value fuel (skip_ws r1)) as [[v r2]|] eqn:Ev; [|discriminate].
    apply IHv in Ev.
    destruct (skip_ws r2) as [|c3 r3]; [discriminate|].
    destruct (Ascii.eqb c3 "}").
    { intros [= <- _]. simpl. now rewrite Ev. }
    destruct (Ascii.eqb c3 ","); [|discriminate].
    destruct (skip_ws r3) as [|c4 r4]; [discriminate|].
    destruct (Ascii.eqb c4 QUOTE); [|discriminate].
    destruct (parse_members fuel r4) as [[ps' r5]|] eqn:Em; [|discriminate].
    intros [= <- _]. simpl. rewrite Ev. eapply IHm; eauto.
  - intros s xs r. cbn [parse_elems].
    destruct (parse_value fuel s) as [[v r0]|] eqn:Ev; [|discriminate].
    apply IHv in Ev.
    destruct (skip_ws r0) as [|c r1]; [discriminate|].
    destruct (Ascii.eqb c "]").
    { intros [= <- _]. simpl. now rewrite Ev. }
    destruct (Ascii.eqb c ","); [|discriminate].
    destruct (parse_elems fuel (skip_ws r1)) as [[xs' r2]|] eqn:Ee; [|discriminate].
    intros [= <- _]. simpl. rewrite Ev. eapply IHe; eauto.
Qed.

Lemma json_loads_wf s v : json_loads s = Some v -> json_wf v = true.
Proof.
  unfold json_loads.
  destruct (parse_value _ _) as [[v' r]|] eqn:E; [|discriminate].
  destruct (skip_ws r =? "")%string; [|discriminate].
  intros [= <-]. eapply (proj1 (parse_wf _)); eauto.
Qed.

(** ** Dictionary lookups *)

Lemma dict_lookup_set_same {V} (d : dict V) k v :
  dict_lookup (dict_set d k v) k = Some v.
Proof.
  induction d as [|[k' v'] d IH]; simpl.
  - now rewrite String.eqb_refl.
  - destruct (String.eqb_spec k' k) as [->|ne]; simpl.
    + now rewrite String.eqb_refl.
    + destruct (String.eqb_spec k' k); [contradiction | exact IH].
Qed.

Lemma dict_lookup_set_other {V} (d : dict V) k k' v :
  k' <> k -> dict_lookup (dict_set d k v) k' = dict_lookup d k'.
Proof.
  intros ne. induction d as [|[k0 v0] d IH]; simpl.
  - destruct (String.eqb_spec k k'); [congruence | reflexivity].
  - destruct (String.eqb_spec k0 k) as [->|ne0]; simpl.
    + destruct (String.eqb_spec k k'); [congruence | reflexivity].
    + now rewrite IH.
Qed.

(** ** StateStore *)

Lemma load_after_save fs path st :
  json_wf st = true -> load_last_state (save_last_state fs path st) path = st.
Proof.
  intros Hwf. unfold load_last_state, save_last_state.
  now rewrite dict_lookup_set_same, json_loads_dumps.
Qed.

Lemma run_state_wf off sample : json_wf (run_state off sample) = true.
Proof. destruct sample; reflexivity. Qed.

(** C9.  For every valid RunState, also one whose last sample is null, and
    every path, loading the state file right after saving the state
    recovers the state. *)
Theorem state_store_roundtrip :
  forall (fs : dict string) (path : string) (st : json),
    valid_RunState st ->
    load_last_state (save_last_state fs path st) path = st.
Proof.
  intros fs path st (off & sample & _ & ->).
  apply load_after_save, run_state_wf.
Qed.

Lemma state_store_roundtrip_witness :
  load_last_state (save_last_state [] "monitor_state.json" (run_state 0 None))
                  "monitor_state.json" = run_state 0 None.
Proof.
  apply (state_store_roundtrip [] "monitor_state.json" (run_state 0 None)).
  exists 0%Z, None. split; [lia | reflexivity].
Defined.

Lemma load_last_state_wf fs path : json_wf (load_last_state fs path) = true.
Proof.
  unfold load_last_state. destruct (dict_lookup fs path) as [content|]; [|reflexivity].
  destruct (json_loads content) eqn:E; [|reflexivity].
  now apply json_loads_wf in E.
Qed.

Lemma snapshot_json_wf snap : json_wf (snapshot_json snap) = true.
Proof. reflexivity. Qed.

Lemma new_state_wf d new_pos snap :
  json_wf (JDict d) = true -> json_wf (JDict (new_state d new_pos snap)) = true.
Proof.
  intros H. unfold new_state. apply dict_set_wf; [|apply snapshot_json_wf].
  now apply dict_set_wf.
Qed.

(** ** The phases of a cycle *)

Lemma run_once_phases cfg env w :
  run_once cfg env w =
  ('(snap, d, new_pos, hits) <- observe cfg env ;;
   dispatch cfg env snap hits ;;;
   persist cfg d new_pos snap) w.
Proof.
  unfold run_once, observe, dispatch, persist, bind, get_files, metrics_snapshot,
    lift, state_file_of, log_file_of, cycle_alerts, new_state.
  destruct (env_psutil env) as [snap|e]; [|reflexivity].
  cbn [logging files].
  destruct (as_dict _) as [d|e]; [|reflexivity].
  destruct (tail_log _ _ _ _ _) as [[lines new_pos]|e]; reflexivity.
Qed.

(** ** Computations that keep the files *)

Lemma keeps_ret {A} (a : A) : keeps_files (ret a).
Proof. intros w; reflexivity. Qed.

Lemma keeps_raise {A} (e : exn) : keeps_files (@raise A e).
Proof. intros w; reflexivity. Qed.

Lemma keeps_lift {A} (r : result A) : keeps_files (lift r).
Proof. intros w; reflexivity. Qed.

Lemma keeps_logging lvl msg : keeps_files (logging lvl msg).
Proof. intros w; reflexivity. Qed.

Lemma keeps_smtp_step a : keeps_files (smtp_step a).
Proof. intros w; destruct a; reflexivity. Qed.

Lemma keeps_smtp_deliver d : keeps_files (smtp_deliver d).
Proof. intros w; reflexivity. Qed.

Lemma keeps_bind {A B} (c : M A) (k : A -> M B) :
  keeps_files c -> (forall a, keeps_files (k a)) -> keeps_files (bind c k).
Proof.
  intros Hc Hk w. unfold bind. specialize (Hc w).
  destruct (c w) as [w' [a|e]]; simpl in *; [|exact Hc].
  now rewrite Hk.
Qed.

Lemma keeps_try {A} (body : M A) (handler : exn -> M A) :
  keeps_files body -> (forall e, keeps_files (handler e)) ->
  keeps_files (try_except body handler).
Proof.
  intros Hb Hh w. unfold try_except. specialize (Hb w).
  destruct (body w) as [w' [a|e]]; simpl in *; [exact Hb|].
  destruct (is_Exception e); simpl; [now rewrite Hh | exact Hb].
Qed.

Lemma keeps_if {A} (b : bool) (c1 c2 : M A) :
  keeps_files c1 -> keeps_files c2 -> keeps_files (if b then c1 else c2).
Proof. now destruct b. Qed.

Ltac keeps :=
  repeat first
    [ apply keeps_bind; [|intros ?]
    | apply keeps_try; [|intros ?]
    | apply keeps_if
    | apply keeps_ret | apply keeps_raise | apply keeps_lift
    | apply keeps_logging | apply keeps_smtp_step | apply keeps_smtp_deliver ].

Lemma keeps_send_email header net smtp subject body :
  keeps_files (send_email header net smtp subject body).
Proof. unfold send_email. keeps. Qed.

Lemma keeps_dispatch cfg env snap hits :
  keeps_files (dispatch cfg env snap hits).
Proof.
  unfold dispatch. cbv zeta. apply keeps_if; [|apply keeps_logging].
  apply keeps_bind; [apply keeps_lift | intros smtp].
  apply keeps_bind; [apply keeps_send_email | intros; apply keeps_logging].
Qed.

(** ** The headers of the message *)

Lemma send_email_raises header net smtp subject body e w :
  header_error header smtp subject = Some e ->
  send_email header net smtp subject body w = (w, Raise e).
Proof.
  unfold header_error, send_email, to_header, bind, lift.
  destruct (smtp_from smtp) as [from|]; cbn [require]; [|now intros [= <-]].
  destruct (set_header header "From" from); [|now intros [= <-]].
  destruct (smtp_to smtp) as [to|]; cbn [require]; [|now intros [= <-]].
  destruct (set_header header "To" _); [|now intros [= <-]].
  destruct (set_header header "Subject" subject); [discriminate | now intros [= <-]].
Qed.

Lemma send_email_session header net smtp subject body from to w :
  header_error header smtp subject = None ->
  smtp_from smtp = Some from -> smtp_to smtp = Some to ->
  send_email header net smtp subject body w =
  mail_session net smtp (mkemail from (to_header to) subject body)
               (shown_to header smtp) w.
Proof.
  unfold header_error, shown_to, send_email, to_header, bind, lift.
  intros H Hf Ht. rewrite Hf, Ht in *. cbn [require].
  destruct (set_header header "From" from); [|discriminate].
  destruct (set_header header "To" _); [|discriminate].
  destruct (set_header header "Subject" subject); [|discriminate].
  reflexivity.
Qed.

Lemma header_error_None header smtp subject :
  header_error header smtp subject = None ->
  exists from to, smtp_from smtp = Some from /\ smtp_to smtp = Some to.
Proof.
  unfold header_error. destruct (smtp_from smtp) as [from|]; [|discriminate].
  destruct (set_header header "From" from); [|discriminate].
  destruct (smtp_to smtp) as [to|]; [|discriminate]. eauto.
Qed.

(** ** The cycle *)

Lemma observe_inv cfg env w w1 snap d new_pos hits :
  observe cfg env w = (w1, Ok (snap, d, new_pos, hits)) ->
  env_psutil env = Ok snap /\
  load_last_state (files w) (state_file_of cfg) = JDict d /\
  (exists lines,
      tail_log (env_max_offset env) (files w) (log_file_of cfg)
               (dict_get d "log_pos" (JInt 0)) 200000 = Ok (lines, new_pos)) /\
  files w1 = files w /\ outbox w1 = outbox w.
Proof.
  unfold observe, bind, get_files, metrics_snapshot, lift.
  destruct (env_psutil env) as [snap'|e]; [|discriminate].
  cbn [logging files].
  destruct (load_last_state _ _) as [ | | | | | |d']; try discriminate.
  cbn [as_dict].
  destruct (tail_log _ _ _ _ _) as [[lines new_pos']|e] eqn:E; [|discriminate].
  cbn [ret]. intros [= <- <- <- <- <-].
  repeat split; eauto.
Qed.

Lemma observe_env cfg env env' w :
  env_psutil env' = env_psutil env ->
  env_max_offset env' = env_max_offset env ->
  observe cfg env' w = observe cfg env w.
Proof.
  intros H H'. unfold observe, bind, metrics_snapshot. now rewrite H, H'.
Qed.

Lemma persist_ok cfg d new_pos snap w :
  persist cfg d new_pos snap w =
  (mkworld (save_last_state (files w) (state_file_of cfg)
              (JDict (new_state d new_pos snap)))
           (oplog w) (outbox w), Ok tt).
Proof. reflexivity. Qed.

Lemma run_once_ok cfg env w w' :
  run_once cfg env w = (w', Ok tt) ->
  exists snap d lines new_pos,
    env_psutil env = Ok snap /\
    load_last_state (files w) (state_file_of cfg) = JDict d /\
    tail_log (env_max_offset env) (files w) (log_file_of cfg)
             (dict_get d "log_pos" (JInt 0)) 200000 = Ok (lines, new_pos) /\
    files w' = save_last_state (files w) (state_file_of cfg)
                 (JDict (new_state d new_pos snap)).
Proof.
  rewrite run_once_phases. unfold bind at 1.
  destruct (observe cfg env w) as [w1 [[[[snap d] new_pos] hits]|e]] eqn:Eo;
    [|discriminate].
  apply observe_inv in Eo as (Hs & Hl & (lines & Ht) & Hf & _).
  unfold bind.
  pose proof (keeps_dispatch cfg env snap hits w1) as Hk.
  destruct (dispatch cfg env snap hits w1) as [w2 [[]|e]]; [|discriminate].
  rewrite persist_ok. intros [= <-]. simpl in *.
  exists snap, d, lines, new_pos. repeat split; auto. congruence.
Qed.

Lemma keeps_get_files : keeps_files get_files.
Proof. intros w; reflexivity. Qed.

Lemma keeps_observe cfg env : keeps_files (observe cfg env).
Proof.
  unfold observe, metrics_snapshot.
  apply keeps_bind; [apply keeps_get_files | intros fs].
  apply keeps_bind; [apply keeps_lift | intros snap].
  apply keeps_bind; [apply keeps_logging | intros _].
  apply keeps_bind; [apply keeps_lift | intros d].
  apply keeps_bind; [apply keeps_lift | intros [lines new_pos]].
  apply keeps_bind; [apply keeps_logging | intros _]. apply keeps_ret.
Qed.

(** A cycle that raises has not touched the files. *)
Lemma run_once_raise cfg env w w' e :
  run_once cfg env w = (w', Raise e) -> files w' = files w.
Proof.
  rewrite run_once_phases. unfold bind at 1.
  pose proof (keeps_observe cfg env w) as Ho.
  destruct (observe cfg env w) as [w1 [[[[snap d] new_pos] hits]|e0]];
    [|intros [= <- _]; exact Ho].
  unfold bind.
  pose proof (keeps_dispatch cfg env snap hits w1) as Hk.
  destruct (dispatch cfg env snap hits w1) as [w2 [[]|e0]].
  - rewrite persist_ok. discriminate.
  - intros [= <- _]. simpl in *. congruence.
Qed.

Lemma tail_log_offset lim fs path pos max_bytes lines new_pos :
  tail_log lim fs path pos max_bytes = Ok (lines, new_pos) ->
  match dict_lookup fs path with
  | Some _ => exists old, as_index pos = Ok old /\ (0 <= old <= new_pos)%Z
  | None => new_pos = 0%Z
  end.
Proof.
  unfold tail_log. destruct (dict_lookup fs path) as [content|];
    [|now intros [= _ <-]].
  unfold read_from. destruct (as_index pos) as [old|e]; [|discriminate].
  destruct (_ || _); [discriminate|].
  destruct (Z.ltb_spec old 0); [discriminate|]. cbn [orb].
  destruct (_ <? _)%Z; [discriminate|].
  destruct (max_bytes <? -1)%Z; [discriminate|].
  intros [= _ <-]. exists old. split; [reflexivity | lia].
Qed.

Lemma loaded_offset_new_state fs path d new_pos snap :
  json_wf (JDict d) = true ->
  loaded_offset (save_last_state fs path (JDict (new_state d new_pos snap))) path
  = Some new_pos.
Proof.
  intros Hwf. unfold loaded_offset.
  rewrite load_after_save by now apply new_state_wf.
  unfold new_state, dict_get.
  rewrite dict_lookup_set_other by discriminate.
  now rewrite dict_lookup_set_same.
Qed.

(** C4 (amended).  After every successful cycle the persisted [log_pos] is a
    non-negative integer.  When the log file exists at the start of the
    cycle, the offset loaded at the start is a non-negative integer too and
    the offset saved at the end is greater than or equal to it.  When the
    log file does not exist the offset saved is 0, whatever was loaded. *)
Theorem log_offset_after_cycle :
  forall (cfg : config) (env : cycle_env) (w w' : world),
    run_once cfg env w = (w', Ok tt) ->
    exists new : Z,
      loaded_offset (files w') (state_file_of cfg) = Some new /\
      (0 <= new)%Z /\
      match dict_lookup (files w) (log_file_of cfg) with
      | Some _ =>
          exists old : Z,
            loaded_offset (files w) (state_file_of cfg) = Some old /\
            (0 <= old <= new)%Z
      | None => new = 0%Z
      end.
Proof.
  intros cfg env w w' H.
  apply run_once_ok in H as (snap & d & lines & new_pos & _ & Hl & Ht & Hf).
  exists new_pos. rewrite Hf.
  assert (Hwf : json_wf (JDict d) = true)
    by (rewrite <- Hl; apply load_last_state_wf).
  split; [now apply loaded_offset_new_state|].
  apply tail_log_offset in Ht.
  destruct (dict_lookup (files w) (log_file_of cfg)).
  - destruct Ht as (old & Ho & Hle). split; [lia|]. exists old.
    split; [|exact Hle]. unfold loaded_offset. now rewrite Hl, Ho.
  - split; [lia | exact Ht].
Qed.

(** C10.  For every cycle on plain inputs whose state file holds a JSON
    object, [run_once] modifies only the [log_pos] and [last_snapshot]
    entries of the persisted state: after a cycle that completes, the state
    file holds the dump of an object in which every other key of the object
    read at the start has the value it had (and no other key has
    appeared), [log_pos] is an integer and [last_snapshot] is the sample of
    the cycle; a cycle that raises has written to no file but the
    operational log. *)
Theorem run_once_frame :
  forall (cfg : config) (env : cycle_env) (w w' : world) (r : result unit)
         (content : string) (d : dict json),
    plain_inputs cfg w = true ->
    dict_lookup (files w) (state_file_of cfg) = Some content ->
    json_loads content = Some (JDict d) ->
    run_once cfg env w = (w', r) ->
    match r with
    | Ok _ =>
        exists (d' : dict json) (new_pos : Z) (snap : snapshot),
          dict_lookup (files w') (state_file_of cfg) =
            Some (json_dumps (JDict d')) /\
          (forall k : string,
              k <> "log_pos" -> k <> "last_snapshot" ->
              dict_lookup d' k = dict_lookup d k) /\
          dict_lookup d' "log_pos" = Some (JInt new_pos) /\
          env_psutil env = Ok snap /\
          dict_lookup d' "last_snapshot" = Some (snapshot_json snap)
    | Raise _ => files w' = files w
    end.
Proof.
  intros cfg env w w' [[]|e] content d _ Hc Hj H; [|now apply run_once_raise in H].
  apply run_once_ok in H as (snap & d0 & lines & new_pos & Hs & Hl & _ & Hf).
  unfold load_last_state in Hl. rewrite Hc, Hj in Hl. injection Hl as <-.
  exists (new_state d new_pos snap), new_pos, snap.
  split; [rewrite Hf; apply dict_lookup_set_same|].
  unfold new_state. split; [|split; [|split]].
  - intros k H1 H2. now rewrite !dict_lookup_set_other by assumption.
  - rewrite dict_lookup_set_other by discriminate. apply dict_lookup_set_same.
  - exact Hs.
  - apply dict_lookup_set_same.
Qed.

Lemma mail_session_delivered net smtp msg shown w1 w2 :
  mail_session net smtp msg shown w1 = (w2, Ok tt) ->
  outbox w2 <> outbox w1 ->
  exists server, smtp_server smtp = Some server.
Proof.
  unfold mail_session. destruct (smtp_server smtp) as [server|]; [eauto|].
  cbn. intros [= <-] H. now destruct H.
Qed.

Lemma dispatch_delivered cfg env snap hits w1 w2 :
  dispatch cfg env snap hits w1 = (w2, Ok tt) ->
  outbox w2 <> outbox w1 ->
  nonempty (cycle_alerts cfg snap hits) = true /\
  exists smtp server,
    cfg_smtp cfg = Some smtp /\ smtp_server smtp = Some server /\
    header_error (env_header env) smtp
      (get_or (cfg_alert_subject cfg) "ALERT: Linux Monitor") = None.
Proof.
  unfold dispatch. cbv zeta.
  destruct (nonempty (cycle_alerts cfg snap hits));
    [|intros [= <-] H; now destruct H].
  destruct (cfg_smtp cfg) as [smtp|] eqn:Ec; [|cbn; intros [=]].
  unfold bind at 1. cbn [lift require]. unfold bind at 1.
  destruct (header_error (env_header env) smtp
              (get_or (cfg_alert_subject cfg) "ALERT: Linux Monitor"))
    as [e|] eqn:Eh.
  - rewrite (send_email_raises _ _ _ _ _ _ _ Eh). discriminate.
  - destruct (header_error_None _ _ _ Eh) as (from & to & Hf & Ht).
    rewrite (send_email_session _ _ _ _ _ _ _ _ Eh Hf Ht).
    destruct (mail_session _ _ _ _ w1) as [w1' [[]|e]] eqn:Em; [|discriminate].
    cbn [logging]. intros [= <-] Hout. cbn [outbox] in Hout.
    destruct (mail_session_delivered _ _ _ _ _ _ Em Hout) as [server Hs].
    split; [reflexivity|]. exists smtp, server. auto.
Qed.

Lemma mail_session_failure net smtp msg shown server e w :
  smtp_server smtp = Some server ->
  session_failure smtp net = Some e -> is_Exception e = true ->
  exists w', mail_session net smtp msg shown w = (w', Ok tt) /\
             files w' = files w /\
             In (mklog ERROR ("Failed to send alert email: " ++ exn_str e))
                (oplog w').
Proof.
  intros Hs He Hex. unfold mail_session, session_failure in *.
  rewrite Hs. destruct net as [c s l sd q]. cbn in He.
  destruct (get_or (smtp_use_tls smtp) true), (truthy (smtp_username smtp)),
    c as [c|], s as [s|], l as [l|], sd as [sd|], q as [q|];
    cbn in He; try discriminate He; injection He as ->;
    cbn; rewrite Hex; cbn; eexists; (split; [reflexivity|]);
    (split; [reflexivity|]); cbn; apply in_or_app; right; now left.
Qed.

Lemma dispatch_failure cfg env net snap hits smtp server e w1 :
  nonempty (cycle_alerts cfg snap hits) = true ->
  cfg_smtp cfg = Some smtp ->
  smtp_server smtp = Some server ->
  header_error (env_header env) smtp
    (get_or (cfg_alert_subject cfg) "ALERT: Linux Monitor") = None ->
  session_failure smtp net = Some e -> is_Exception e = true ->
  exists w2, dispatch cfg (with_net env net) snap hits w1 = (w2, Ok tt) /\
             files w2 = files w1 /\
             In (mklog ERROR ("Failed to send alert email: " ++ exn_str e))
                (oplog w2).
Proof.
  intros Ha Hc Hs Hh He Hex.
  unfold dispatch. cbv zeta. rewrite Ha, Hc.
  cbn [require lift env_net env_header with_net].
  unfold bind at 1. cbn [lift]. unfold bind.
  destruct (header_error_None _ _ _ Hh) as (from & to & Hf & Ht).
  rewrite (send_email_session _ _ _ _ _ _ _ _ Hh Hf Ht).
  destruct (mail_session_failure net smtp
              (mkemail from (to_header to)
                 (get_or (cfg_alert_subject cfg) "ALERT: Linux Monitor")
                 (join (str1 LF)
                    ["Timestamp: " ++ env_ctime (with_net env net);
                     humanize_snapshot snap; "Alerts:";
                     join (str1 LF) (cycle_alerts cfg snap hits); "";
                     "Recent matching log lines:";
                     join (str1 LF) (firstn 50 hits)]))
              (shown_to (env_header env) smtp) server e w1 Hs He Hex)
    as (w' & E & Hfl & Hin).
  rewrite E. cbn [logging]. eexists. split; [reflexivity|]. cbn [files oplog].
  split; [exact Hfl|]. unfold py_append. apply in_or_app. now left.
Qed.

(** C1.  Take a cycle on plain inputs that composes an alert and dispatches
    it.  If instead the notification transport fails during the session
    (connection, authentication, time-out: any exception that
    [except Exception] catches), the cycle is not aborted: it completes,
    the error is written to the operational log, and the state is saved as
    after the successful dispatch: the state file holds the dump of the
    state read at the start with [log_pos] set to the offset that
    [tail_log] returned in this cycle and [last_snapshot] set to the sample
    of this cycle, and all files are those of the cycle with the successful
    dispatch. *)
Theorem dispatch_failure_keeps_cycle :
  forall (cfg : config) (env : cycle_env) (smtp : smtp_config)
         (bad : smtp_net) (e : exn) (w w_ok : world),
    plain_inputs cfg w = true ->
    run_once cfg env w = (w_ok, Ok tt) ->
    outbox w_ok <> outbox w ->
    cfg_smtp cfg = Some smtp ->
    session_failure smtp bad = Some e ->
    is_Exception e = true ->
    exists (w_bad : world) (d : dict json) (snap : snapshot)
           (lines : list string) (new_pos : Z),
      run_once cfg (with_net env bad) w = (w_bad, Ok tt) /\
      In (mklog ERROR ("Failed to send alert email: " ++ exn_str e)) (oplog w_bad) /\
      env_psutil env = Ok snap /\
      load_last_state (files w) (state_file_of cfg) = JDict d /\
      tail_log (env_max_offset env) (files w) (log_file_of cfg)
               (dict_get d "log_pos" (JInt 0)) 200000 = Ok (lines, new_pos) /\
      dict_lookup (files w_bad) (state_file_of cfg) =
        Some (json_dumps
                (JDict (dict_set (dict_set d "log_pos" (JInt new_pos))
                                 "last_snapshot" (snapshot_json snap)))) /\
      files w_bad = files w_ok.
Proof.
  intros cfg env smtp bad e w w_ok _ Hok Hout Hc He Hex.
  rewrite run_once_phases in *. unfold bind at 1 in Hok. unfold bind at 1.
  rewrite (observe_env cfg env (with_net env bad) w eq_refl eq_refl).
  destruct (observe cfg env w) as [w1 [[[[snap d] new_pos] hits]|e0]] eqn:Eo;
    [|discriminate].
  apply observe_inv in Eo as (Hs & Hl & (lines & Ht) & Hf1 & Ho1).
  unfold bind in *.
  pose proof (keeps_dispatch cfg env snap hits w1) as Hk.
  destruct (dispatch cfg env snap hits w1) as [w2 [[]|e0]] eqn:Ed; [|discriminate].
  rewrite persist_ok in Hok. injection Hok as <-. cbn [outbox files fst] in *.
  destruct (dispatch_delivered _ _ _ _ _ _ Ed ltac:(congruence))
    as (Ha & smtp' & server & Hc' & Hsv & Hh).
  rewrite Hc in Hc'. injection Hc' as <-.
  destruct (dispatch_failure cfg env bad snap hits smtp server e w1 Ha Hc
              Hsv Hh He Hex) as (w2' & Ed' & Hf' & Hin).
  rewrite Ed', persist_ok.
  eexists _, d, snap, lines, new_pos. split; [reflexivity|]. cbn [files oplog].
  split; [exact Hin|]. split; [exact Hs|]. split; [exact Hl|].
  split; [exact Ht|]. split; [|congruence].
  unfold save_last_state, new_state. apply dict_lookup_set_same.
Qed.

Lemma dispatch_failure_keeps_cycle_witness :
  exists (w_bad : world) (d : dict json) (snap : snapshot)
         (lines : list string) (new_pos : Z),
    run_once ex_cfg (with_net ex_env net_down) ex_world = (w_bad, Ok tt) /\
    In (mklog ERROR ("Failed to send alert email: " ++
                     exn_str (OSError "[Errno 111] Connection refused")))
       (oplog w_bad) /\
    env_psutil ex_env = Ok snap /\
    load_last_state (files ex_world) (state_file_of ex_cfg) = JDict d /\
    tail_log (env_max_offset ex_env) (files ex_world) (log_file_of ex_cfg)
             (dict_get d "log_pos" (JInt 0)) 200000 = Ok (lines, new_pos) /\
    dict_lookup (files w_bad) (state_file_of ex_cfg) =
      Some (json_dumps
              (JDict (dict_set (dict_set d "log_pos" (JInt new_pos))
                               "last_snapshot" (snapshot_json snap)))) /\
    files w_bad = files (fst (run_once ex_cfg ex_env ex_world)).
Proof.
  apply (dispatch_failure_keeps_cycle ex_cfg ex_env ex_smtp net_down
           (OSError "[Errno 111] Connection refused") ex_world
           (fst (run_once ex_cfg ex_env ex_world))).
  - vm_compute. reflexivity.
  - vm_compute. reflexivity.
  - vm_compute. discriminate.
  - reflexivity.
  - reflexivity.
  - reflexivity.
Defined.

Lemma log_offset_after_cycle_witness :
  exists new : Z,
    loaded_offset (files (fst (run_once ex_cfg ex_env ex_world)))
                  (state_file_of ex_cfg) = Some new /\
    (0 <= new)%Z /\
    match dict_lookup (files ex_world) (log_file_of ex_cfg) with
    | Some _ =>
        exists old : Z,
          loaded_offset (files ex_world) (state_file_of ex_cfg) = Some old /\
          (0 <= old <= new)%Z
    | None => new = 0%Z
    end.
Proof.
  apply (log_offset_after_cycle ex_cfg ex_env ex_world
           (fst (run_once ex_cfg ex_env ex_world))).
  vm_compute. reflexivity.
Defined.

(** C4 as stated fails: with the log file away the saved offset is 0, below
    the offset that was loaded. *)
Lemma log_offset_not_monotone :
  ~ (forall (cfg : config) (env : cycle_env) (w w' : world) (old new : Z),
        run_once cfg env w = (w', Ok tt) ->
        loaded_offset (files w) (state_file_of cfg) = Some old ->
        loaded_offset (files w') (state_file_of cfg) = Some new ->
        (old <= new)%Z).
Proof.
  intros H.
  specialize (H ex_cfg ex_env ex_world_rotated
                (fst (run_once ex_cfg ex_env ex_world_rotated)) 5%Z 0%Z).
  assert (C : (5 <= 0)%Z) by (apply H; vm_compute; reflexivity).
  lia.
Qed.

Lemma run_once_frame_witness :
  exists (d' : dict json) (new_pos : Z) (snap : snapshot),
    dict_lookup (files (fst (run_once ex_cfg ex_env ex_world_extra)))
                (state_file_of ex_cfg) = Some (json_dumps (JDict d')) /\
    (forall k : string,
        k <> "log_pos" -> k <> "last_snapshot" ->
        dict_lookup d' k =
        dict_lookup [("log_pos", JInt 3); ("host", JStr "web-1")] k) /\
    dict_lookup d' "log_pos" = Some (JInt new_pos) /\
    env_psutil ex_env = Ok snap /\
    dict_lookup d' "last_snapshot" = Some (snapshot_json snap).
Proof.
  apply (run_once_frame ex_cfg ex_env ex_world_extra
           (fst (run_once ex_cfg ex_env ex_world_extra)) (Ok tt)
           (json_dumps (JDict [("log_pos", JInt 3); ("host", JStr "web-1")]))
           [("log_pos", JInt 3); ("host", JStr "web-1")]).
  - vm_compute. reflexivity.
  - reflexivity.
  - vm_compute. reflexivity.
  - vm_compute. reflexivity.
Defined.

(** ** Scheduler *)

Lemma run_loop_more cfg sched k :
  forall n i w w',
    run_loop cfg sched i n w = (w', Looping) ->
    run_loop cfg sched i (n + k) w = run_loop cfg sched (i + n) k w'.
Proof.
  induction n as [|n IH]; intros i w w' H.
  - simpl in H. injection H as ->. now rewrite Nat.add_0_r.
  - cbn [run_loop Nat.add] in *.
    destruct (run_once cfg (tick_env (sched i)) w) as [w1 [[]|e]];
      [|discriminate].
    destruct (tick_interrupt (sched i)); [discriminate|].
    rewrite (IH _ _ _ H). f_equal. lia.
Qed.

Lemma run_once_unreadable cfg env e w :
  env_psutil env = Raise e -> run_once cfg env w = (w, Raise e).
Proof.
  intros H. unfold run_once, bind, get_files, metrics_snapshot, lift.
  now rewrite H.
Qed.

(** C5 (amended).  In interval mode, when the metrics source is unreadable
    in a cycle, that cycle aborts with nothing persisted (the world is the
    one the previous turns left), the exception leaves the loop of [main]
    and ends the process: however long the run is observed, no later cycle
    is started. *)
Theorem scheduler_stops_on_collection_error :
  forall (a : args) (cfg : config) (sched : nat -> tick) (n fuel : nat)
         (w w_n : world) (e : exn),
    arg_once a = false ->
    (0 < arg_interval a)%Z ->
    run_loop cfg sched 0 n (started a w) = (w_n, Looping) ->
    env_psutil (tick_env (sched n)) = Raise e ->
    e <> KeyboardInterrupt ->
    (n < fuel)%nat ->
    main a (Ok cfg) sched fuel w = (w_n, Crashed e).
Proof.
  intros a cfg sched n fuel w w_n e Ho Hi Hn He Hk Hf.
  unfold main. rewrite Ho. destruct (Z.leb_spec (arg_interval a) 0); [lia|].
  cbn [orb]. fold (started a w).
  replace (logging INFO ("Starting monitor with config " ++ arg_config a) w)
    with (started a w, Ok tt) by reflexivity.
  replace fuel with (n + S (fuel - S n))%nat by lia.
  rewrite (run_loop_more _ _ _ _ _ _ _ Hn). cbn [run_loop Nat.add].
  rewrite (run_once_unreadable _ _ _ _ He).
  destruct e; try reflexivity. now destruct Hk.
Qed.

Lemma scheduler_stops_on_collection_error_witness :
  main ex_args (Ok ex_cfg) (ex_schedule 1) 5 ex_world =
  (fst (run_loop ex_cfg (ex_schedule 1) 0 1 (started ex_args ex_world)),
   Crashed (PsutilError "cannot read /proc/stat")).
Proof.
  apply (scheduler_stops_on_collection_error ex_args ex_cfg (ex_schedule 1) 1 5
           ex_world _ (PsutilError "cannot read /proc/stat")).
  - reflexivity.
  - reflexivity.
  - vm_compute. reflexivity.
  - reflexivity.
  - discriminate.
  - lia.
Defined.

(** C5 as stated fails: an unreadable metrics source in the first cycle ends
    the process although the later turns would have succeeded. *)
Lemma scheduler_crashes_on_collection_error :
  ~ (forall (a : args) (cfg : config) (sched : nat -> tick) (fuel : nat)
            (w : world) (e : exn),
        arg_once a = false -> (0 < arg_interval a)%Z ->
        env_psutil (tick_env (sched 0%nat)) = Raise e ->
        is_Exception e = true ->
        forall e', snd (main a (Ok cfg) sched fuel w) <> Crashed e').
Proof.
  intros H.
  apply (H ex_args ex_cfg (ex_schedule 0) 3%nat ex_world
           (PsutilError "cannot read /proc/stat")
           eq_refl eq_refl eq_refl eq_refl
           (PsutilError "cannot read /proc/stat")).
  vm_compute. reflexivity.
Qed.

(** ** More fuel does not change a result *)

Lemma parse_fuel_S (fuel : nat) :
  (forall s r, parse_value fuel s = Some r -> parse_value (S fuel) s = Some r) /\
  (forall s r, parse_members fuel s = Some r -> parse_members (S fuel) s = Some r) /\
  (forall s r, parse_elems fuel s = Some r -> parse_elems (S fuel) s = Some r).
Proof.
  induction fuel as [|fuel (IHv & IHm & IHe)];
    [repeat split; intros; discriminate|].
  split; [|split].
  - intros s r. remember (S fuel) as f eqn:Hf.
    rewrite Hf at 1. cbn [parse_value]. destruct s as [|c s]; [discriminate|].
    destruct (Ascii.eqb c QUOTE); [auto|].
    destruct (Ascii.eqb c "{").
    { destruct (skip_ws s) as [|c2 r2]; [discriminate|].
      destruct (Ascii.eqb c2 "}"); [auto|].
      destruct (Ascii.eqb c2 QUOTE); [|discriminate].
      destruct (parse_members fuel r2) as [[ps r3]|] eqn:E; [|discriminate].
      apply IHm in E. now rewrite E. }
    destruct (Ascii.eqb c "[").
    { destruct (skip_ws s) as [|c2 r2]; [discriminate|].
      destruct (Ascii.eqb c2 "]"); [auto|].
      destruct (parse_elems fuel (String c2 r2)) as [[xs r3]|] eqn:E;
        [|discriminate].
      apply IHe in E. now rewrite E. }
    auto.
  - intros s r. remember (S fuel) as f eqn:Hf.
    rewrite Hf at 1. cbn [parse_members].
    destruct (scan_string s) as [[k r0]|]; [|discriminate].
    destruct (skip_ws r0) as [|c r1]; [discriminate|].
    destruct (Ascii.eqb c ":"); [|discriminate].
    destruct (parse_value fuel (skip_ws r1)) as [[v r2]|] eqn:Ev; [|discriminate].
    apply IHv in Ev. rewrite Ev.
    destruct (skip_ws r2) as [|c3 r3]; [discriminate|].
    destruct (Ascii.eqb c3 "}"); [auto|].
    destruct (Ascii.eqb c3 ","); [|discriminate].
    destruct (skip_ws r3) as [|c4 r4]; [discriminate|].
    destruct (Ascii.eqb c4 QUOTE); [|discriminate].
    destruct (parse_members fuel r4) as [[ps' r5]|] eqn:Em; [|discriminate].
    apply IHm in Em. now rewrite Em.
  - intros s r. remember (S fuel) as f eqn:Hf.
    rewrite Hf at 1. cbn [parse_elems].
    destruct (parse_value fuel s) as [[v r0]|] eqn:Ev; [|discriminate].
    apply IHv in Ev. rewrite Ev.
    destruct (skip_ws r0) as [|c r1]; [discriminate|].
    destruct (Ascii.eqb c "]"); [auto|].
    destruct (Ascii.eqb c ","); [|discriminate].
    destruct (parse_elems fuel (skip_ws r1)) as [[xs' r2]|] eqn:Ee; [|discriminate].
    apply IHe in Ee. now rewrite Ee.
Qed.

Lemma parse_value_fuel_le fuel fuel' s r :
  (fuel <= fuel')%nat ->
  parse_value fuel s = Some r -> parse_value fuel' s = Some r.
Proof.
  induction 1 as [|m Hle IH]; [auto|].
  intros H. apply (proj1 (parse_fuel_S m)). auto.
Qed.

(** A value that parses at all parses back to itself. *)
Lemma parse_dumps_any_fuel v fuel t r :
  json_wf v = true -> ends_value t = true ->
  parse_value fuel (json_dumps v ++ t) = Some r -> r = (v, t).
Proof.
  intros Hwf Ht H.
  apply (parse_value_fuel_le fuel (Nat.max fuel (json_size v))) in H; [|lia].
  rewrite (parse_dumps v Hwf) in H by (auto; lia). congruence.
Qed.

(** ** Cutting a concatenation *)

Lemma app_cut (p q a b : string) :
  p ++ q = a ++ b ->
  (exists t, p = a ++ t /\ b = t ++ q) \/
  (exists t, t <> "" /\ a = p ++ t /\ q = t ++ b).
Proof.
  revert a; induction p as [|c p IH]; intros a H.
  - destruct a as [|x a].
    + left. exists "". auto.
    + right. exists (String x a). repeat split; [discriminate | exact H].
  - destruct a as [|x a].
    + left. exists (String c p). split; [reflexivity | now symmetry].
    + cbn [String.append] in H. injection H as -> H.
      destruct (IH a H) as [(t & -> & ->)|(t & Ht & -> & ->)].
      * left. now exists t.
      * right. now exists t.
Qed.

Lemma app_eq_nil_l (p q : string) : p ++ q = "" -> p = "".
Proof. now destruct p. Qed.

Lemma cut_single (c : ascii) (p q rest : string) :
  String c rest = p ++ q ->
  p = "" \/ exists p', p = String c p' /\ rest = p' ++ q.
Proof.
  destruct p as [|x p]; [now left|].
  cbn [String.append]. intros [= <- ->]. right. now exists p.
Qed.

(** ** Strings cut short *)

Lemma scan_escape_char_cut (c : ascii) (n : nat) :
  (n < String.length (json_escape_char c))%nat ->
  scan_string (take n (json_escape_char c)) = None.
Proof.
  destruct c as [[] [] [] [] [] [] [] []];
    destruct n as [|[|[|[|[|[|n]]]]]]; intros H;
    try reflexivity; exfalso; vm_compute in H; lia.
Qed.

Lemma take_prefix (p q : string) : take (String.length p) (p ++ q) = p.
Proof. induction p as [|c p IH]; simpl; [now destruct q | now rewrite IH]. Qed.

Lemma scan_json_escape_cut (s p q : string) :
  json_escape s ++ str1 QUOTE = p ++ q -> q <> "" -> scan_string p = None.
Proof.
  revert p; induction s as [|c s IH]; intros p H Hq.
  - destruct (cut_single _ _ _ _ H) as [->|(p' & -> & E)]; [reflexivity|].
    symmetry in E. apply app_eq_nil_l in E as E'. subst p'. simpl in E.
    congruence.
  - cbn [json_escape] in H. rewrite str_app_assoc in H. symmetry in H.
    destruct (app_cut _ _ _ _ H) as [(t & -> & E)|(t & Ht & E & _)].
    + rewrite scan_escape_char. now rewrite (IH t E Hq).
    + rewrite <- (take_prefix p t), <- E. apply scan_escape_char_cut.
      rewrite E, str_length_app. destruct t; [congruence | simpl; lia].
Qed.

(** ** Numbers cut short *)

Lemma all_digits_uint (u : uint) : all_digits (NilEmpty.string_of_uint u) = true.
Proof. induction u; simpl; auto. Qed.

Lemma all_digits_app_l (p q : string) :
  all_digits (p ++ q) = true -> all_digits p = true.
Proof.
  induction p as [|c p IH]; simpl; [reflexivity|].
  rewrite !andb_true_iff. intros [H1 H2]. auto.
Qed.

Lemma span_all_digits (s : string) :
  all_digits s = true -> span_digits s = (s, "").
Proof.
  induction s as [|c s IH]; simpl; [reflexivity|].
  rewrite andb_true_iff. intros [H1 H2]. now rewrite H1, IH.
Qed.

Lemma all_digits_of_N n : all_digits (digits_of_N n) = true.
Proof. apply all_digits_uint. Qed.

Lemma stuck_None : stuck None.
Proof. now left. Qed.

Lemma stuck_Some v rest : cut_rest rest = true -> stuck (Some (v, rest)).
Proof. intros H. right. now exists v, rest. Qed.

(** The unsigned part, cut inside the integer digits. *)
Lemma parse_unsigned_cut_int neg (n : N) (p t : string) :
  digits_of_N n = p ++ t -> stuck (parse_unsigned neg p).
Proof.
  intros E. destruct p as [|c p]; [apply stuck_None|].
  assert (Hd : all_digits (String c p) = true)
    by (apply (all_digits_app_l _ t); rewrite <- E; apply all_digits_of_N).
  pose proof Hd as Hd'. simpl in Hd'. apply andb_true_iff in Hd' as [Hc Hp].
  unfold parse_unsigned. rewrite Hc.
  destruct (digits_of_N_shape n) as [E0|(c' & r & E' & _ & Hn)].
  - rewrite E0 in E. cbn [String.append] in E. injection E as <- E.
    destruct p; [|discriminate]. simpl. now apply stuck_Some.
  - rewrite E' in E. cbn [String.append] in E. injection E as <- _.
    apply Ascii.eqb_neq in Hn. rewrite Hn, (span_all_digits _ Hd).
    now apply stuck_Some.
Qed.

(** The unsigned part, cut after the dot. *)
Lemma parse_unsigned_cut_frac neg (n : N) (fs p t : string) :
  all_digits fs = true -> fs = p ++ t ->
  stuck (parse_unsigned neg (digits_of_N n ++ "." ++ p)).
Proof.
  intros Hfs E. unfold parse_unsigned.
  destruct (scan_digits_of_N n ("." ++ p) eq_refl) as (c & r & -> & Hc & ->).
  rewrite Hc. cbv zeta. cbn [String.append].
  rewrite span_all_digits
    by (apply (all_digits_app_l _ t); now rewrite <- E).
  destruct (uncons_digit _) as [[d u]|]; now apply stuck_Some.
Qed.

Lemma parse_unsigned_cut neg (n : N) (fs p q : string) :
  all_digits fs = true ->
  (digits_of_N n ++ "." ++ fs = p ++ q \/ digits_of_N n = p ++ q) ->
  stuck (parse_unsigned neg p).
Proof.
  intros Hfs [E|E]; [|now apply (parse_unsigned_cut_int neg n p q)].
  symmetry in E.
  destruct (app_cut _ _ _ _ E) as [(t & -> & E1)|(t & _ & E1 & _)].
  - destruct (cut_single _ _ _ _ E1) as [->|(p' & -> & E2)].
    + rewrite str_app_nil_r. apply (parse_unsigned_cut_int neg n _ "").
      symmetry. apply str_app_nil_r.
    + now apply (parse_unsigned_cut_frac neg n fs p' q).
  - now apply (parse_unsigned_cut_int neg n p t).
Qed.

Lemma parse_number_cut (sign : bool) (n : N) (fs p q : string) :
  all_digits fs = true ->
  ((if sign then "-" else "") ++ digits_of_N n ++ "." ++ fs = p ++ q \/
   (if sign then "-" else "") ++ digits_of_N n = p ++ q) ->
  forall fuel, stuck (parse_value fuel p).
Proof.
  intros Hfs E fuel. destruct p as [|c p]; [destruct fuel; apply stuck_None|].
  destruct fuel as [|fuel]; [apply stuck_None|].
  destruct sign; cbn [String.append] in E.
  - assert (c = "-"%char) by (destruct E as [E|E]; now injection E).
    subst c. rewrite parse_value_number by now left.
    cbn [parse_number]. apply (parse_unsigned_cut true n fs p q Hfs).
    destruct E as [E|E]; injection E as E; auto.
  - assert (G : stuck (parse_unsigned false (String c p)))
      by (apply (parse_unsigned_cut false n fs _ q Hfs); exact E).
    assert (Hc : is_digit c = true).
    { destruct (digits_of_N_shape n) as [E0|(c' & r & E' & Hc' & _)].
      - rewrite E0 in E. cbn [String.append] in E.
        destruct E as [E|E]; injection E as <- _; reflexivity.
      - rewrite E' in E. cbn [String.append] in E.
        destruct E as [E|E]; injection E as <- _; exact Hc'. }
    rewrite parse_value_number by now right.
    unfold parse_number.
    destruct c as [[] [] [] [] [] [] [] []]; try exact G;
      vm_compute in Hc; discriminate.
Qed.

Lemma parse_int_cut z p q fuel :
  int_str z = p ++ q -> stuck (parse_value fuel p).
Proof.
  intros E. apply (parse_number_cut (z <? 0)%Z (Z.abs_N z) "" p q eq_refl).
  right. exact E.
Qed.

Lemma parse_float_cut f p q fuel :
  float_repr f = p ++ q -> stuck (parse_value fuel p).
Proof.
  intros E.
  apply (parse_number_cut (f_neg f) (f_int f)
           (NilEmpty.string_of_uint (frac_digits f)) p q (all_digits_uint _)).
  left. rewrite <- E. unfold float_repr. reflexivity.
Qed.

(** ** Documents cut short *)

Lemma cut_ok_stuck v p q fuel :
  cut_ok v -> json_dumps v = p ++ q -> q <> "" -> stuck (parse_value fuel p).
Proof.
  intros H E Hq. specialize (H p q fuel E Hq).
  destruct (is_number v); [exact H | rewrite H; apply stuck_None].
Qed.

Lemma parse_value_nil fuel : parse_value fuel "" = None.
Proof. now destruct fuel. Qed.

Lemma parse_elems_nil fuel : parse_elems fuel "" = None.
Proof. destruct fuel; cbn; [reflexivity | now rewrite parse_value_nil]. Qed.

Lemma parse_members_nil fuel : parse_members fuel "" = None.
Proof. now destruct fuel. Qed.

Lemma skip_ws_cut_rest rest :
  cut_rest rest = true ->
  skip_ws rest = rest /\ (rest = "" \/ exists r, rest = String "." r).
Proof.
  destruct rest as [|c r]; [auto|]. simpl. intros H.
  apply Ascii.eqb_eq in H. subst c. split; [reflexivity | right; eauto].
Qed.

Lemma skip_ws_prefix v t p q :
  json_dumps v ++ t = p ++ q -> skip_ws p = p.
Proof.
  destruct p as [|c p]; [reflexivity|].
  destruct (json_dumps_start v) as (c' & r & -> & H).
  cbn [String.append]. intros [= -> _].
  apply value_start_facts in H as (H & _). simpl. now rewrite H.
Qed.

Lemma ends_value_prefix t q : ends_value (t ++ q) = true -> ends_value t = true.
Proof. destruct t; auto. Qed.

Lemma parse_elems_cut (l : list json) :
  Forall (fun v => json_wf v = true /\ cut_ok v) l ->
  forall x p q fuel,
    json_wf x = true -> cut_ok x ->
    json_dumps x ++ dumps_items l ++ "]" = p ++ q -> q <> "" ->
    parse_elems fuel p = None.
Proof.
  induction 1 as [|y l [Wy Cy] Hl IH]; intros x p q fuel Wx Cx E Hq;
    (destruct fuel as [|fuel]; [reflexivity|]); cbn [parse_elems];
    symmetry in E;
    destruct (app_cut _ _ _ _ E) as [(t & -> & E1)|(t & Ht & E1 & _)].
  - destruct (parse_value fuel (json_dumps x ++ t)) as [[v r]|] eqn:Ev;
      [|reflexivity].
    apply parse_dumps_any_fuel in Ev;
      [|exact Wx | apply (ends_value_prefix t q); now rewrite <- E1].
    injection Ev as -> ->. cbn [dumps_items String.append] in E1.
    destruct (cut_single _ _ _ _ E1) as [->|(p' & -> & E2)]; [reflexivity|].
    symmetry in E2. apply app_eq_nil_l in E2 as E3. subst p'.
    simpl in E2. congruence.
  - destruct (cut_ok_stuck x p t fuel Cx E1 Ht) as [->|(v & rest & -> & Hr)];
      [reflexivity|].
    destruct (skip_ws_cut_rest rest Hr) as [-> [->|[r ->]]]; reflexivity.
  - destruct (parse_value fuel (json_dumps x ++ t)) as [[v r]|] eqn:Ev;
      [|reflexivity].
    apply parse_dumps_any_fuel in Ev;
      [|exact Wx | apply (ends_value_prefix t q); now rewrite <- E1].
    injection Ev as -> ->. cbn [dumps_items String.append] in E1.
    rewrite !str_app_assoc in E1.
    destruct (cut_single _ _ _ _ E1) as [->|(t1 & -> & E2)]; [reflexivity|].
    simpl.
    destruct (cut_single _ _ _ _ E2) as [->|(t2 & -> & E3)];
      [simpl; now rewrite parse_elems_nil|].
    simpl. rewrite (skip_ws_prefix y _ t2 q E3).
    now rewrite (IH y t2 q fuel Wy Cy E3 Hq).
  - destruct (cut_ok_stuck x p t fuel Cx E1 Ht) as [->|(v & rest & -> & Hr)];
      [reflexivity|].
    destruct (skip_ws_cut_rest rest Hr) as [-> [->|[r ->]]]; reflexivity.
Qed.

Lemma parse_members_cut (d : list (string * json)) :
  Forall (fun kv => json_wf (snd kv) = true /\ cut_ok (snd kv)) d ->
  forall k x p q fuel,
    json_wf x = true -> cut_ok x ->
    json_escape k ++ String QUOTE (String ":" (String " " (json_dumps x ++
      dumps_members d ++ "}"))) = p ++ q ->
    q <> "" ->
    parse_members fuel p = None.
Proof.
  induction 1 as [|[k' y] d [Wy Cy] Hd IH]; intros k x p q fuel Wx Cx E Hq;
    (destruct fuel as [|fuel]; [reflexivity|]); cbn [parse_members];
    change (json_escape k ++ String QUOTE ?r)
      with (json_escape k ++ str1 QUOTE ++ r) in E;
    rewrite <- str_app_assoc in E; symmetry in E;
    (destruct (app_cut _ _ _ _ E) as [(t & -> & E1)|(t & Ht & E1 & _)];
     [|now rewrite (scan_json_escape_cut k p t E1 Ht)]);
    rewrite str_app_assoc; unfold str1; cbn [String.append];
    rewrite scan_json_escape;
    (destruct (cut_single _ _ _ _ E1) as [->|(t1 & -> & E2)]; [reflexivity|]);
    simpl;
    (destruct (cut_single _ _ _ _ E2) as [->|(t2 & -> & E3)];
     [simpl; now rewrite parse_value_nil|]);
    simpl; rewrite (skip_ws_prefix x _ t2 q E3); symmetry in E3;
    (destruct (app_cut _ _ _ _ E3) as [(t3 & -> & E4)|(t3 & Ht3 & E4 & _)];
     [|destruct (cut_ok_stuck x t2 t3 fuel Cx E4 Ht3)
         as [->|(v & rest & -> & Hr)];
       [reflexivity
       |destruct (skip_ws_cut_rest rest Hr) as [-> [->|[r ->]]]; reflexivity]]);
    (destruct (parse_value fuel (json_dumps x ++ t3)) as [[v r]|] eqn:Ev;
     [|reflexivity]);
    (apply parse_dumps_any_fuel in Ev;
     [|exact Wx | apply (ends_value_prefix t3 q); now rewrite <- E4]);
    injection Ev as -> ->; cbn [dumps_members String.append] in E4.
  - destruct (cut_single _ _ _ _ E4) as [->|(p' & -> & E5)]; [reflexivity|].
    symmetry in E5. apply app_eq_nil_l in E5 as E6. subst p'.
    simpl in E5. congruence.
  - unfold json_string, str1 in E4. rewrite !str_app_assoc in E4.
    cbn [String.append] in E4.
    destruct (cut_single _ _ _ _ E4) as [->|(t4 & -> & E5)]; [reflexivity|].
    simpl.
    destruct (cut_single _ _ _ _ E5) as [->|(t5 & -> & E6)]; [reflexivity|].
    simpl.
    destruct (cut_single _ _ _ _ E6) as [->|(t6 & -> & E7)]; [reflexivity|].
    simpl. rewrite !str_app_assoc in E7. cbn [String.append] in E7.
    now rewrite (IH k' y t6 q fuel Wy Cy E7 Hq).
Qed.

Lemma literal_cut (lit p q : string) fuel :
  lit = "null" \/ lit = "true" \/ lit = "false" ->
  lit = p ++ q -> q <> "" -> parse_value fuel p = None.
Proof.
  intros Hl E Hq. destruct fuel as [|fuel]; [reflexivity|].
  destruct Hl as [ -> | [ -> | -> ] ];
    repeat (destruct (cut_single _ _ _ _ E) as [->|(p' & -> & E')];
            [reflexivity | clear E; rename E' into E; rename p' into p]);
    symmetry in E; apply app_eq_nil_l in E as E'; subst p; simpl in E;
    congruence.
Qed.

Lemma Forall_cut_list l :
  Forall (fun v => json_wf v = true -> cut_ok v) l ->
  json_wf (JList l) = true ->
  Forall (fun v => json_wf v = true /\ cut_ok v) l.
Proof.
  induction 1 as [|x l Hx Hl IH]; intros Hwf; constructor;
    apply json_wf_list in Hwf as [Wx Wl]; auto.
Qed.

Lemma Forall_cut_dict (d : list (string * json)) :
  Forall (fun kv => json_wf (snd kv) = true -> cut_ok (snd kv)) d ->
  forallb (fun kv => json_wf (snd kv)) d = true ->
  Forall (fun kv => json_wf (snd kv) = true /\ cut_ok (snd kv)) d.
Proof.
  induction 1 as [|x l Hx Hl IH]; simpl; intros Hwf; constructor;
    apply andb_true_iff in Hwf as [H1 H2]; auto.
Qed.

Lemma parse_cut (v : json) : json_wf v = true -> cut_ok v.
Proof.
  induction v as [ | b | z | f | s | l IH | d IH] using json_ind;
    intros Hwf p q fuel E Hq; cbn [is_number].
  - apply (literal_cut "null" p q); auto.
  - destruct b; [apply (literal_cut "true" p q) | apply (literal_cut "false" p q)];
      auto.
  - now apply (parse_int_cut z p q).
  - now apply (parse_float_cut f p q).
  - destruct fuel as [|fuel]; [reflexivity|].
    cbn [json_dumps] in E. unfold json_string in E.
    change (str1 QUOTE ++ ?r) with (String QUOTE r) in E.
    destruct (cut_single _ _ _ _ E) as [->|(p' & -> & E')]; [reflexivity|].
    cbn [parse_value]. change (Ascii.eqb QUOTE QUOTE) with true. cbv iota.
    now rewrite (scan_json_escape_cut s p' q E' Hq).
  - destruct fuel as [|fuel]; [reflexivity|].
    destruct l as [|x l].
    + cbn in E.
      destruct (cut_single _ _ _ _ E) as [->|(p' & -> & E')]; [reflexivity|].
      destruct (cut_single _ _ _ _ E') as [->|(p'' & -> & E'')]; [reflexivity|].
      symmetry in E''. apply app_eq_nil_l in E'' as E3. subst p''.
      simpl in E''. congruence.
    + rewrite json_dumps_list in E. cbn [String.append] in E.
      destruct (cut_single _ _ _ _ E) as [->|(p' & -> & E')]; [reflexivity|].
      inversion IH as [|? ? Hx Hl]; subst.
      destruct (json_wf_list _ _ Hwf) as [Wx Wl].
      assert (G := parse_elems_cut l (Forall_cut_list l Hl Wl) x p' q fuel
                     Wx (Hx Wx) E' Hq).
      cbn [parse_value]. change (Ascii.eqb "[" QUOTE) with false.
      change (Ascii.eqb "[" "{") with false.
      change (Ascii.eqb "[" "[") with true. cbv iota.
      rewrite (skip_ws_prefix x _ p' q E').
      destruct p' as [|c2 r2]; [reflexivity|].
      destruct (json_dumps_start x) as (c & r & Ex & Hc).
      rewrite Ex in E'. cbn [String.append] in E'. injection E' as <- _.
      apply value_start_facts in Hc as (_ & Hc & _). rewrite Hc.
      now rewrite G.
  - destruct fuel as [|fuel]; [reflexivity|].
    destruct d as [|[k x] d].
    + cbn in E.
      destruct (cut_single _ _ _ _ E) as [->|(p' & -> & E')]; [reflexivity|].
      destruct (cut_single _ _ _ _ E') as [->|(p'' & -> & E'')]; [reflexivity|].
      symmetry in E''. apply app_eq_nil_l in E'' as E3. subst p''.
      simpl in E''. congruence.
    + rewrite json_dumps_dict in E. unfold json_string, str1 in E.
      rewrite !str_app_assoc in E. cbn [String.append] in E.
      destruct (cut_single _ _ _ _ E) as [->|(p' & -> & E')]; [reflexivity|].
      destruct (cut_single _ _ _ _ E') as [->|(p'' & -> & E'')]; [reflexivity|].
      inversion IH as [|? ? Hx Hd]; subst. cbn [snd] in Hx.
      cbn [json_wf map fst forallb snd] in Hwf.
      apply andb_true_iff in Hwf as [Wk Wv].
      apply andb_true_iff in Wv as [Wx Wd].
      assert (G := parse_members_cut d (Forall_cut_dict d Hd Wd) k x p'' q fuel
                     Wx (Hx Wx) E'' Hq).
      cbn [parse_value skip_ws]. change (Ascii.eqb "{" QUOTE) with false.
      change (Ascii.eqb "{" "{") with true. cbv iota.
      change (is_ws QUOTE) with false. cbv iota.
      change (Ascii.eqb QUOTE "}") with false.
      change (Ascii.eqb QUOTE QUOTE) with true. cbv iota.
      now rewrite G.
Qed.

(** A dumped dict cut short is not a JSON document. *)
Lemma json_loads_cut (d : dict json) (n : nat) :
  json_wf (JDict d) = true ->
  (n < String.length (json_dumps (JDict d)))%nat ->
  json_loads (take n (json_dumps (JDict d))) = None.
Proof.
  intros Hwf Hn. unfold json_loads.
  pose proof (take_drop n (json_dumps (JDict d))) as E. symmetry in E.
  assert (Hq : drop n (json_dumps (JDict d)) <> "").
  { intros H. apply (f_equal String.length) in H.
    rewrite length_drop in H. change (String.length "") with 0%nat in H. lia. }
  assert (Hs : skip_ws (take n (json_dumps (JDict d))) = take n (json_dumps (JDict d))).
  { rewrite <- (str_app_nil_r (json_dumps (JDict d))) in E.
    rewrite str_app_nil_r in E at 2 3.
    apply (skip_ws_prefix (JDict d) "" _ _ E). }
  rewrite Hs.
  now rewrite (parse_cut (JDict d) Hwf _ _ _ E Hq).
Qed.

(** ** A save that does not complete *)

Lemma save_interrupted_complete fs path st n :
  (String.length (json_dumps st) <= n)%nat ->
  save_last_state_interrupted fs path st n = save_last_state fs path st.
Proof.
  intros H. unfold save_last_state_interrupted, save_last_state.
  now rewrite take_all.
Qed.

(** C2 (amended).  For every path and every RunState, [save_last_state]
    writes the dump into the state file itself, which opening has
    truncated (no other path is touched: there is no temporary file and no
    rename).  A save interrupted after [n] bytes leaves the first [n] bytes
    of the new dump in the file; loading then does not fail and returns
    the empty default state, so the previous state is lost; once all bytes
    are written the file system is that of the completed save and loading
    returns the new state. *)
Theorem save_interrupted_load :
  forall (fs : dict string) (path : string) (st : json) (n : nat),
    valid_RunState st ->
    let fs' := save_last_state_interrupted fs path st n in
    dict_lookup fs' path = Some (take n (json_dumps st)) /\
    (forall p : string, p <> path -> dict_lookup fs' p = dict_lookup fs p) /\
    ((n < String.length (json_dumps st))%nat ->
     load_last_state fs' path = JDict []) /\
    ((String.length (json_dumps st) <= n)%nat ->
     fs' = save_last_state fs path st /\ load_last_state fs' path = st).
Proof.
  intros fs path st n (off & sample & _ & ->) fs'.
  split; [apply dict_lookup_set_same|].
  split; [intros p Hp; now apply dict_lookup_set_other|].
  split.
  - intros Hn. unfold load_last_state, fs', save_last_state_interrupted.
    rewrite dict_lookup_set_same. unfold run_state.
    rewrite json_loads_cut; [reflexivity | apply run_state_wf | exact Hn].
  - intros Hn. unfold fs'. rewrite save_interrupted_complete by exact Hn.
    split; [reflexivity|]. apply load_after_save, run_state_wf.
Qed.

Lemma save_interrupted_load_witness :
  let fs' := save_last_state_interrupted ex_files_old "state.json"
               (run_state 9 None) 5 in
  dict_lookup fs' "state.json" = Some (take 5 (json_dumps (run_state 9 None))) /\
  load_last_state fs' "state.json" = JDict [].
Proof.
  destruct (save_interrupted_load ex_files_old "state.json" (run_state 9 None) 5)
    as (H1 & _ & H3 & _).
  - exists 9%Z, None. split; [lia | reflexivity].
  - split; [exact H1 | apply H3; vm_compute; lia].
Defined.

(** C2 as stated fails: during an interrupted save a reader finds a file
    that holds neither the previous dump nor the new one. *)
Lemma save_not_atomic :
  ~ (forall (fs : dict string) (path : string) (st_old st_new : json) (n : nat),
        valid_RunState st_old -> valid_RunState st_new ->
        dict_lookup fs path = Some (json_dumps st_old) ->
        let fs' := save_last_state_interrupted fs path st_new n in
        dict_lookup fs' path = Some (json_dumps st_old) \/
        dict_lookup fs' path = Some (json_dumps st_new)).
Proof.
  intros H.
  destruct (H ex_files_old "state.json" (run_state 4 None) (run_state 9 None) 5%nat)
    as [C|C].
  - exists 4%Z, None. split; [lia | reflexivity].
  - exists 9%Z, None. split; [lia | reflexivity].
  - reflexivity.
  - vm_compute in C. discriminate C.
  - vm_compute in C. discriminate C.
Qed.

(** ** Running a cycle forward *)

Lemma observe_ok cfg env w snap d lines new_pos :
  env_psutil env = Ok snap ->
  load_last_state (files w) (state_file_of cfg) = JDict d ->
  tail_log (env_max_offset env) (files w) (log_file_of cfg)
           (dict_get d "log_pos" (JInt 0)) 200000 = Ok (lines, new_pos) ->
  observe cfg env w =
  (logged w [snapshot_entry snap; read_entry cfg lines],
   Ok (snap, d, new_pos, hits_of cfg lines)).
Proof.
  intros Hs Hl Ht.
  unfold observe, bind, get_files, metrics_snapshot, lift. rewrite Hs.
  cbn [logging files]. rewrite Hl. cbn [as_dict]. rewrite Ht. cbn [ret].
  unfold logged, py_append, snapshot_entry, read_entry, hits_of.
  cbn [files oplog outbox]. now rewrite <- List.app_assoc.
Qed.

Lemma run_once_forward cfg env w snap d lines new_pos :
  env_psutil env = Ok snap ->
  load_last_state (files w) (state_file_of cfg) = JDict d ->
  tail_log (env_max_offset env) (files w) (log_file_of cfg)
           (dict_get d "log_pos" (JInt 0)) 200000 = Ok (lines, new_pos) ->
  run_once cfg env w =
  match dispatch cfg env snap (hits_of cfg lines)
                 (logged w [snapshot_entry snap; read_entry cfg lines]) with
  | (w2, Ok _) => persist cfg d new_pos snap w2
  | (w2, Raise e) => (w2, Raise e)
  end.
Proof.
  intros Hs Hl Ht. rewrite run_once_phases. unfold bind at 1.
  rewrite (observe_ok cfg env w snap d lines new_pos Hs Hl Ht).
  unfold bind. destruct (dispatch _ _ _ _ _) as [w2 [[]|e]]; reflexivity.
Qed.


Lemma nonempty_false {A} (l : list A) : nonempty l = false <-> l = [].
Proof. destruct l; simpl; split; congruence. Qed.


(** X5.  When a cycle on plain inputs has alerts and the dispatch raises
    before the [try] statement of [send_email] (the configuration lacks
    the [smtp] section, or that section lacks [from] or [to], which gives
    the [KeyError] of the missing key, or the [email] package refuses the
    [From], [To] or [Subject] header), the cycle raises that exception
    after its two log entries: nothing is sent and nothing is saved, so the
    state file keeps the old offset. *)
Theorem alert_without_mail_config :
  forall (cfg : config) (env : cycle_env) (w : world) (snap : snapshot)
         (d : dict json) (lines : list string) (new_pos : Z) (e : exn),
    plain_inputs cfg w = true ->
    env_psutil env = Ok snap ->
    load_last_state (files w) (state_file_of cfg) = JDict d ->
    tail_log (env_max_offset env) (files w) (log_file_of cfg)
             (dict_get d "log_pos" (JInt 0)) 200000 = Ok (lines, new_pos) ->
    cycle_alerts cfg snap (hits_of cfg lines) <> [] ->
    dispatch_error cfg env = Some e ->
    run_once cfg env w =
      (logged w [snapshot_entry snap; read_entry cfg lines], Raise e) /\
    (cfg_smtp cfg = None -> e = KeyError "smtp") /\
    (forall smtp, cfg_smtp cfg = Some smtp -> smtp_from smtp = None ->
                  e = KeyError "from") /\
    (forall smtp from shown,
        cfg_smtp cfg = Some smtp -> smtp_from smtp = Some from ->
        set_header (env_header env) "From" from = Ok shown ->
        smtp_to smtp = None ->
        e = KeyError "to").
Proof.
  intros cfg env w snap d lines new_pos e _ Hs Hl Ht Ha He.
  split; [|split; [|split]].
  - rewrite (run_once_forward cfg env w snap d lines new_pos Hs Hl Ht).
    unfold dispatch. cbv zeta.
    destruct (cycle_alerts cfg snap (hits_of cfg lines)) as [|a l] eqn:Ea;
      [congruence|]. cbn [nonempty].
    unfold dispatch_error in He. unfold bind at 1.
    destruct (cfg_smtp cfg) as [smtp|]; cbn [lift require];
      [|injection He as <-; reflexivity].
    unfold bind at 1. fold (subject_of cfg).
    now rewrite (send_email_raises _ _ _ _ _ _ _ He).
  - intros Hc. unfold dispatch_error in He. rewrite Hc in He. now injection He.
  - intros smtp Hc Hf. unfold dispatch_error, header_error in He.
    rewrite Hc, Hf in He. now injection He.
  - intros smtp from shown Hc Hf Hh Hto.
    unfold dispatch_error, header_error in He.
    rewrite Hc, Hf, Hh, Hto in He. now injection He.
Qed.

(** X6.  When a cycle on plain inputs has alerts, the three headers of the
    message are accepted and the mail section lacks only the [server]
    entry, the [KeyError] is raised inside the [try] statement of
    [send_email]: it is logged as a failed dispatch, nothing is sent, and
    the cycle goes on to save the state and returns normally. *)
Theorem alert_without_server :
  forall (cfg : config) (env : cycle_env) (w : world) (snap : snapshot)
         (d : dict json) (lines : list string) (new_pos : Z)
         (smtp : smtp_config),
    plain_inputs cfg w = true ->
    env_psutil env = Ok snap ->
    load_last_state (files w) (state_file_of cfg) = JDict d ->
    tail_log (env_max_offset env) (files w) (log_file_of cfg)
             (dict_get d "log_pos" (JInt 0)) 200000 = Ok (lines, new_pos) ->
    cycle_alerts cfg snap (hits_of cfg lines) <> [] ->
    cfg_smtp cfg = Some smtp ->
    dispatch_error cfg env = None ->
    smtp_server smtp = None ->
    run_once cfg env w =
    (mkworld
       (save_last_state (files w) (state_file_of cfg)
          (JDict (new_state d new_pos snap)))
       (oplog w ++
        [snapshot_entry snap; read_entry cfg lines;
         mklog ERROR ("Failed to send alert email: " ++ exn_str (KeyError "server"));
         mklog WARNING ("Alerts triggered: " ++
                        repr_list (cycle_alerts cfg snap (hits_of cfg lines)))])%list
       (outbox w),
     Ok tt).
Proof.
  intros cfg env w snap d lines new_pos smtp _ Hs Hl Ht Ha Hc Hk Hsv.
  rewrite (run_once_forward cfg env w snap d lines new_pos Hs Hl Ht).
  unfold dispatch. cbv zeta.
  destruct (cycle_alerts cfg snap (hits_of cfg lines)) as [|a l] eqn:Ea;
    [congruence|]. cbn [nonempty].
  unfold dispatch_error in Hk. rewrite Hc in *. unfold bind at 1.
  cbn [lift require]. unfold bind at 1. fold (subject_of cfg).
  destruct (header_error_None _ _ _ Hk) as (from & to & Hf & Hto).
  rewrite (send_email_session _ _ _ _ _ _ _ _ Hk Hf Hto).
  unfold mail_session. rewrite Hsv. cbn. unfold py_append.
  now rewrite <- !List.app_assoc.
Qed.

(** ** The mail session *)

(** X7.  When the configuration has [from], [to] and [server], the [email]
    package accepts the three headers and no step of the session fails,
    [send_email] hands exactly one message to the server, with the
    recipients joined by commas, through STARTTLS on port 587 by default
    and on port 25 when TLS is switched off, logging in only when a user
    name is configured; it logs the dispatch with the [To] header as the
    [email] package gives it back, and writes to no file but the
    operational log. *)
Theorem send_email_success :
  forall (header : string -> string -> result string) (net : smtp_net)
         (smtp : smtp_config) (subject body : string)
         (from server shown : string) (to : recipients) (w : world),
    smtp_from smtp = Some from ->
    smtp_to smtp = Some to ->
    smtp_server smtp = Some server ->
    header_error header smtp subject = None ->
    set_header header "To" (to_header to) = Ok shown ->
    session_failure smtp net = None ->
    let tls := get_or (smtp_use_tls smtp) true in
    send_email header net smtp subject body w =
    (mkworld (files w)
       (oplog w ++ [mklog INFO ("Alert email sent to " ++ shown)])%list
       (outbox w ++
        [mkdelivery server
           (get_or (smtp_port smtp) (if tls then 587 else 25)%Z) tls
           (if truthy (smtp_username smtp)
            then Some (get_or (smtp_username smtp) "",
                       get_or (smtp_password smtp) "")
            else None)
           (mkemail from (to_header to) subject body)])%list,
     Ok tt).
Proof.
  intros header net smtp subject body from server shown to w
         Hf Ht Hs Hh Hsh He tls.
  rewrite (send_email_session _ _ _ _ _ _ _ _ Hh Hf Ht).
  unfold shown_to. rewrite Ht, Hsh.
  unfold mail_session, session_failure in *. rewrite Hs.
  fold tls in He |- *. destruct net as [c s l sd q]. cbn in He.
  destruct c as [c|]; [discriminate|].
  destruct tls, (truthy (smtp_username smtp)), s as [s|], l as [l|],
    sd as [sd|], q as [q|]; cbn in He; try discriminate He; reflexivity.
Qed.

Lemma dam_weaken {A} (k k' : nat) (c : M A) :
  (k <= k')%nat -> delivers_at_most k c -> delivers_at_most k' c.
Proof.
  intros Hk H w. destruct (H w) as (es & ds & H1 & H2 & H3).
  exists es, ds. repeat split; auto. lia.
Qed.

Lemma dam_pure {A} (c : M A) :
  (forall w, fst (c w) = w) -> delivers_at_most 0 c.
Proof.
  intros H w. exists [], []. rewrite H, !List.app_nil_r. auto.
Qed.

Lemma dam_logging lvl msg : delivers_at_most 0 (logging lvl msg).
Proof. intros w. exists [mklog lvl msg], []. simpl. now rewrite List.app_nil_r. Qed.

Lemma dam_deliver d : delivers_at_most 1 (smtp_deliver d).
Proof. intros w. exists [], [d]. simpl. now rewrite List.app_nil_r. Qed.

Lemma dam_put_files fs : delivers_at_most 0 (put_files fs).
Proof. intros w. exists [], []. simpl. now rewrite !List.app_nil_r. Qed.

Lemma dam_bind {A B} (k1 k2 : nat) (c : M A) (f : A -> M B) :
  delivers_at_most k1 c -> (forall a, delivers_at_most k2 (f a)) ->
  delivers_at_most (k1 + k2) (bind c f).
Proof.
  intros Hc Hf w. unfold bind. destruct (Hc w) as (es & ds & H1 & H2 & H3).
  destruct (c w) as [w' [a|e]]; simpl in *.
  - destruct (Hf a w') as (es' & ds' & H1' & H2' & H3').
    exists (es ++ es')%list, (ds ++ ds')%list.
    rewrite H1', H2', H1, H2, !List.app_assoc, length_app. repeat split. lia.
  - exists es, ds. repeat split; auto. lia.
Qed.

Lemma dam_try {A} (k : nat) (body : M A) (handler : exn -> M A) :
  delivers_at_most k body -> (forall e, delivers_at_most 0 (handler e)) ->
  delivers_at_most k (try_except body handler).
Proof.
  intros Hb Hh w. unfold try_except. destruct (Hb w) as (es & ds & H1 & H2 & H3).
  destruct (body w) as [w' [a|e]]; simpl in *; [now exists es, ds|].
  destruct (is_Exception e); simpl; [|now exists es, ds].
  destruct (Hh e w') as (es' & ds' & H1' & H2' & H3').
  exists (es ++ es')%list, (ds ++ ds')%list.
  rewrite H1', H2', H1, H2, !List.app_assoc, length_app. repeat split. lia.
Qed.

Lemma dam_smtp_step a : delivers_at_most 0 (smtp_step a).
Proof. apply dam_pure. intros w. now destruct a. Qed.

Lemma dam_lift {A} (r : result A) : delivers_at_most 0 (lift r).
Proof. now apply dam_pure. Qed.

Lemma dam_send_email header net smtp subject body :
  delivers_at_most 1 (send_email header net smtp subject body).
Proof.
  unfold send_email.
  apply (dam_bind 0 1); [apply dam_lift | intros from].
  apply (dam_bind 0 1); [apply dam_lift | intros _].
  apply (dam_bind 0 1); [apply dam_lift | intros to].
  apply (dam_bind 0 1); [apply dam_lift | intros shown].
  apply (dam_bind 0 1); [apply dam_lift | intros _].
  apply dam_try; [|intros e; apply dam_logging]. cbv zeta.
  apply (dam_bind 0 1); [apply dam_lift | intros server].
  apply (dam_bind 0 1); [apply dam_smtp_step | intros _].
  apply (dam_bind 0 1);
    [destruct (get_or _ _); [apply dam_smtp_step | now apply dam_pure] | intros _].
  apply (dam_bind 0 1);
    [destruct (truthy _); [apply dam_smtp_step | now apply dam_pure] | intros _].
  apply (dam_bind 0 1); [apply dam_smtp_step | intros _].
  apply (dam_bind 1 0); [apply dam_deliver | intros _].
  apply (dam_bind 0 0); [apply dam_smtp_step | intros _]. apply dam_logging.
Qed.

Lemma dam_dispatch cfg env snap hits :
  delivers_at_most 1 (dispatch cfg env snap hits).
Proof.
  unfold dispatch. cbv zeta. destruct (nonempty _);
    [|apply (dam_weaken 0); [lia | apply dam_logging]].
  apply (dam_bind 0 1); [apply dam_lift | intros smtp].
  apply (dam_bind 1 0); [apply dam_send_email | intros _]. apply dam_logging.
Qed.

Lemma dam_observe cfg env : delivers_at_most 0 (observe cfg env).
Proof.
  unfold observe, metrics_snapshot.
  apply (dam_bind 0 0); [now apply dam_pure | intros fs].
  apply (dam_bind 0 0); [apply dam_lift | intros snap].
  apply (dam_bind 0 0); [apply dam_logging | intros _].
  apply (dam_bind 0 0); [apply dam_lift | intros d].
  apply (dam_bind 0 0); [apply dam_lift | intros [lines new_pos]].
  apply (dam_bind 0 0); [apply dam_logging | intros _]. now apply dam_pure.
Qed.

Lemma dam_persist cfg d new_pos snap :
  delivers_at_most 0 (persist cfg d new_pos snap).
Proof.
  unfold persist.
  apply (dam_bind 0 0); [now apply dam_pure | intros fs]. apply dam_put_files.
Qed.

(** X8.  Whatever the configuration, the environment and the outcome, one
    cycle hands at most one message to the transport, and it only appends
    to the operational log and to the outbox: earlier entries stay. *)
Theorem run_once_delivers_at_most_once :
  forall (cfg : config) (env : cycle_env) (w : world),
    exists (entries : list log_record) (ds : list delivery),
      oplog (fst (run_once cfg env w)) = (oplog w ++ entries)%list /\
      outbox (fst (run_once cfg env w)) = (outbox w ++ ds)%list /\
      (List.length ds <= 1)%nat.
Proof.
  intros cfg env w. rewrite run_once_phases.
  assert (H : delivers_at_most 1
                ('(snap, d, new_pos, hits) <- observe cfg env ;;
                 dispatch cfg env snap hits ;;;
                 persist cfg d new_pos snap)).
  { apply (dam_bind 0 1); [apply dam_observe|].
    intros [[[snap d] new_pos] hits].
    apply (dam_bind 1 0); [apply dam_dispatch | intros _]. apply dam_persist. }
  apply H.
Qed.

(** ** The offset through a cycle *)


Lemma loaded_offset_inv fs sf z :
  loaded_offset fs sf = Some z ->
  exists d, load_last_state fs sf = JDict d /\
            as_index (dict_get d "log_pos" (JInt 0)) = Ok z.
Proof.
  unfold loaded_offset.
  destruct (load_last_state fs sf) as [ | | | | | |d]; try discriminate.
  destruct (as_index _) as [z'|e] eqn:E; [|discriminate].
  intros [= <-]. now exists d.
Qed.

Lemma tail_log_within lim fs path content pos old lines new_pos :
  tail_log lim fs path pos 200000 = Ok (lines, new_pos) ->
  dict_lookup fs path = Some content ->
  as_index pos = Ok old ->
  (0 <= old <= max_offset lim)%Z.
Proof.
  unfold tail_log, read_from. intros H Hf Hi. rewrite Hf, Hi in H.
  destruct (_ || _); [discriminate|].
  destruct (Z.ltb_spec old 0); [discriminate|]. cbn [orb] in H.
  destruct (Z.ltb_spec (max_offset lim) old); [discriminate | lia].
Qed.

Lemma tail_log_value lim fs path content pos old :
  dict_lookup fs path = Some content ->
  as_index pos = Ok old -> (0 <= old <= max_offset lim)%Z ->
  exists lines,
    tail_log lim fs path pos 200000 =
    Ok (lines,
        Z.max old (Z.min (old + 200000) (Z.of_nat (String.length content)))) /\
    ((Z.of_nat (String.length content) <= old)%Z -> lines = []).
Proof.
  intros Hf Hi Ho. pose proof (max_offset_range lim) as Hr.
  unfold tail_log, read_from. rewrite Hf, Hi.
  destruct (Z.ltb_spec old (- off_t_max - 1)); [unfold off_t_max in *; lia|].
  destruct (Z.ltb_spec off_t_max old); [lia|].
  destruct (Z.ltb_spec old 0); [lia|].
  destruct (Z.ltb_spec (max_offset lim) old); [lia|]. cbn [orb].
  change (200000 <? -1)%Z with false. change (200000 =? -1)%Z with false.
  cbv iota. eexists. split.
  - do 2 f_equal. rewrite length_take, length_drop. lia.
  - intros Hle. rewrite drop_all by lia. now rewrite take_nil.
Qed.




(** X19.  When on plain inputs the log file exists and the state file holds
    an offset beyond the largest position of the file system, the seek is
    refused: the cycle raises an [OSError], or a [ValueError] from 2^63 on,
    right after logging the snapshot, and nothing is saved, so every later
    cycle meets the same offset. *)
Theorem offset_beyond_limit_blocks_cycle :
  forall (cfg : config) (env : cycle_env) (w : world) (snap : snapshot)
         (content : string) (z : Z),
    plain_inputs cfg w = true ->
    env_psutil env = Ok snap ->
    dict_lookup (files w) (log_file_of cfg) = Some content ->
    loaded_offset (files w) (state_file_of cfg) = Some z ->
    (max_offset (env_max_offset env) < z)%Z ->
    run_once cfg env w =
    (logged w [snapshot_entry snap],
     Raise (if (off_t_max <? z)%Z
            then ValueError "cannot fit 'int' into an offset-sized integer"
            else OSError "[Errno 22] Invalid argument")).
Proof.
  intros cfg env w snap content z _ Hs Hc Ho Hz.
  apply loaded_offset_inv in Ho as (d & Hl & Hi).
  unfold run_once, bind, get_files, metrics_snapshot, lift.
  rewrite Hs. cbn [logging files]. fold (state_file_of cfg) (log_file_of cfg).
  rewrite Hl. cbn [as_dict]. unfold tail_log. rewrite Hc.
  rewrite (read_from_refused _ _ _ _ _ Hi Hz). reflexivity.
Qed.

(** X2.  When on plain inputs the state file is absent or does not hold a
    JSON document, a cycle that completes starts from the empty state: it
    reads the log from byte 0 and leaves in the state file the dump of
    exactly the two entries [log_pos], the number of bytes read (the size
    of the log file, at most 200000, or 0 without a log file), and
    [last_snapshot], the sample of this cycle. *)
Theorem fresh_state_cycle :
  forall (cfg : config) (env : cycle_env) (w w' : world) (snap : snapshot),
    plain_inputs cfg w = true ->
    run_once cfg env w = (w', Ok tt) ->
    env_psutil env = Ok snap ->
    (dict_lookup (files w) (state_file_of cfg) = None \/
     exists content, dict_lookup (files w) (state_file_of cfg) = Some content /\
                     json_loads content = None) ->
    dict_lookup (files w') (state_file_of cfg) =
    Some (json_dumps
            (run_state
               match dict_lookup (files w) (log_file_of cfg) with
               | Some log => Z.min 200000 (Z.of_nat (String.length log))
               | None => 0%Z
               end
               (Some snap))).
Proof.
  intros cfg env w w' snap _ H Hs Hbad.
  assert (Hl : load_last_state (files w) (state_file_of cfg) = JDict []).
  { unfold load_last_state.
    destruct Hbad as [->|(content & -> & ->)]; reflexivity. }
  apply run_once_ok in H as (snap' & d & lines & new_pos & Hs' & Hl' & Ht & Hf).
  rewrite Hs in Hs'. injection Hs' as <-.
  rewrite Hl in Hl'. injection Hl' as <-.
  rewrite Hf. unfold save_last_state. rewrite dict_lookup_set_same.
  cbn [dict_get dict_lookup] in Ht. do 2 f_equal.
  destruct (dict_lookup (files w) (log_file_of cfg)) as [log|] eqn:Hc.
  - pose proof (tail_log_within _ _ _ _ _ _ _ _ Ht Hc eq_refl) as Hb.
    destruct (tail_log_value _ _ _ log (JInt 0) 0%Z Hc eq_refl Hb) as (ls & E & _).
    rewrite E in Ht. injection Ht as _ <-. unfold run_state, new_state.
    cbn [dict_set String.eqb Ascii.eqb Bool.eqb].
    replace (Z.max 0 (Z.min 200000 (Z.of_nat (String.length log))))
      with (Z.min 200000 (Z.of_nat (String.length log))) by lia.
    reflexivity.
  - unfold tail_log in Ht. rewrite Hc in Ht. injection Ht as _ <-. reflexivity.
Qed.


(** ** Lines *)

Lemma one_line_app cur c :
  one_line cur = true -> is_linebreak c = false ->
  one_line (cur ++ String c "") = true.
Proof.
  intros Hc Hl. unfold one_line in *.
  induction cur as [|x cur IH]; simpl in *.
  - now rewrite Hl.
  - apply andb_true_iff in Hc as [H1 H2]. now rewrite H1, IH.
Qed.

Lemma split_from_one_line s :
  (forall cur, one_line cur = true ->
               Forall (fun ln => one_line ln = true) (split_from cur s)) /\
  (forall c, Forall (fun ln => one_line ln = true) (after_break c s)).
Proof.
  induction s as [|c s [IH1 IH2]].
  - split; [|constructor]. intros cur Hc. simpl.
    destruct (cur =? "")%string; repeat constructor; auto.
  - assert (P : forall cur, one_line cur = true ->
                Forall (fun ln => one_line ln = true) (split_from cur (String c s))).
    { intros cur Hc. rewrite split_from_cons.
      destruct (is_linebreak c) eqn:Hl.
      - constructor; [exact Hc | apply IH2].
      - apply IH1. now apply one_line_app. }
    split; [exact P|]. intros x. unfold after_break.
    destruct (Ascii.eqb x CR && Ascii.eqb c LF); [now apply IH1 | now apply P].
Qed.

Lemma split_from_length s :
  (forall cur, (List.length (split_from cur s) <=
                String.length s + if (cur =? "")%string then 0 else 1)%nat) /\
  (forall c, (List.length (after_break c s) <= String.length s)%nat).
Proof.
  induction s as [|c s [IH1 IH2]].
  - split; [|simpl; lia]. intros cur. simpl. destruct (cur =? "")%string; simpl; lia.
  - assert (P : forall cur,
                (List.length (split_from cur (String c s)) <=
                 String.length (String c s) +
                 if (cur =? "")%string then 0 else 1)%nat).
    { intros cur. rewrite split_from_cons. destruct (is_linebreak c).
      - specialize (IH2 c). simpl. lia.
      - specialize (IH1 (cur ++ String c "")).
        destruct (cur ++ String c "" =? "")%string eqn:E.
        + apply String.eqb_eq in E. destruct cur; discriminate.
        + simpl. lia. }
    split; [exact P|]. intros x. unfold after_break.
    destruct (Ascii.eqb x CR && Ascii.eqb c LF).
    + specialize (IH1 ""). simpl in *. lia.
    + specialize (P ""). simpl in *. lia.
Qed.

Lemma length_map_str f s : String.length (map_str f s) = String.length s.
Proof. induction s as [|c s IH]; simpl; auto. Qed.

(** X12.  A read of an existing log file that returns has started from a
    non-negative integer offset; the new offset exceeds the old one by at
    most [max_bytes] and does not pass the end of the file unless the old
    one already did; there are at most as many lines as bytes read, and no
    line contains a line terminator. *)
Theorem tail_log_bounds :
  forall (lim : N) (fs : dict string) (path content : string) (pos : json)
         (max_bytes : Z) (lines : list string) (new_pos : Z),
    dict_lookup fs path = Some content ->
    (0 <= max_bytes)%Z ->
    tail_log lim fs path pos max_bytes = Ok (lines, new_pos) ->
    exists old : Z,
      as_index pos = Ok old /\
      (0 <= old <= new_pos)%Z /\
      (new_pos <= old + max_bytes)%Z /\
      (new_pos <= Z.max old (Z.of_nat (String.length content)))%Z /\
      (Z.of_nat (List.length lines) <= new_pos - old)%Z /\
      Forall (fun ln => one_line ln = true) lines.
Proof.
  intros lim fs path content pos max_bytes lines new_pos Hf Hm.
  unfold tail_log, read_from. rewrite Hf.
  destruct (as_index pos) as [old|e]; [|discriminate].
  destruct (_ || _); [discriminate|].
  destruct (Z.ltb_spec old 0); [discriminate|]. cbn [orb].
  destruct (_ <? _)%Z; [discriminate|].
  destruct (Z.ltb_spec max_bytes (-1)); [lia|].
  destruct (Z.eqb_spec max_bytes (-1)); [lia|].
  intros [= <- <-]. exists old. split; [reflexivity|].
  pose proof (proj1 (split_from_length
    (decode (take (Z.to_nat max_bytes) (drop (Z.to_nat old) content)))) "") as Hlen.
  unfold decode in Hlen at 2. rewrite length_map_str in Hlen.
  change (("" =? "")%string) with true in Hlen. cbv iota in Hlen.
  fold (splitlines (decode (take (Z.to_nat max_bytes) (drop (Z.to_nat old) content))))
    in Hlen.
  rewrite length_take, length_drop in *.
  repeat split; try lia.
  apply split_from_one_line. reflexivity.
Qed.

(** ** More on the scanner *)

Lemma scan_is_filter lines patterns :
  scan_for_patterns lines patterns = filter (matches patterns) lines.
Proof. unfold scan_for_patterns. now rewrite scan_fold_filter. Qed.

(** X13.  Scanning two batches of lines one after the other finds the hits
    of scanning them together; every hit is one of the scanned lines and
    there are at most as many hits as lines. *)
Theorem scan_for_patterns_app :
  forall (lines1 lines2 patterns : list string),
    scan_for_patterns (lines1 ++ lines2) patterns =
    (scan_for_patterns lines1 patterns ++ scan_for_patterns lines2 patterns)%list /\
    (forall h, In h (scan_for_patterns lines1 patterns) -> In h lines1) /\
    (List.length (scan_for_patterns lines1 patterns) <= List.length lines1)%nat.
Proof.
  intros lines1 lines2 patterns. rewrite !scan_is_filter. split; [|split].
  - apply filter_app.
  - intros h H. now apply filter_In in H.
  - apply filter_length_le.
Qed.

Lemma str_in_empty s : str_in "" s = true.
Proof. destruct s; reflexivity. Qed.

(** X14.  With an empty pattern list no line is a hit; with the empty string
    among the patterns every line is a hit. *)
Theorem scan_for_patterns_edges :
  forall (lines patterns : list string),
    scan_for_patterns lines [] = [] /\
    (In "" patterns -> scan_for_patterns lines patterns = lines).
Proof.
  intros lines patterns. rewrite !scan_is_filter. split.
  - induction lines; simpl; auto.
  - intros Hin.
    assert (M : forall ln, matches patterns ln = true).
    { intros ln. unfold matches. apply existsb_exists. exists "".
      split; [exact Hin | apply str_in_empty]. }
    induction lines as [|ln lines IH]; simpl; [reflexivity|].
    now rewrite M, IH.
Qed.

(** ** The dashboard *)

Lemma split_after_LF cur s :
  split_from cur (String LF s) = cur :: split_from "" s.
Proof. rewrite split_from_cons. destruct s; reflexivity. Qed.

Lemma split_translate_len (n : nat) :
  forall s cur, (String.length s <= n)%nat ->
    split_from cur (translate_newlines s) = split_from cur s.
Proof.
  induction n as [|n IH]; intros s cur Hn.
  - destruct s; [reflexivity | simpl in Hn; lia].
  - destruct s as [|c s]; [reflexivity|]. simpl in Hn.
    cbn [translate_newlines]. destruct (Ascii.eqb_spec c CR) as [->|Hc].
    + rewrite split_after_LF, split_from_cons.
      change (is_linebreak CR) with true. cbv iota.
      destruct s as [|c' s]; [reflexivity|].
      unfold after_break. change (Ascii.eqb CR CR) with true. cbn [andb].
      simpl in Hn. destruct (Ascii.eqb c' LF); f_equal; apply IH; simpl; lia.
    + rewrite !split_from_cons.
      destruct (is_linebreak c); [|apply IH; lia].
      f_equal. unfold after_break. apply Ascii.eqb_neq in Hc. rewrite Hc.
      cbn [andb].
      destruct s as [|c' s].
      * reflexivity.
      * destruct (translate_newlines (String c' s)) as [|y t] eqn:E.
        -- rewrite <- (IH (String c' s) "" ltac:(simpl in *; lia)), E. reflexivity.
        -- rewrite <- E. apply IH. simpl in *; lia.
Qed.

(** X15.  The newline translation of a file read in text mode does not
    change the lines: the dashboard, which reads the text and splits it,
    gets the lines that [tail_log] gets from the decoded bytes. *)
Theorem read_text_same_lines :
  forall content : string,
    splitlines (read_text content) = splitlines (decode content).
Proof.
  intros content. unfold splitlines, read_text.
  apply (split_translate_len (String.length (decode content))). lia.
Qed.

(** X16.  With the log file present, [read_log_lines] with a positive [n]
    returns the last [n] lines of the file, or all of them when there are
    fewer; with [n = 0] it returns all lines, not none; and the second
    slice in [api_logs] changes nothing. *)
Theorem read_log_lines_tail :
  forall (fs : dict string) (content : string) (n : Z),
    dict_lookup fs LOG_FILE = Some content ->
    let lines := splitlines (decode content) in
    ((0 < n)%Z ->
     read_log_lines fs n = skipn (List.length lines - Z.to_nat n) lines /\
     List.length (read_log_lines fs n) = Nat.min (Z.to_nat n) (List.length lines)) /\
    read_log_lines fs 0 = lines /\
    api_logs fs = read_log_lines fs 1000.
Proof.
  intros fs content n Hf lines.
  assert (R : forall m, read_log_lines fs m = py_slice_from (- m) lines).
  { intros m. unfold read_log_lines. rewrite Hf.
    cbv zeta. now rewrite read_text_same_lines. }
  assert (P : forall m, (0 < m)%Z ->
            py_slice_from (- m) lines = skipn (List.length lines - Z.to_nat m) lines).
  { intros m Hm. unfold py_slice_from. cbv zeta.
    destruct (Z.ltb_spec (- m) 0); [|lia]. f_equal. lia. }
  split; [|split].
  - intros Hn. rewrite R, P by exact Hn. split; [reflexivity|].
    rewrite length_skipn. lia.
  - rewrite R. unfold py_slice_from. cbv zeta. change (- 0 <? 0)%Z with false.
    cbv iota. change (- 0)%Z with 0%Z.
    now replace (Z.min 0 (Z.of_nat (List.length lines))) with 0%Z by lia.
  - unfold api_logs. rewrite R, P by lia.
    unfold py_slice_from. cbv zeta. change (-1000 <? 0)%Z with true. cbv iota.
    rewrite length_skipn.
    set (k := Z.to_nat 1000). set (len := List.length lines).
    replace (Z.to_nat (Z.max 0 (Z.of_nat (len - (len - k)) + -1000))) with 0%nat
      by (unfold k; lia).
    reflexivity.
Qed.

Lemma read_state_load fs : read_state fs = load_last_state fs STATE_FILE.
Proof. reflexivity. Qed.

(** X17.  When the monitor uses its default state file, after every cycle
    that completes the dashboard's [read_state] returns a dict in which
    [log_pos] is a non-negative integer and [last_snapshot] is the sample
    of that cycle. *)
Theorem read_state_after_cycle :
  forall (cfg : config) (env : cycle_env) (w w' : world) (snap : snapshot),
    cfg_state_file cfg = None ->
    env_psutil env = Ok snap ->
    run_once cfg env w = (w', Ok tt) ->
    exists (d : dict json) (new_pos : Z),
      read_state (files w') = JDict d /\
      dict_lookup d "log_pos" = Some (JInt new_pos) /\
      (0 <= new_pos)%Z /\
      dict_lookup d "last_snapshot" = Some (snapshot_json snap).
Proof.
  intros cfg env w w' snap Hsf Hs H.
  apply run_once_ok in H as (snap' & d & lines & new_pos & Hs' & Hl & Ht & Hf).
  rewrite Hs in Hs'. injection Hs' as <-.
  assert (Hwf : json_wf (JDict d) = true)
    by (rewrite <- Hl; apply load_last_state_wf).
  assert (Esf : state_file_of cfg = STATE_FILE)
    by (unfold state_file_of; now rewrite Hsf).
  exists (new_state d new_pos snap), new_pos.
  rewrite read_state_load, Hf, Esf, load_after_save by now apply new_state_wf.
  split; [reflexivity|]. unfold new_state.
  rewrite dict_lookup_set_other by discriminate.
  rewrite !dict_lookup_set_same. split; [reflexivity|]. split; [|reflexivity].
  apply tail_log_offset in Ht.
  destruct (dict_lookup (files w) (log_file_of cfg)); [|lia].
  destruct Ht as (old & _ & Hle). lia.
Qed.

(** ** Interrupting the loop *)

(** X18.  In interval mode a Ctrl-C that arrives during the sleep after a
    completed cycle, or inside a cycle, ends [main] normally: the
    interruption is logged and the world is otherwise the one the last
    cycle left. *)
Theorem interrupt_exits_cleanly :
  forall (a : args) (cfg : config) (sched : nat -> tick) (n fuel : nat)
         (w w_n w' : world),
    arg_once a = false ->
    (0 < arg_interval a)%Z ->
    run_loop cfg sched 0 n (started a w) = (w_n, Looping) ->
    (run_once cfg (tick_env (sched n)) w_n = (w', Ok tt) /\
     tick_interrupt (sched n) = true
     \/ run_once cfg (tick_env (sched n)) w_n = (w', Raise KeyboardInterrupt)) ->
    (n < fuel)%nat ->
    main a (Ok cfg) sched fuel w =
    (logged w' [mklog INFO "Interrupted by user. Exiting."], Exited).
Proof.
  intros a cfg sched n fuel w w_n w' Ho Hi Hn Hc Hf.
  unfold main. rewrite Ho. destruct (Z.leb_spec (arg_interval a) 0); [lia|].
  cbn [orb].
  replace (logging INFO ("Starting monitor with config " ++ arg_config a) w)
    with (started a w, Ok tt) by reflexivity.
  replace fuel with (n + S (fuel - S n))%nat by lia.
  rewrite (run_loop_more _ _ _ _ _ _ _ Hn). cbn [run_loop Nat.add].
  destruct Hc as [[-> ->]| ->]; reflexivity.
Qed.

(** ** Any state through the store *)

(** X1.  Any JSON state whose dicts have unique keys, whatever its keys,
    nesting and strings, is recovered by [load_last_state] after
    [save_last_state]; and saving to one path does not change what is
    loaded from another path. *)
Theorem load_save_any_state :
  forall (fs : dict string) (path other : string) (st : json),
    json_wf st = true ->
    load_last_state (save_last_state fs path st) path = st /\
    (other <> path ->
     load_last_state (save_last_state fs path st) other =
     load_last_state fs other).
Proof.
  intros fs path other st Hwf. split; [now apply load_after_save|].
  intros Hne. unfold load_last_state, save_last_state.
  now rewrite dict_lookup_set_other.
Qed.

Lemma load_save_any_state_witness :
  load_last_state (save_last_state [] "state.json" ex_state_extra) "state.json"
  = ex_state_extra /\
  ("other.json" <> "state.json" ->
   load_last_state (save_last_state [] "state.json" ex_state_extra) "other.json"
   = load_last_state [] "other.json").
Proof.
  apply (load_save_any_state [] "state.json" "other.json" ex_state_extra).
  reflexivity.
Defined.

(** ** The properties on the small installation *)


Lemma alert_without_mail_config_witness :
  run_once ex_cfg_no_mail ex_env ex_world =
  (logged ex_world
     [snapshot_entry ex_snapshot;
      read_entry ex_cfg_no_mail ["ok"; "ERROR disk failure"; "ok"]],
   Raise (KeyError "smtp")).
Proof.
  destruct (alert_without_mail_config ex_cfg_no_mail ex_env ex_world ex_snapshot []
              ["ok"; "ERROR disk failure"; "ok"] 25 (KeyError "smtp"))
    as (H & _).
  - vm_compute. reflexivity.
  - reflexivity.
  - reflexivity.
  - vm_compute. reflexivity.
  - vm_compute. discriminate.
  - reflexivity.
  - exact H.
Defined.

Lemma alert_without_server_witness :
  run_once ex_cfg_no_server ex_env ex_world =
  (mkworld
     (save_last_state (files ex_world) (state_file_of ex_cfg_no_server)
        (JDict (new_state [] 25 ex_snapshot)))
     (oplog ex_world ++
      [snapshot_entry ex_snapshot;
       read_entry ex_cfg_no_server ["ok"; "ERROR disk failure"; "ok"];
       mklog ERROR ("Failed to send alert email: " ++ exn_str (KeyError "server"));
       mklog WARNING
         ("Alerts triggered: " ++
          repr_list (cycle_alerts ex_cfg_no_server ex_snapshot
                       (hits_of ex_cfg_no_server
                          ["ok"; "ERROR disk failure"; "ok"])))])%list
     (outbox ex_world),
   Ok tt).
Proof.
  apply (alert_without_server ex_cfg_no_server ex_env ex_world ex_snapshot []
           ["ok"; "ERROR disk failure"; "ok"] 25 ex_smtp_no_server).
  - vm_compute. reflexivity.
  - reflexivity.
  - reflexivity.
  - vm_compute. reflexivity.
  - vm_compute. discriminate.
  - reflexivity.
  - reflexivity.
  - reflexivity.
Defined.

Lemma send_email_success_witness :
  send_email header_plain net_up ex_smtp "ALERT" "body" ex_world =
  (mkworld (files ex_world)
     (oplog ex_world ++ [mklog INFO "Alert email sent to ops@example.org"])%list
     (outbox ex_world ++
      [mkdelivery "mail.example.org" 587 true None
         (mkemail "monitor@example.org" (to_header (ToList ["ops@example.org"]))
            "ALERT" "body")])%list,
   Ok tt).
Proof.
  apply (send_email_success header_plain net_up ex_smtp "ALERT" "body"
           "monitor@example.org" "mail.example.org" "ops@example.org"
           (ToList ["ops@example.org"]) ex_world);
    reflexivity.
Defined.




Lemma offset_beyond_limit_blocks_cycle_witness :
  run_once ex_cfg ex_env ex_world_far =
  (logged ex_world_far [snapshot_entry ex_snapshot],
   Raise (OSError "[Errno 22] Invalid argument")).
Proof.
  apply (offset_beyond_limit_blocks_cycle ex_cfg ex_env ex_world_far ex_snapshot
           ex_log 17592186044416).
  - vm_compute. reflexivity.
  - reflexivity.
  - reflexivity.
  - vm_compute. reflexivity.
  - vm_compute. reflexivity.
Defined.

Lemma fresh_state_cycle_witness :
  dict_lookup (files (fst (run_once ex_cfg ex_env ex_world_cut)))
              (state_file_of ex_cfg) =
  Some (json_dumps
          (run_state
             match dict_lookup (files ex_world_cut) (log_file_of ex_cfg) with
             | Some log => Z.min 200000 (Z.of_nat (String.length log))
             | None => 0%Z
             end
             (Some ex_snapshot))).
Proof.
  apply (fresh_state_cycle ex_cfg ex_env ex_world_cut
           (fst (run_once ex_cfg ex_env ex_world_cut)) ex_snapshot).
  - vm_compute. reflexivity.
  - vm_compute. reflexivity.
  - reflexivity.
  - right. eexists. split; [reflexivity | vm_compute; reflexivity].
Defined.


Lemma tail_log_bounds_witness :
  exists old : Z,
    as_index (JInt 3) = Ok old /\
    (0 <= old <= 8)%Z /\
    (8 <= old + 5)%Z /\
    (8 <= Z.max old (Z.of_nat (String.length ex_log)))%Z /\
    (Z.of_nat (List.length ["ERROR"]) <= 8 - old)%Z /\
    Forall (fun ln => one_line ln = true) ["ERROR"].
Proof.
  apply (tail_log_bounds ext4_limit (files ex_world) "sys.log" ex_log (JInt 3) 5
           ["ERROR"] 8).
  - reflexivity.
  - lia.
  - reflexivity.
Defined.

Lemma scan_for_patterns_edges_witness :
  scan_for_patterns ["ok"; "ERROR"] [] = [] /\
  (In "" ["error"; ""] -> scan_for_patterns ["ok"; "ERROR"] ["error"; ""] = ["ok"; "ERROR"]).
Proof. apply (scan_for_patterns_edges ["ok"; "ERROR"] ["error"; ""]). Defined.

Lemma read_log_lines_tail_witness :
  let fs := [("monitor.log", "a" ++ str1 CR ++ str1 LF ++ "b" ++ str1 LF ++ "c")] in
  let lines := splitlines (decode ("a" ++ str1 CR ++ str1 LF ++ "b" ++ str1 LF ++ "c")) in
  ((0 < 2)%Z ->
   read_log_lines fs 2 = skipn (List.length lines - Z.to_nat 2) lines /\
   List.length (read_log_lines fs 2) = Nat.min (Z.to_nat 2) (List.length lines)) /\
  read_log_lines fs 0 = lines /\
  api_logs fs = read_log_lines fs 1000.
Proof.
  apply (read_log_lines_tail
           [("monitor.log", "a" ++ str1 CR ++ str1 LF ++ "b" ++ str1 LF ++ "c")]
           ("a" ++ str1 CR ++ str1 LF ++ "b" ++ str1 LF ++ "c") 2).
  reflexivity.
Defined.

Lemma read_state_after_cycle_witness :
  exists (d : dict json) (new_pos : Z),
    read_state (files (fst (run_once ex_cfg_default ex_env ex_world))) = JDict d /\
    dict_lookup d "log_pos" = Some (JInt new_pos) /\
    (0 <= new_pos)%Z /\
    dict_lookup d "last_snapshot" = Some (snapshot_json ex_snapshot).
Proof.
  apply (read_state_after_cycle ex_cfg_default ex_env ex_world
           (fst (run_once ex_cfg_default ex_env ex_world)) ex_snapshot).
  - reflexivity.
  - reflexivity.
  - vm_compute. reflexivity.
Defined.

Lemma interrupt_exits_cleanly_witness :
  main ex_args (Ok ex_cfg) ex_schedule_ctrl_c 5 ex_world =
  (logged (fst (run_loop ex_cfg ex_schedule_ctrl_c 0 2 (started ex_args ex_world)))
     [mklog INFO "Interrupted by user. Exiting."],
   Exited).
Proof.
  apply (interrupt_exits_cleanly ex_args ex_cfg ex_schedule_ctrl_c 1 5 ex_world
           (fst (run_loop ex_cfg ex_schedule_ctrl_c 0 1 (started ex_args ex_world)))).
  - reflexivity.
  - reflexivity.
  - vm_compute. reflexivity.
  - left. split; vm_compute; reflexivity.
  - lia.
Defined.
